(** * CocoaPods bookkeeping of cordova-ios: [lib/Api.js]

    A shallow embedding of the part of [lib/Api.js] that installs and
    removes the CocoaPods dependencies of a plugin ([addPodSpecs],
    [removePodSpecs]) together with the helpers [_isTrue], [getVariableSpec]
    and [replacePodSpecVariables].

    JavaScript values are the primitives that reach this code from a parsed
    [plugin.xml] or from [pods.json], and the objects and functions that a
    property read can come back with; objects used as records are finite
    maps from property names to values; objects whose key order is observed
    through [Object.keys] are association lists.  A thrown exception is an
    explicit outcome, and the two files on disk, the event channel and the
    external [pod install] run are an explicit world. *)

From stdpp Require Import base option list gmap strings fin_maps pretty.
From Stdlib Require Import ZArith Ascii String Lia.

Local Open Scope Z_scope.
Local Open Scope string_scope.

(** ** JavaScript values *)

(** A value is a primitive or an object.  A number is an integer [n].  Of
    an object or function this code can see which one it is ([name] stands
    for its identity), what [String (v)] makes of it ([text]) and what
    [%s] of [util.format] prints for it ([inspected]); it is not an array
    or a string object: it has no method [includes]. *)
Inductive jsval : Type :=
  | JUndefined
  | JNull
  | JBool (b : bool)
  | JNum (n : Z)
  | JStr (s : string)
  | JObject (name text inspected : string).

#[global] Instance jsval_eq_dec : EqDecision jsval.
Proof. solve_decision. Defined.

#[global] Instance jsval_inhabited : Inhabited jsval := populate JUndefined.

(** An object used as a record, by its own properties: property name to
    value.  It is read under names that nothing inherited answers to, so
    that reading a property that is not there gives [undefined]. *)
Abbreviation jsobj := (gmap string jsval).

Definition get_field (o : jsobj) (f : string) : jsval :=
  default JUndefined (o !! f).

(** [if (v)]: the truthiness of a value. *)
Definition truthy (v : jsval) : bool :=
  match v with
  | JUndefined | JNull => false
  | JBool b => b
  | JNum n => negb (Z.eqb n 0)
  | JStr s => negb (String.eqb s "")
  | JObject _ _ _ => true
  end.

(** [a === b]: primitives by value, objects by identity. *)
Definition strict_eq (a b : jsval) : bool := bool_decide (a = b).

(** What a thrown exception carries, as far as this development tells
    exceptions apart. *)
Inductive js_error : Type :=
  | TypeError
  | CordovaError (msg : string).

Inductive outcome (A : Type) : Type :=
  | Returned (a : A)
  | Thrown (e : js_error).
Arguments Returned {A} a.
Arguments Thrown {A} e.

(** ** Strings *)

Module JsString.

(** [s.includes(c)] for a one-character [c]. *)
Fixpoint includes (c : ascii) (s : string) : bool :=
  match s with
  | EmptyString => false
  | String a s' => if Ascii.eqb a c then true else includes c s'
  end.

(** [s.replace(c, '')] for a one-character string pattern [c]: a string
    pattern replaces the first match only. *)
Fixpoint remove_first (c : ascii) (s : string) : string :=
  match s with
  | EmptyString => EmptyString
  | String a s' => if Ascii.eqb a c then s' else String a (remove_first c s')
  end.

Definition lower_ascii (a : ascii) : ascii :=
  let n := nat_of_ascii a in
  if (Nat.leb 65 n && Nat.leb n 90)%bool then ascii_of_nat (n + 32) else a.

(** [s.toLowerCase()].  Strings are byte strings here; only the ASCII
    letters are mapped, which is all that a comparison of the result with
    ['true'] can observe. *)
Fixpoint toLowerCase (s : string) : string :=
  match s with
  | EmptyString => EmptyString
  | String a s' => String (lower_ascii a) (toLowerCase s')
  end.

(** *** [Number::toString]

    The digits that the engine prints for a number are the fewest that
    read back as the same double.  Below [2^53] these are the digits of the
    integer; from there on doubles are more than 1 apart, fewer digits
    do, and zeros fill the rest; from [10^21] on the exponent is written
    out. *)

(** [v] rounds to the double [n]: it is nearer to [n] than to the doubles
    next to it, or half way and [n] has the even mantissa. *)
Definition rounds_to (n v : Z) : bool :=
  let ulp := 2 ^ (Z.log2 n - 52) in
  let m := n / ulp in
  let below := if Z.eqb m (2 ^ 52) then ulp / 2 else ulp in
  if Z.even m
  then Z.leb (2 * n - below) (2 * v) && Z.leb (2 * v) (2 * n + ulp)
  else Z.ltb (2 * n - below) (2 * v) && Z.ltb (2 * v) (2 * n + ulp).

(** The number with the fewest digits, [k] or more, that rounds to [n],
    the nearest to [n] if there are two; [d] is the number of digits of
    [n]. *)
Fixpoint shortest (fuel : nat) (k d n : Z) : Z :=
  match fuel with
  | O => n
  | S fuel' =>
      if Z.ltb d k then n
      else
        let p := 10 ^ (d - k) in
        let c1 := (n / p) * p in
        let c2 := c1 + p in
        match rounds_to n c1, rounds_to n c2 with
        | true, true =>
            if Z.ltb (n - c1) (c2 - n) then c1
            else if Z.ltb (c2 - n) (n - c1) then c2
            else if Z.even (n / p) then c1 else c2
        | true, false => c1
        | false, true => c2
        | false, false => shortest fuel' (k + 1) d n
        end
  end.

Fixpoint strip_zeros (s : string) : string :=
  match s with
  | EmptyString => EmptyString
  | String a s' =>
      match strip_zeros s' with
      | EmptyString => if Ascii.eqb a "0" then EmptyString else String a EmptyString
      | t => String a t
      end
  end.

Definition of_positive (n : Z) : string :=
  if Z.ltb n (2 ^ 53) then pretty n
  else
    let c := shortest 17 1 (Z.of_nat (String.length (pretty n))) n in
    let digits := pretty c in
    let d := Z.of_nat (String.length digits) in
    if Z.leb d 21 then digits
    else
      match strip_zeros digits with
      | String a EmptyString => String a ("e+" ++ pretty (d - 1))
      | String a rest => String a ("." ++ rest ++ "e+" ++ pretty (d - 1))
      | EmptyString => digits
      end.

Definition of_number (n : Z) : string :=
  if Z.ltb n 0 then "-" ++ of_positive (- n) else of_positive n.

(** [String(v)], as used by template literals. *)
Definition of_jsval (v : jsval) : string :=
  match v with
  | JUndefined => "undefined"
  | JNull => "null"
  | JBool true => "true"
  | JBool false => "false"
  | JNum n => of_number n
  | JStr s => s
  | JObject _ text _ => text
  end.

(** What [%s] of [util.format] prints: [String(v)] of a primitive, of a
    function and of an object with a [toString] of its own, and what
    [util.inspect] shows of any other object. *)
Definition format_s (v : jsval) : string :=
  match v with
  | JObject _ _ inspected => inspected
  | _ => of_jsval v
  end.

End JsString.

(** ** The helpers at the top of [lib/Api.js] *)

(** [_isTrue]: "check the value is true or 'true' or 'TRUE' or 1". *)
Definition _isTrue (value : jsval) : bool :=
  strict_eq value (JBool true)
  || match value with
     | JStr s => String.eqb (JsString.toLowerCase s) "true"
     | _ => false
     end
  || strict_eq value (JNum 1).

(** An object as a property read sees it: its own properties, and the
    properties that it inherits. *)
Record jsobject : Type := mkObject {
  own : jsobj;
  inherited : jsobj
}.

(** [o[name]]. *)
Definition read_property (o : jsobject) (name : string) : jsval :=
  match own o !! name with
  | Some v => v
  | None => get_field (inherited o) name
  end.

Definition builtin (name : string) : jsval :=
  JObject ("Object.prototype." ++ name)
    ("function " ++ name ++ "() { [native code] }")
    ("function " ++ name ++ "() { [native code] }").

(** What an object made by [{}] or by [JSON.parse] inherits from
    [Object.prototype]. *)
Definition Object_prototype : jsobj :=
  {[ "constructor" := JObject "Object" "function Object() { [native code] }"
                        "function Object() { [native code] }";
     "__proto__" := JObject "Object.prototype" "[object Object]"
                      "[object Object]";
     "hasOwnProperty" := builtin "hasOwnProperty";
     "isPrototypeOf" := builtin "isPrototypeOf";
     "propertyIsEnumerable" := builtin "propertyIsEnumerable";
     "toLocaleString" := builtin "toLocaleString";
     "toString" := builtin "toString";
     "valueOf" := builtin "valueOf";
     "__defineGetter__" := builtin "__defineGetter__";
     "__defineSetter__" := builtin "__defineSetter__";
     "__lookupGetter__" := builtin "__lookupGetter__";
     "__lookupSetter__" := builtin "__lookupSetter__" ]}.

(** The options of an install or uninstall call, of which this code reads
    [cli_variables] only: the argument may be [undefined] or [null]
    (as [removePlugin] passes on what it was given), and so may its
    [cli_variables] ([addPlugin] makes sure of [variables] only). *)
Inductive Options : Type :=
  | NoOptions
  | OptionsObject (cli_variables : option jsobject).

(** Options whose [cli_variables] is a plain object with the properties
    [variables]. *)
Definition mkOptions (variables : jsobj) : Options :=
  OptionsObject (Some (mkObject variables Object_prototype)).

Definition dollar : ascii := "$"%char.

(** [getVariableSpec (spec, options)]:
    [spec.includes('$') ? options.cli_variables[spec.replace('$', '')] : spec].
    A value that is not a string has no method [includes], and the call
    throws a [TypeError]; so does the read of a property of [undefined] or
    [null], which is evaluated when the string has a ['$']. *)
Definition getVariableSpec (spec : jsval) (options : Options) : outcome jsval :=
  match spec with
  | JStr s =>
      if JsString.includes dollar s then
        match options with
        | OptionsObject (Some variables) =>
            Returned (read_property variables (JsString.remove_first dollar s))
        | _ => Thrown TypeError
        end
      else Returned (JStr s)
  | _ => Thrown TypeError
  end.

Definition podSpecs_fields : list string :=
  ["spec"; "tag"; "git"; "commit"; "branch"].

(** The [forEach] of [replacePodSpecVariables] over the fields that passed
    the filter. *)
Fixpoint replace_fields (fields : list string) (pod : jsobj) (options : Options)
  : outcome jsobj :=
  match fields with
  | [] => Returned pod
  | obj :: rest =>
      let value := get_field pod obj in
      match getVariableSpec value options with
      | Returned v => replace_fields rest (<[obj := v]> pod) options
      | Thrown e => Thrown e
      end
  end.

(** [replacePodSpecVariables (pod, options)]: the fields of [podSpecs] whose
    value is truthy are selected first, then each is overwritten. *)
Definition replacePodSpecVariables (pod : jsobj) (options : Options) : outcome jsobj :=
  replace_fields
    (filter (λ e, truthy (get_field pod e) = true) podSpecs_fields) pod options.

(** ** Objects enumerated with [Object.keys] *)

(** An object whose keys are enumerated: the pairs are listed in the order
    of [Object.keys], each key once. *)
Definition obj_keys {V : Type} (o : list (string * V)) : list string := o.*1.

Fixpoint obj_get {V : Type} (o : list (string * V)) (key : string) : option V :=
  match o with
  | [] => None
  | (k, v) :: rest => if String.eqb k key then Some v else obj_get rest key
  end.

(** One element of [podSpecs], the value of [plugin.getPodSpecs (platform)].
    A section that is missing ([undefined] or [null]) is [None]: it is
    falsy, and [Object.keys] throws a [TypeError] on it. *)
Record PodSpec : Type := mkPodSpec {
  declarations : option (list (string * jsval));
  sources : option (list (string * jsobj));
  libraries : option (list (string * jsobj))
}.

(** ** [pods.json]: the ledger of reference counts *)

Inductive kind : Type := Declarations | Sources | Libraries.

#[global] Instance kind_eq_dec : EqDecision kind.
Proof. solve_decision. Defined.

(** A reference to an entry object.  JavaScript hands objects around by
    reference: the value returned by a getter of the ledger is the stored
    object itself, and a later update of the count is visible through it.
    Entries read from the file are named by their place in it, entries
    created during the call by a counter. *)
Inductive loc : Type :=
  | Loaded (k : kind) (key : string)
  | Fresh (n : nat).

#[global] Instance loc_eq_dec : EqDecision loc.
Proof. solve_decision. Defined.

Module PodsJson.

(** Modelled from the spec: [lib/PodsJson.js] is not among the sources.
    "Ledger file: JSON object with three top-level mappings
    ([declarations], [sources], [libraries]), each key ->
    [{payload fields..., count: integer >= 0}]." *)
Record file : Type := mkFile {
  f_declarations : gmap string jsobj;
  f_sources : gmap string jsobj;
  f_libraries : gmap string jsobj
}.

Definition section (k : kind) (f : file) : gmap string jsobj :=
  match k with
  | Declarations => f_declarations f
  | Sources => f_sources f
  | Libraries => f_libraries f
  end.

Definition empty_file : file := mkFile ∅ ∅ ∅.

(** Modelled from the spec: the ledger in memory, "one entry per distinct
    [(kind, key)]": per kind the entries by key, and the store the entry
    objects live in. *)
Record t : Type := mkT {
  c_declarations : gmap string loc;
  c_sources : gmap string loc;
  c_libraries : gmap string loc;
  heap : loc → jsobj;
  next : nat
}.

Definition contents (k : kind) (L : t) : gmap string loc :=
  match k with
  | Declarations => c_declarations L
  | Sources => c_sources L
  | Libraries => c_libraries L
  end.

Definition with_contents (k : kind) (m : gmap string loc) (L : t) : t :=
  match k with
  | Declarations => mkT m (c_sources L) (c_libraries L) (heap L) (next L)
  | Sources => mkT (c_declarations L) m (c_libraries L) (heap L) (next L)
  | Libraries => mkT (c_declarations L) (c_sources L) m (heap L) (next L)
  end.

Definition store (l : loc) (o : jsobj) (L : t) : t :=
  mkT (c_declarations L) (c_sources L) (c_libraries L)
      (λ l', if decide (l' = l) then o else heap L l') (next L).

(** Modelled from the spec: [referenceCount += 1] and
    [referenceCount -= 1] update the count of an entry in place; an entry
    whose [count] is not a number is outside the file format and is left
    alone. *)
Definition update_count (f : Z → Z) (o : jsobj) : jsobj :=
  match get_field o "count" with
  | JNum c => <["count" := JNum (f c)]> o
  | _ => o
  end.

(** Modelled from the spec: "Ledger and Manifest are loaded from persisted
    state at the start of every add/remove operation." *)
Definition load (f : file) : t :=
  mkT (map_imap (λ key _, Some (Loaded Declarations key)) (f_declarations f))
      (map_imap (λ key _, Some (Loaded Sources key)) (f_sources f))
      (map_imap (λ key _, Some (Loaded Libraries key)) (f_libraries f))
      (λ l, match l with
            | Loaded k key => default ∅ (section k f !! key)
            | Fresh _ => ∅
            end)
      0.

(** Modelled from the spec: "[get(key) -> LedgerEntry | not-found]".  The
    entry is returned as the object it is, that is by reference. *)
Definition get (k : kind) (key : string) (L : t) : option loc :=
  contents k L !! key.

(** Modelled from the spec: "[increment(key)]: if entry exists,
    [referenceCount += 1]; else fails -- callers must create the entry
    first via [setEntry]". *)
Definition increment (k : kind) (key : string) (L : t) : outcome t :=
  match get k key L with
  | Some l => Returned (store l (update_count Z.succ (heap L l)) L)
  | None => Thrown (CordovaError "no such entry in pods.json")
  end.

(** Modelled from the spec: "[decrement(key)]: if entry exists,
    [referenceCount -= 1], floored at 0 (never negative); if absent, this
    is a no-op".  An entry whose count has reached 0 "may remain in the
    Ledger as a tombstone with payload retained for audit, or be deleted":
    [drop_at_zero] is that policy. *)
Definition decrement (drop_at_zero : bool) (k : kind) (key : string) (L : t) : t :=
  match get k key L with
  | Some l =>
      let o := update_count (λ c, Z.max 0 (c - 1)) (heap L l) in
      let L' := store l o L in
      if drop_at_zero && strict_eq (get_field o "count") (JNum 0)
      then with_contents k (delete key (contents k L')) L'
      else L'
  | None => L
  end.

(** Modelled from the spec: "[setEntry(key, payload)]: creates a new entry
    with [referenceCount = 1]". *)
Definition setJson (k : kind) (key : string) (json : jsobj) (L : t) : t :=
  let l := Fresh (next L) in
  let L' := store l (<["count" := JNum 1]> json) L in
  let L'' := with_contents k (<[key := l]> (contents k L')) L' in
  mkT (c_declarations L'') (c_sources L'') (c_libraries L'') (heap L'') (S (next L)).

(** Modelled from the spec: "[write()]: serializes the full ledger to
    persistent storage, overwriting prior content". *)
Definition serialize (L : t) : file :=
  mkFile (heap L <$> c_declarations L) (heap L <$> c_sources L)
         (heap L <$> c_libraries L).

End PodsJson.

(** ** [Podfile]: the manifest *)

Module Podfile.

(** Modelled from the spec: [lib/Podfile.js] is not among the sources.
    "Ordered collections: declarations (strings), sources (URLs), library
    specs (name + version pin)." *)
Record manifest : Type := mkManifest {
  m_declarations : list jsval;
  m_sources : list jsval;
  m_pods : list (string * jsobj)
}.

#[global] Instance manifest_eq_dec : EqDecision manifest.
Proof. solve_decision. Defined.

Definition empty_manifest : manifest := mkManifest [] [] [].

(** Modelled from the spec: the manifest in memory, with the content it
    was loaded with, for "[isDirty]: true iff in-memory content differs
    from last-persisted content". *)
Record t : Type := mkT {
  loaded : manifest;
  current : manifest
}.

(** Modelled from the spec: "Ledger and Manifest are loaded from persisted
    state at the start of every add/remove operation." *)
Definition load (m : manifest) : t := mkT m m.

(** Modelled from the spec: "appends/updates" for a collection of lines:
    a line that is there already stays where it is. *)
Definition put {A : Type} `{EqDecision A} (x : A) (l : list A) : list A :=
  if decide (x ∈ l) then l else l ++ [x].

(** Modelled from the spec: "appends/updates" for the library specs, by
    name. *)
Fixpoint put_pod (name : string) (spec : jsobj) (l : list (string * jsobj))
  : list (string * jsobj) :=
  match l with
  | [] => [(name, spec)]
  | (n, s) :: rest =>
      if String.eqb n name then (n, spec) :: rest else (n, s) :: put_pod name spec rest
  end.

(** Modelled from the spec: "[addDeclaration(text)], [addSource(url)],
    [addLibrarySpec(name, payload)]: each appends/updates the in-memory
    representation". *)
Definition addDeclaration (declaration : jsval) (P : t) : t :=
  mkT (loaded P)
      (mkManifest (put declaration (m_declarations (current P)))
                  (m_sources (current P)) (m_pods (current P))).

(** Modelled from the spec: [addSource(url)], as [addDeclaration]. *)
Definition addSource (src : jsval) (P : t) : t :=
  mkT (loaded P)
      (mkManifest (m_declarations (current P))
                  (put src (m_sources (current P))) (m_pods (current P))).

(** Modelled from the spec: [addLibrarySpec(name, payload)]; a library
    spec without its required name is a "configuration error: malformed
    dependency spec (missing required library name) -- fatal". *)
Definition addSpec (name : jsval) (spec : jsobj) (P : t) : outcome t :=
  match name with
  | JStr (String a n) =>
      Returned
        (mkT (loaded P)
             (mkManifest (m_declarations (current P)) (m_sources (current P))
                         (put_pod (String a n) spec (m_pods (current P)))))
  | _ => Thrown (CordovaError "name is not specified")
  end.

(** Modelled from the spec: "[removeDeclaration/removeSource/
    removeLibrarySpec(key-or-name)]: removes the corresponding entry if
    present". *)
Definition removeDeclaration (declaration : jsval) (P : t) : t :=
  mkT (loaded P)
      (mkManifest (filter (λ d, d ≠ declaration) (m_declarations (current P)))
                  (m_sources (current P)) (m_pods (current P))).

(** Modelled from the spec: [removeSource], as [removeDeclaration]. *)
Definition removeSource (src : jsval) (P : t) : t :=
  mkT (loaded P)
      (mkManifest (m_declarations (current P))
                  (filter (λ d, d ≠ src) (m_sources (current P)))
                  (m_pods (current P))).

(** Modelled from the spec: [removeLibrarySpec], by name. *)
Definition removeSpec (name : jsval) (P : t) : t :=
  mkT (loaded P)
      (mkManifest (m_declarations (current P)) (m_sources (current P))
                  (filter (λ p, JStr p.1 ≠ name) (m_pods (current P)))).

(** Modelled from the spec: "[isDirty() -> bool]: true iff in-memory
    content differs from last-persisted content". *)
Definition isDirty (P : t) : bool := bool_decide (current P ≠ loaded P).

End Podfile.

(** ** The event channel and the world *)

Inductive level : Type := verbose | warn.

#[global] Instance level_eq_dec : EqDecision level.
Proof. solve_decision. Defined.

(** [events.emit (level, message)]. *)
Record event : Type := Emit { ev_level : level; ev_message : string }.

#[global] Instance event_eq_dec : EqDecision event.
Proof. solve_decision. Defined.

(** What a call does to the outside, in the order it does it. *)
Inductive effect : Type :=
  | Event (e : event)
  | WritePodsJson
  | WritePodfile
  | PurgeProjectFileCache
  | PodInstall.

#[global] Instance effect_eq_dec : EqDecision effect.
Proof. solve_decision. Defined.

Record World : Type := mkWorld {
  pods_json : PodsJson.file;
  podfile : Podfile.manifest;
  trace : list effect
}.

(** The objects a call works on between loading and writing. *)
Record Session : Type := mkSession {
  podsjsonFile : PodsJson.t;
  podfileFile : Podfile.t;
  emitted : list event
}.

(** Code that reads and updates the session and may throw; what was done
    before a throw stays done. *)
Definition Eng (A : Type) : Type := Session → outcome A * Session.

#[global] Instance Eng_ret : MRet Eng := λ A a s, (Returned a, s).

#[global] Instance Eng_bind : MBind Eng := λ A B k m s,
  match m s with
  | (Returned a, s') => k a s'
  | (Thrown e, s') => (Thrown e, s')
  end.

Definition run {A : Type} (m : Eng A) (s : Session) : outcome A * Session := m s.

Definition lift {A : Type} (o : outcome A) : Eng A := λ s, (o, s).

Definition emit (lv : level) (message : string) : Eng unit := λ s,
  (Returned tt,
   mkSession (podsjsonFile s) (podfileFile s) (emitted s ++ [Emit lv message])%list).

Definition with_ledger (f : PodsJson.t → PodsJson.t) : Eng unit := λ s,
  (Returned tt, mkSession (f (podsjsonFile s)) (podfileFile s) (emitted s)).

Definition with_podfile (f : Podfile.t → Podfile.t) : Eng unit := λ s,
  (Returned tt, mkSession (podsjsonFile s) (f (podfileFile s)) (emitted s)).

Definition getEntry (k : kind) (key : string) : Eng (option loc) := λ s,
  (Returned (PodsJson.get k key (podsjsonFile s)), s).

(** [val.f] for an entry [val] obtained from the ledger: read through the
    reference, at the time of the read. *)
Definition read (val : loc) (f : string) : Eng jsval := λ s,
  (Returned (get_field (PodsJson.heap (podsjsonFile s) val) f), s).

Definition incrementEntry (k : kind) (key : string) : Eng unit := λ s,
  match PodsJson.increment k key (podsjsonFile s) with
  | Returned L => (Returned tt, mkSession L (podfileFile s) (emitted s))
  | Thrown e => (Thrown e, s)
  end.

Definition addSpec (name : jsval) (spec : jsobj) : Eng unit := λ s,
  match Podfile.addSpec name spec (podfileFile s) with
  | Returned P => (Returned tt, mkSession (podsjsonFile s) P (emitted s))
  | Thrown e => (Thrown e, s)
  end.

(** [list.forEach (f)]. *)
Fixpoint forEach {A : Type} (l : list A) (f : A → Eng unit) : Eng unit :=
  match l with
  | [] => mret tt
  | x :: rest => f x;; forEach rest f
  end.

(** [Object.keys (o).forEach (f)]: a [TypeError] when [o] is missing. *)
Definition forEachKey {V : Type} (o : option (list (string * V)))
    (f : list (string * V) → string → Eng unit) : Eng unit :=
  match o with
  | Some o => forEach (obj_keys o) (f o)
  | None => lift (Thrown TypeError)
  end.

Definition dq : string := String (ascii_of_nat 34) EmptyString.

(** The warning of [addPodSpecs] for a library that is already in
    [pods.json]. *)
Definition conflict_message (plugin_id : string) (name spec : jsval) : string :=
  plugin_id ++ " depends on " ++ JsString.of_jsval name
  ++ ", which may conflict with another plugin. "
  ++ JsString.of_jsval name ++ "@" ++ JsString.of_jsval spec
  ++ " is already installed and was not overwritten.".

(** The message of [removePodSpecs] for a unit that is not in [pods.json];
    [what] is one of [declaration], [source], [podspec]. *)
Definition missing_message (plugin_id : string) (what : string) (v : jsval) : string :=
  "plugin " ++ dq ++ plugin_id ++ dq ++ " " ++ what ++ " " ++ dq
  ++ JsString.format_s v ++ dq
  ++ " does not seem to be in pods.json, nothing to remove. Will attempt to remove from Podfile.".

(** ** [addPodSpecs] and [removePodSpecs] *)

Section Engine.

(** What [lib/Api.js] takes from modules that are not among the sources:
    the plugin object, of which only [plugin.id] is read;
    [isSwiftPackagePlugin] of [lib/SwiftPackage.js]; the static
    [Podfile.proofDeclaration]; and the policy of the ledger for an entry
    whose count has reached 0. *)
Context {PluginInfo : Type}.
Variable plugin_id : PluginInfo → string.
Variable isSwiftPackagePlugin : PluginInfo → bool.
Variable proofDeclaration : string → string.
Variable drop_at_zero : bool.

(** The test of both library loops:
    [!isSPM || (isSPM && !_isTrue (podJson.nospm))]. *)
Definition wants_pod (isSPM : bool) (podJson : jsobj) : bool :=
  negb isSPM || (isSPM && negb (_isTrue (get_field podJson "nospm"))).

(** *** Install *)

(** The body of the loop over [Object.keys (obj.declarations)]. *)
Definition add_declaration (obj_declarations : list (string * jsval)) (key : string)
  : Eng unit :=
  if strict_eq (default JUndefined (obj_get obj_declarations key)) (JStr "true") then
    let declaration := proofDeclaration key in
    let podJson : jsobj := {[ "declaration" := JStr declaration ]} in
    val ← getEntry Declarations declaration;
    match val with
    | Some _ => incrementEntry Declarations declaration
    | None =>
        let podJson := <["count" := JNum 1]> podJson in
        with_ledger (PodsJson.setJson Declarations declaration podJson);;
        with_podfile (Podfile.addDeclaration (get_field podJson "declaration"))
    end
  else mret tt.

(** The body of the loop over [Object.keys (obj.sources)]. *)
Definition add_source (obj_sources : list (string * jsobj)) (key : string)
  : Eng unit :=
  let podJson : jsobj :=
    {[ "source" := get_field (default ∅ (obj_get obj_sources key)) "source" ]} in
  val ← getEntry Sources key;
  match val with
  | Some _ => incrementEntry Sources key
  | None =>
      let podJson := <["count" := JNum 1]> podJson in
      with_ledger (PodsJson.setJson Sources key podJson);;
      with_podfile (Podfile.addSource (get_field podJson "source"))
  end.

(** What is done with a library that passed the test. *)
Definition add_library_body (plugin : PluginInfo) (installOptions : Options)
    (podJson : jsobj) (key : string) : Eng unit :=
  podJson ← lift (replacePodSpecVariables podJson installOptions);
  val ← getEntry Libraries key;
  match val with
  | Some val =>
      spec ← read val "spec";
      emit warn (conflict_message (plugin_id plugin) (get_field podJson "name") spec);;
      incrementEntry Libraries key
  | None =>
      let podJson := <["count" := JNum 1]> podJson in
      with_ledger (PodsJson.setJson Libraries key podJson);;
      addSpec (get_field podJson "name") podJson
  end.

(** The body of the loop over [Object.keys (obj.libraries)]. *)
Definition add_library (plugin : PluginInfo) (installOptions : Options) (isSPM : bool)
    (obj_libraries : list (string * jsobj)) (key : string) : Eng unit :=
  let podJson : jsobj := default ∅ (obj_get obj_libraries key) in
  if wants_pod isSPM podJson
  then add_library_body plugin installOptions podJson key
  else mret tt.

(** The body of [podSpecs.forEach] in [addPodSpecs]: each section is
    guarded. *)
Definition add_podSpec (plugin : PluginInfo) (installOptions : Options) (obj : PodSpec)
  : Eng unit :=
  (if declarations obj is Some _
   then forEachKey (declarations obj) add_declaration else mret tt);;
  (if sources obj is Some _
   then forEachKey (sources obj) add_source else mret tt);;
  (if libraries obj is Some _
   then
     let isSPM := isSwiftPackagePlugin plugin in
     forEachKey (libraries obj) (add_library plugin installOptions isSPM)
   else mret tt).

(** *** Uninstall *)

(** [!val || val.count === 0], evaluated after the ledger was updated. *)
Definition gone (val : option loc) : Eng bool :=
  match val with
  | None => mret true
  | Some val => count ← read val "count"; mret (strict_eq count (JNum 0))
  end.

Definition remove_declaration (plugin : PluginInfo)
    (obj_declarations : list (string * jsval)) (key : string) : Eng unit :=
  if strict_eq (default JUndefined (obj_get obj_declarations key)) (JStr "true") then
    let declaration := proofDeclaration key in
    let podJson : jsobj := {[ "declaration" := JStr declaration ]} in
    val ← getEntry Declarations declaration;
    (if val is Some _
     then with_ledger (PodsJson.decrement drop_at_zero Declarations declaration)
     else emit verbose (missing_message (plugin_id plugin) "declaration"
                          (get_field podJson "declaration")));;
    g ← gone val;
    if (g : bool) then with_podfile (Podfile.removeDeclaration (get_field podJson "declaration"))
    else mret tt
  else mret tt.

Definition remove_source (plugin : PluginInfo)
    (obj_sources : list (string * jsobj)) (key : string) : Eng unit :=
  let podJson : jsobj :=
    {[ "source" := get_field (default ∅ (obj_get obj_sources key)) "source" ]} in
  val ← getEntry Sources key;
  (if val is Some _
   then with_ledger (PodsJson.decrement drop_at_zero Sources key)
   else emit verbose (missing_message (plugin_id plugin) "source"
                        (get_field podJson "source")));;
  g ← gone val;
  if (g : bool) then with_podfile (Podfile.removeSource (get_field podJson "source"))
  else mret tt.

Definition remove_library_body (plugin : PluginInfo) (uninstallOptions : Options)
    (podJson : jsobj) (key : string) : Eng unit :=
  podJson ← lift (replacePodSpecVariables podJson uninstallOptions);
  val ← getEntry Libraries key;
  (if val is Some _
   then with_ledger (PodsJson.decrement drop_at_zero Libraries key)
   else emit verbose (missing_message (plugin_id plugin) "podspec"
                        (get_field podJson "name")));;
  g ← gone val;
  if (g : bool) then with_podfile (Podfile.removeSpec (get_field podJson "name"))
  else mret tt.

Definition remove_library (plugin : PluginInfo) (uninstallOptions : Options)
    (isSPM : bool) (obj_libraries : list (string * jsobj)) (key : string) : Eng unit :=
  let podJson : jsobj := default ∅ (obj_get obj_libraries key) in
  if wants_pod isSPM podJson
  then remove_library_body plugin uninstallOptions podJson key
  else mret tt.

(** The body of [podSpecs.forEach] in [removePodSpecs]: no section is
    guarded. *)
Definition remove_podSpec (plugin : PluginInfo) (uninstallOptions : Options)
    (obj : PodSpec) : Eng unit :=
  forEachKey (declarations obj) (remove_declaration plugin);;
  forEachKey (sources obj) (remove_source plugin);;
  let isSPM := isSwiftPackagePlugin plugin in
  forEachKey (libraries obj) (remove_library plugin uninstallOptions isSPM).

(** *** The two calls *)

Definition open_session (w : World) : Session :=
  mkSession (PodsJson.load (pods_json w)) (Podfile.load (podfile w)) [].

(** The end of both calls: [podsjsonFile.write ()], then the [Podfile] and
    [pod install] when the [Podfile] is dirty.  [purge] tells the two calls
    apart: only [addPodSpecs] purges the project file cache.  [PodInstall]
    is the call of [podfileFile.install (check_reqs.check_cocoapods)]; what
    the promise it returns does once [pod install] is over is not part of
    the call. *)
Definition finish (purge : bool) (running : string) (w : World) (s : Session) : World :=
  let tr := (trace w ++ (Event <$> emitted s) ++ [WritePodsJson])%list in
  let pj := PodsJson.serialize (podsjsonFile s) in
  if Podfile.isDirty (podfileFile s) then
    mkWorld pj (Podfile.current (podfileFile s))
      (tr ++ [WritePodfile; Event (Emit verbose running)]
          ++ (if purge then [PurgeProjectFileCache] else [])
          ++ [PodInstall])%list
  else
    mkWorld pj (podfile w)
      (tr ++ [Event (Emit verbose "Podfile unchanged, skipping `pod install`")])%list.

(** A throw leaves through the call: the files are as they were, the
    events emitted so far were emitted. *)
Definition abort (w : World) (s : Session) : World :=
  mkWorld (pods_json w) (podfile w) (trace w ++ (Event <$> emitted s))%list.

(** The part of [addPodSpecs] between loading and writing. *)
Definition add_all (plugin : PluginInfo) (podSpecs : list PodSpec)
    (installOptions : Options) : Eng unit :=
  emit verbose "Adding pods since the plugin contained <podspecs>";;
  forEach podSpecs (add_podSpec plugin installOptions).

Definition addPodSpecs (plugin : PluginInfo) (podSpecs : list PodSpec)
    (installOptions : Options) (w : World) : outcome unit * World :=
  match podSpecs with
  | [] => (Returned tt, w)
  | _ =>
      match run (add_all plugin podSpecs installOptions) (open_session w) with
      | (Returned _, s) =>
          (Returned tt, finish true "Running `pod install` (to install plugins)" w s)
      | (Thrown e, s) => (Thrown e, abort w s)
      end
  end.

(** The part of [removePodSpecs] between loading and writing. *)
Definition remove_all (plugin : PluginInfo) (podSpecs : list PodSpec)
    (uninstallOptions : Options) : Eng unit :=
  emit verbose "Adding pods since the plugin contained <podspecs>";;
  forEach podSpecs (remove_podSpec plugin uninstallOptions).

Definition removePodSpecs (plugin : PluginInfo) (podSpecs : list PodSpec)
    (uninstallOptions : Options) (w : World) : outcome unit * World :=
  match podSpecs with
  | [] => (Returned tt, w)
  | _ =>
      match run (remove_all plugin podSpecs uninstallOptions) (open_session w) with
      | (Returned _, s) =>
          (Returned tt, finish false "Running `pod install` (to uninstall pods)" w s)
      | (Thrown e, s) => (Thrown e, abort w s)
      end
  end.

End Engine.

(** ** Data of the examples *)

Definition demo_options : Options :=
  mkOptions {[ "AFN_VERSION" := JStr "~> 4.0" ]}.

Definition demo_pod : jsobj :=
  {[ "name" := JStr "$AFN_VERSION"; "spec" := JStr "$AFN_VERSION";
     "branch" := JStr "$MISSING"; "tag" := JStr "" ]}.

(** ** Vocabulary of the statements *)

(** A value that [getVariableSpec] returns for: a string, and one without
    a ['$'] unless [options.cli_variables] is there to be read. *)
Definition pin_resolves (options : Options) (v : jsval) : Prop :=
  ∃ str, v = JStr str
         ∧ (JsString.includes dollar str = true →
            ∃ variables, options = OptionsObject (Some variables)).

(** Between [L] and [L'] nothing changed but the count of the entry at
    [l], which went through [f]. *)
Definition recounted (f : Z → Z) (l : loc) (L L' : PodsJson.t) : Prop :=
  (∀ k, PodsJson.contents k L' = PodsJson.contents k L) ∧
  PodsJson.heap L' l = PodsJson.update_count f (PodsJson.heap L l) ∧
  (∀ l', l' ≠ l → PodsJson.heap L' l' = PodsJson.heap L l').

(** [L'] is [L] with a new entry under [key], made of the payload [json] and
    a count of 1; every other key is as it was. *)
Definition registered (k : kind) (key : string) (json : jsobj)
    (L L' : PodsJson.t) : Prop :=
  (∃ l, PodsJson.get k key L' = Some l
        ∧ PodsJson.heap L' l = <["count" := JNum 1]> json
        ∧ get_field (PodsJson.heap L' l) "count" = JNum 1) ∧
  (∀ k' key', (k', key') ≠ (k, key) →
              PodsJson.get k' key' L' = PodsJson.get k' key' L).

(** The count of an entry after one uninstall. *)
Definition count_down (c : Z) : Z := Z.max 0 (c - 1).

(** The ledger after the count of the entry at [l] went up by one. *)
Definition count_up (l : loc) (L : PodsJson.t) : PodsJson.t :=
  PodsJson.store l (PodsJson.update_count Z.succ (PodsJson.heap L l)) L.

(** A plugin is its id and whether it is a Swift package; declarations are
    taken as they are. *)
Definition demo_id (p : string * bool) : string := p.1.
Definition demo_isSwiftPackagePlugin (p : string * bool) : bool := p.2.
Definition demo_proofDeclaration (d : string) : string := d.

Definition plugin_A : string * bool := ("plugin-a", false).
Definition plugin_B : string * bool := ("plugin-b", false).
Definition plugin_S : string * bool := ("plugin-s", true).

Definition no_variables : Options := mkOptions ∅.

Definition afnetworking : jsobj :=
  {[ "name" := JStr "AFNetworking"; "spec" := JStr "~> 4.0" ]}.

Definition afnetworking_nospm : jsobj :=
  {[ "name" := JStr "AFNetworking"; "spec" := JStr "~> 4.0";
     "nospm" := JStr "TRUE" ]}.

Definition demo_declarations : list (string * jsval) :=
  [("use_frameworks!", JStr "true"); ("inhibit_all_warnings!", JStr "TRUE");
   ("use_modular_headers!", JBool true)].

Definition demo_sources : list (string * jsobj) :=
  [("cdn", {[ "source" := JStr "https://cdn.cocoapods.org/" ]})].

Definition demo_podSpec : PodSpec :=
  mkPodSpec (Some demo_declarations) (Some demo_sources)
            (Some [("AFNetworking", afnetworking)]).

(** A project in which another plugin has registered [AFNetworking] and
    [use_frameworks!]. *)
Definition demo_world : World :=
  mkWorld
    (PodsJson.mkFile
       {[ "use_frameworks!" :=
            {[ "declaration" := JStr "use_frameworks!"; "count" := JNum 1 ]} ]}
       ∅
       {[ "AFNetworking" := <["count" := JNum 1]> afnetworking ]})
    (Podfile.mkManifest [JStr "use_frameworks!"] []
       [("AFNetworking", <["count" := JNum 1]> afnetworking)])
    [].

Definition empty_world : World :=
  mkWorld PodsJson.empty_file Podfile.empty_manifest [].

Definition demo_session : Session := open_session demo_world.

Definition demo_libraries : list (string * jsobj) := [("AFNetworking", afnetworking)].

Definition demo_libraries_nospm : list (string * jsobj) :=
  [("AFNetworking", afnetworking_nospm)].

(** ** Vocabulary of the statements about whole calls *)

(** A pod spec with every missing section replaced by an empty one. *)
Definition guarded (obj : PodSpec) : PodSpec :=
  mkPodSpec (Some (default [] (declarations obj)))
            (Some (default [] (sources obj)))
            (Some (default [] (libraries obj))).

(** The effects of a call: what [w'] has after what [w] had. *)
Definition added (w w' : World) : list effect :=
  drop (List.length (trace w)) (trace w').

(** The effects that are not events: the writes and the external runs. *)
Definition is_event (e : effect) : bool :=
  match e with
  | Event _ => true
  | _ => false
  end.

Definition actions (tr : list effect) : list effect :=
  filter (λ e, is_event e = false) tr.

(** The ledger has an entry for a kind and key. *)
Definition has (L : PodsJson.t) (kk : kind * string) : Prop :=
  is_Some (PodsJson.get kk.1 kk.2 L).

(** The count of the entry of each of [K] goes up by one, in turn. *)
Definition bump (L : PodsJson.t) (kk : kind * string) : PodsJson.t :=
  match PodsJson.get kk.1 kk.2 L with
  | Some l => count_up l L
  | None => L
  end.

Definition bump_all (K : list (kind * string)) (L : PodsJson.t) : PodsJson.t :=
  foldl bump L K.

(** The line of an entry of the ledger is in the manifest. *)
Definition listed (m : Podfile.manifest) (k : kind) (key : string) (e : jsobj) : Prop :=
  match k with
  | Declarations => JStr key ∈ Podfile.m_declarations m
  | Sources => get_field e "source" ∈ Podfile.m_sources m
  | Libraries =>
      match get_field e "name" with
      | JStr n => n ∈ (Podfile.m_pods m).*1
      | _ => False
      end
  end.

#[global] Instance listed_dec m k key e : Decision (listed m k key e).
Proof.
  destruct k; simpl; try apply _.
  destruct (get_field e "name"); apply _.
Defined.

(** Every entry of [pods.json] has its line in the [Podfile]. *)
Definition consistent (f : PodsJson.file) (m : Podfile.manifest) : Prop :=
  ∀ k, map_Forall (λ key e, listed m k key e) (PodsJson.section k f).

(** The same of the session, together with what keeps the references of
    the ledger apart: no entry sits where the next one will be created. *)
Definition consistent_session (s : Session) : Prop :=
  (∀ k key n, PodsJson.get k key (podsjsonFile s) = Some (Fresh n) →
              (n < PodsJson.next (podsjsonFile s))%nat)
  ∧ ∀ k key l, PodsJson.get k key (podsjsonFile s) = Some l →
               listed (Podfile.current (podfileFile s)) k key
                      (PodsJson.heap (podsjsonFile s) l).

(** What entering a unit into the [Podfile] makes of it. *)
Definition enters (k : kind) (key : string) (json : jsobj) (P P' : Podfile.t) : Prop :=
  match k with
  | Declarations => P' = Podfile.addDeclaration (JStr key) P
  | Sources => P' = Podfile.addSource (get_field json "source") P
  | Libraries =>
      Podfile.addSpec (get_field json "name") (<["count" := JNum 1]> json) P
      = Returned P'
  end.

(** What a loop body of install that returns has done: nothing; or counted
    an entry up, perhaps with a warning; or created an entry and entered
    the unit into the [Podfile]. *)
Inductive install_step (s : Session) : Session → Prop :=
  | install_skip : install_step s s
  | install_count k key l evs :
      PodsJson.get k key (podsjsonFile s) = Some l →
      install_step s
        (mkSession (count_up l (podsjsonFile s)) (podfileFile s)
                   (emitted s ++ evs)%list)
  | install_register k key json P' :
      PodsJson.get k key (podsjsonFile s) = None →
      enters k key json (podfileFile s) P' →
      install_step s
        (mkSession
           (PodsJson.setJson k key (<["count" := JNum 1]> json) (podsjsonFile s))
           P' (emitted s)).

(** The variables of a library that passes the test resolve. *)
Definition resolves (options : Options) (isSPM : bool)
    (libs : list (string * jsobj)) (key : string) : Prop :=
  wants_pod isSPM (default ∅ (obj_get libs key)) = true →
  ∃ podJson,
    replacePodSpecVariables (default ∅ (obj_get libs key)) options = Returned podJson.

Section Touched.

Context {PluginInfo : Type}.
Variable isSwiftPackagePlugin : PluginInfo → bool.
Variable proofDeclaration : string → string.

(** The kinds and keys of the units that a call acts on, in the order it
    acts on them. *)
Definition touched_declaration (decls : list (string * jsval)) (key : string)
  : list (kind * string) :=
  if strict_eq (default JUndefined (obj_get decls key)) (JStr "true")
  then [(Declarations, proofDeclaration key)] else [].

Definition touched_source (key : string) : list (kind * string) := [(Sources, key)].

Definition touched_library (isSPM : bool) (libs : list (string * jsobj)) (key : string)
  : list (kind * string) :=
  if wants_pod isSPM (default ∅ (obj_get libs key))
  then [(Libraries, key)] else [].

Definition touched_podSpec (plugin : PluginInfo) (obj : PodSpec) : list (kind * string) :=
  ((let decls := default [] (declarations obj) in
    flat_map (touched_declaration decls) (obj_keys decls))
   ++ flat_map touched_source (obj_keys (default [] (sources obj)))
   ++ (let libs := default [] (libraries obj) in
       flat_map (touched_library (isSwiftPackagePlugin plugin) libs) (obj_keys libs)))%list.

Definition touched (plugin : PluginInfo) (podSpecs : list PodSpec) : list (kind * string) :=
  flat_map (touched_podSpec plugin) podSpecs.

(** The variables of every library of a pod spec that passes the test
    resolve. *)
Definition resolvable (plugin : PluginInfo) (options : Options) (obj : PodSpec) : Prop :=
  let libs := default [] (libraries obj) in
  Forall (resolves options (isSwiftPackagePlugin plugin) libs) (obj_keys libs).

End Touched.

(** What a stretch of install that returns has done, [K] being the units
    it acted on: entries stay, the units of [K] have one, the [Podfile]
    remembers what it was loaded with, and entries keep their lines. *)
Definition installs (K : list (kind * string)) (s s' : Session) : Prop :=
  (∀ kk, has (podsjsonFile s) kk → has (podsjsonFile s') kk)
  ∧ Forall (has (podsjsonFile s')) K
  ∧ Podfile.loaded (podfileFile s') = Podfile.loaded (podfileFile s)
  ∧ (consistent_session s → consistent_session s').


(** How many times [kk] is among [K]. *)
Definition occurrences (kk : kind * string) (K : list (kind * string)) : Z :=
  Z.of_nat (List.length (filter (λ x, x = kk) K)).

(** Code that, run where the ledger has an entry for each of [K], returns
    and has only counted these entries up and perhaps emitted events. *)
Definition quiet (K : list (kind * string)) (m : Eng unit) : Prop :=
  ∀ s, Forall (has (podsjsonFile s)) K →
       ∃ evs, run m s
              = (Returned tt,
                 mkSession (bump_all K (podsjsonFile s)) (podfileFile s)
                           (emitted s ++ evs)%list).

(** Every entry of the ledger is the one that was read from the file under
    its kind and key. *)
Definition as_loaded (L : PodsJson.t) : Prop :=
  ∀ k key l, PodsJson.get k key L = Some l → l = Loaded k key.

(** ** More data of the examples *)

Definition podSpec_without_declarations : PodSpec :=
  mkPodSpec None (Some demo_sources) (Some demo_libraries).

(** The session of plugin A installing [demo_podSpec] into an empty
    project, after all units, and the project after the call. *)
Definition session_A : Session :=
  (run (add_all demo_id demo_isSwiftPackagePlugin demo_proofDeclaration plugin_A
          [demo_podSpec] no_variables) (open_session empty_world)).2.

Definition world_A : World :=
  (addPodSpecs demo_id demo_isSwiftPackagePlugin demo_proofDeclaration plugin_A
     [demo_podSpec] no_variables empty_world).2.

(** ** Vocabulary of further statements about the two calls *)

(** No entry sits where the next one will be created. *)
Definition fresh_above (L : PodsJson.t) : Prop :=
  ∀ k key n, PodsJson.get k key L = Some (Fresh n) → (n < PodsJson.next L)%nat.

(** Every line of the manifest [m] is in [m'], and every library named in
    [m] is named in [m']. *)
Definition lines_kept (m m' : Podfile.manifest) : Prop :=
  (∀ d, d ∈ Podfile.m_declarations m → d ∈ Podfile.m_declarations m')
  ∧ (∀ u, u ∈ Podfile.m_sources m → u ∈ Podfile.m_sources m')
  ∧ (∀ n, n ∈ (Podfile.m_pods m).*1 → n ∈ (Podfile.m_pods m').*1).

(** From [s] to [s'] the ledger and the [Podfile] have only grown: every
    entry is still there, the same object, with a count that went up by
    some [n >= 0] and nothing else changed in it; every line of the
    [Podfile] is still there. *)
Definition only_grown (s s' : Session) : Prop :=
  fresh_above (podsjsonFile s) →
  fresh_above (podsjsonFile s')
  ∧ (∀ k key l,
       PodsJson.get k key (podsjsonFile s) = Some l →
       PodsJson.get k key (podsjsonFile s') = Some l
       ∧ ∃ n : Z, (0 ≤ n)%Z
              ∧ PodsJson.heap (podsjsonFile s') l
                = PodsJson.update_count (Z.add n) (PodsJson.heap (podsjsonFile s) l))
  ∧ lines_kept (Podfile.current (podfileFile s)) (Podfile.current (podfileFile s')).

(** The call of the [Podfile] that removes the line of a unit. *)
Definition remove_line (k : kind) (v : jsval) (P : Podfile.t) : Podfile.t :=
  match k with
  | Declarations => Podfile.removeDeclaration v P
  | Sources => Podfile.removeSource v P
  | Libraries => Podfile.removeSpec v P
  end.

(** What a loop body of uninstall that returns has done: nothing; or
    counted an entry down and removed the line [v] of the unit if the count
    read back is 0; or, the entry missing, said so and removed the line. *)
Inductive uninstall_step (drop_at_zero : bool) (s : Session) : Session → Prop :=
  | uninstall_skip : uninstall_step drop_at_zero s s
  | uninstall_count k key l v :
      PodsJson.get k key (podsjsonFile s) = Some l →
      uninstall_step drop_at_zero s
        (mkSession
           (PodsJson.decrement drop_at_zero k key (podsjsonFile s))
           (if strict_eq
                 (get_field
                    (PodsJson.heap
                       (PodsJson.decrement drop_at_zero k key (podsjsonFile s)) l)
                    "count")
                 (JNum 0)
            then remove_line k v (podfileFile s) else podfileFile s)
           (emitted s))
  | uninstall_missing k key v message :
      PodsJson.get k key (podsjsonFile s) = None →
      uninstall_step drop_at_zero s
        (mkSession (podsjsonFile s) (remove_line k v (podfileFile s))
                   (emitted s ++ [Emit verbose message])%list).

(** From [s] to [s'] the ledger and the [Podfile] have only shrunk: every
    entry of [s'] was there, the same object with the same payload; every
    line of the [Podfile] of [s'] was there; the events added are all
    [verbose]. *)
Definition only_shrunk (s s' : Session) : Prop :=
  (∀ k key l,
     PodsJson.get k key (podsjsonFile s') = Some l →
     PodsJson.get k key (podsjsonFile s) = Some l)
  ∧ (∀ l f, f ≠ "count" →
            PodsJson.heap (podsjsonFile s') l !! f
            = PodsJson.heap (podsjsonFile s) l !! f)
  ∧ lines_kept (Podfile.current (podfileFile s')) (Podfile.current (podfileFile s))
  ∧ ∃ evs, emitted s' = (emitted s ++ evs)%list
           ∧ Forall (λ e, ev_level e = verbose) evs.

(** ** The turns of the loops of a call *)

(** One turn of one of the three loops over [Object.keys] in the body of
    [podSpecs.forEach]: the section that is enumerated and the key.
    [MissingSection] is the [Object.keys] of a section that is missing, to
    which only [removePodSpecs] gets. *)
Inductive turn : Type :=
  | DeclarationOf (obj_declarations : list (string * jsval)) (key : string)
  | SourceOf (obj_sources : list (string * jsobj)) (key : string)
  | LibraryOf (obj_libraries : list (string * jsobj)) (key : string)
  | MissingSection.

Definition turns_of_section {V : Type} (mk : list (string * V) → string → turn)
    (guarded : bool) (o : option (list (string * V))) : list turn :=
  match o with
  | Some o => mk o <$> obj_keys o
  | None => if guarded then [] else [MissingSection]
  end.

(** The turns that one pod spec asks for, in order; [guarded] says whether
    a missing section is passed over, as [addPodSpecs] does. *)
Definition turns_of_podSpec (guarded : bool) (obj : PodSpec) : list turn :=
  (turns_of_section DeclarationOf guarded (declarations obj)
   ++ turns_of_section SourceOf guarded (sources obj)
   ++ turns_of_section LibraryOf guarded (libraries obj))%list.

Definition install_turns (podSpecs : list PodSpec) : list turn :=
  flat_map (turns_of_podSpec true) podSpecs.

Definition uninstall_turns (podSpecs : list PodSpec) : list turn :=
  flat_map (turns_of_podSpec false) podSpecs.

(** The sessions that a loop goes through: [R x s s'] holds of every
    element [x] of the list, of the session [s] in which its turn starts
    and of the session [s'] in which it ends, which is where the next turn
    starts. *)
Inductive steps {A : Type} (R : A → Session → Session → Prop)
  : list A → Session → Session → Prop :=
  | steps_nil s : steps R [] s s
  | steps_cons x l s s' s'' :
      R x s s' → steps R l s' s'' → steps R (x :: l) s s''.

(** The session in which the first turn of a call starts: both files are
    loaded and the first message is out. *)
Definition started (w : World) : Session :=
  mkSession (PodsJson.load (pods_json w)) (Podfile.load (podfile w))
    [Emit verbose "Adding pods since the plugin contained <podspecs>"].

(** What a call has done, [r] being its outcome and the world it leaves,
    [turns] the turns of its loops and [body] the loop body of a turn.  A
    call that returns went through all its turns, [R] holding of each of
    them, and leaves what [ending] makes of the last session.  A call that
    throws went through the turns before the one that throws, [R] holding
    of each of them, and leaves through [abort]. *)
Definition went_through (R : turn → Session → Session → Prop) (turns : list turn)
    (body : turn → Eng unit) (ending : World → Session → World)
    (w : World) (r : outcome unit * World) : Prop :=
  match r.1 with
  | Returned _ =>
      ∃ s', steps R turns (started w) s' ∧ r.2 = ending w s'
  | Thrown e =>
      ∃ before t after s1 s2,
        turns = (before ++ t :: after)%list
        ∧ steps R before (started w) s1
        ∧ run (body t) s1 = (Thrown e, s2)
        ∧ r.2 = abort w s2
  end.

(** What the [Podfile] is asked to add or to remove for a unit: the
    declaration, the [source] of the payload, the [name] of the payload. *)
Definition line_value (k : kind) (key : string) (json : jsobj) : jsval :=
  match k with
  | Declarations => JStr key
  | Sources => get_field json "source"
  | Libraries => get_field json "name"
  end.

(** The word for a kind of unit in the message of [removePodSpecs]. *)
Definition kind_word (k : kind) : string :=
  match k with
  | Declarations => "declaration"
  | Sources => "source"
  | Libraries => "podspec"
  end.

(** The unit is in the manifest: its declaration or its source is a line
    of it, the library is in it under its name with the payload and the
    count of 1 that it was registered with. *)
Definition entered (k : kind) (key : string) (json : jsobj) (m : Podfile.manifest)
  : Prop :=
  match k with
  | Declarations => JStr key ∈ Podfile.m_declarations m
  | Sources => get_field json "source" ∈ Podfile.m_sources m
  | Libraries =>
      ∃ n, get_field json "name" = JStr n
           ∧ (n, <["count" := JNum 1]> json) ∈ Podfile.m_pods m
  end.

(** What install does in a turn, [unit] being the unit that the turn acts
    on, if any: with an entry under the key of the unit, the count of that
    entry goes up by one and nothing else changes in the ledger, and the
    [Podfile] is as it was; without one, an entry made of the payload and a
    count of 1 is created, the unit is given to the [Podfile], and is in
    the manifest after that.  A turn that acts on no unit changes
    nothing. *)
Definition counted_or_registered (unit : option (kind * string * jsobj))
    (s s' : Session) : Prop :=
  match unit with
  | None => s' = s
  | Some (k, key, json) =>
      match PodsJson.get k key (podsjsonFile s) with
      | Some l =>
          recounted Z.succ l (podsjsonFile s) (podsjsonFile s')
          ∧ podfileFile s' = podfileFile s
      | None =>
          registered k key json (podsjsonFile s) (podsjsonFile s')
          ∧ enters k key json (podfileFile s) (podfileFile s')
          ∧ entered k key json (Podfile.current (podfileFile s'))
      end
  end.

(** What install does in the turn of a library that has an entry [l] in
    the ledger: one warning, made of the id of the plugin, the name in the
    resolved payload and the [spec] of the entry; the count of the entry
    goes up by one and nothing else changes in the ledger, so that the
    entry keeps the payload it was registered with; the [Podfile] is as it
    was. *)
Definition warned_and_counted (id : string) (unit : option (kind * string * jsobj))
    (s s' : Session) : Prop :=
  ∀ key podJson l,
    unit = Some (Libraries, key, podJson) →
    PodsJson.get Libraries key (podsjsonFile s) = Some l →
    emitted s'
    = (emitted s ++
       [Emit warn
          (conflict_message id (get_field podJson "name")
             (get_field (PodsJson.heap (podsjsonFile s) l) "spec"))])%list
    ∧ recounted Z.succ l (podsjsonFile s) (podsjsonFile s')
    ∧ (∀ f, f ≠ "count" →
            PodsJson.heap (podsjsonFile s') l !! f
            = PodsJson.heap (podsjsonFile s) l !! f)
    ∧ podfileFile s' = podfileFile s.

(** What uninstall does in the turn of a unit of one of [kinds] that has
    an entry [l] in the ledger: the count of the entry goes down by one,
    not below 0; the line of the unit is removed from the [Podfile] exactly
    when the count read back from the entry after that is 0, and else the
    [Podfile] is as it was; no event is emitted. *)
Definition counted_down (kinds : list kind) (unit : option (kind * string * jsobj))
    (s s' : Session) : Prop :=
  ∀ k key json l,
    unit = Some (k, key, json) →
    k ∈ kinds →
    PodsJson.get k key (podsjsonFile s) = Some l →
    PodsJson.heap (podsjsonFile s') l
    = PodsJson.update_count count_down (PodsJson.heap (podsjsonFile s) l)
    ∧ (∀ c, get_field (PodsJson.heap (podsjsonFile s) l) "count" = JNum c →
            get_field (PodsJson.heap (podsjsonFile s') l) "count"
            = JNum (Z.max 0 (c - 1)))
    ∧ podfileFile s'
      = (if decide (get_field (PodsJson.heap (podsjsonFile s') l) "count" = JNum 0)
         then remove_line k (line_value k key json) (podfileFile s)
         else podfileFile s)
    ∧ emitted s' = emitted s.

(** What uninstall does in the turn of a unit that has no entry in the
    ledger: the ledger is as it was, one [verbose] message says that the
    unit is not in [pods.json], and the line of the unit is removed from
    the [Podfile]. *)
Definition removed_though_missing (id : string)
    (unit : option (kind * string * jsobj)) (s s' : Session) : Prop :=
  ∀ k key json,
    unit = Some (k, key, json) →
    PodsJson.get k key (podsjsonFile s) = None →
    podsjsonFile s' = podsjsonFile s
    ∧ podfileFile s' = remove_line k (line_value k key json) (podfileFile s)
    ∧ emitted s'
      = (emitted s ++
         [Emit verbose
            (missing_message id (kind_word k) (line_value k key json))])%list.

Section Turns.

Context {PluginInfo : Type}.
Variable plugin_id : PluginInfo → string.
Variable isSwiftPackagePlugin : PluginInfo → bool.
Variable proofDeclaration : string → string.
Variable drop_at_zero : bool.

(** The loop body that a turn of [addPodSpecs] runs. *)
Definition add_turn (plugin : PluginInfo) (installOptions : Options) (t : turn)
  : Eng unit :=
  match t with
  | DeclarationOf obj_declarations key =>
      add_declaration proofDeclaration obj_declarations key
  | SourceOf obj_sources key => add_source obj_sources key
  | LibraryOf obj_libraries key =>
      add_library plugin_id plugin installOptions (isSwiftPackagePlugin plugin)
        obj_libraries key
  | MissingSection => lift (Thrown TypeError)
  end.

(** The loop body that a turn of [removePodSpecs] runs. *)
Definition remove_turn (plugin : PluginInfo) (uninstallOptions : Options) (t : turn)
  : Eng unit :=
  match t with
  | DeclarationOf obj_declarations key =>
      remove_declaration plugin_id proofDeclaration drop_at_zero plugin
        obj_declarations key
  | SourceOf obj_sources key =>
      remove_source plugin_id drop_at_zero plugin obj_sources key
  | LibraryOf obj_libraries key =>
      remove_library plugin_id drop_at_zero plugin uninstallOptions
        (isSwiftPackagePlugin plugin) obj_libraries key
  | MissingSection => lift (Thrown TypeError)
  end.

(** The unit that a turn acts on, in either call: its kind, its key in the
    ledger and its payload [podJson] -- a declaration whose value is
    ['true'], a source, a library that passes the test, with its variables
    resolved.  [None] for a turn that acts on nothing; a throw when the
    variables of the library do not resolve. *)
Definition unit_of (plugin : PluginInfo) (options : Options) (t : turn)
  : outcome (option (kind * string * jsobj)) :=
  match t with
  | DeclarationOf obj_declarations key =>
      if strict_eq (default JUndefined (obj_get obj_declarations key)) (JStr "true")
      then
        let declaration := proofDeclaration key in
        Returned (Some (Declarations, declaration,
                        ({[ "declaration" := JStr declaration ]} : jsobj)))
      else Returned None
  | SourceOf obj_sources key =>
      Returned
        (Some (Sources, key,
               ({[ "source" := get_field (default ∅ (obj_get obj_sources key))
                                 "source" ]} : jsobj)))
  | LibraryOf obj_libraries key =>
      let podJson : jsobj := default ∅ (obj_get obj_libraries key) in
      if wants_pod (isSwiftPackagePlugin plugin) podJson then
        match replacePodSpecVariables podJson options with
        | Returned podJson => Returned (Some (Libraries, key, podJson))
        | Thrown e => Thrown e
        end
      else Returned None
  | MissingSection => Thrown TypeError
  end.

End Turns.

(** * [lib/versions.js]

    The versions of the tools that the platform needs, read from what the
    tools print.  A string is the sequence of its UTF-16 code units, so that
    [split], [trim] and the regular expressions work on what they work on in
    JavaScript.  A promise is made settled, by [Promise.resolve] or
    [Promise.reject]: it is the value or the reason. *)

Module Versions.

Local Close Scope string_scope.
Local Close Scope Z_scope.
Local Open Scope list_scope.

Abbreviation jsstring := (list N).

(** A string literal of the source, all ASCII. *)
Definition lit (s : string) : jsstring :=
  (λ a, N_of_ascii a) <$> list_ascii_of_string s.

(** What is thrown: an [Error] such as [child_process] reports, a
    [CordovaError], a [TypeError] made by the code with its message, or the
    [TypeError] that the engine raises for [null[0]]. *)
Inductive exn : Type :=
  | Error (message : jsstring)
  | CordovaError (message : jsstring)
  | TypeError (message : jsstring)
  | NullAccess.

Inductive result (A : Type) : Type :=
  | Ok (a : A)
  | Throw (e : exn).
Arguments Ok {A} a.
Arguments Throw {A} e.

Inductive promise (A : Type) : Type :=
  | Resolved (a : A)
  | Rejected (e : exn).
Arguments Resolved {A} a.
Arguments Rejected {A} e.

(** [try { return Promise.resolve (f ()) } catch (e) { return Promise.reject (e) }]. *)
Definition settle {A : Type} (r : result A) : promise A :=
  match r with
  | Ok a => Resolved a
  | Throw e => Rejected e
  end.

(** What [child_process.spawnSync] gives back: [error] when the process
    could not be run, [status] its exit code or [null], and what it wrote. *)
Record spawned : Type := mkSpawned {
  error : option exn;
  status : option Z;
  stdout : jsstring;
  stderr : jsstring
}.

(** ** Strings and the regular expressions of the file *)

Definition is_digit (c : N) : bool := (48 <=? c)%N && (c <=? 57)%N.

(** [WhiteSpace] and [LineTerminator] of ECMAScript, which [trim] strips. *)
Definition is_line_terminator (c : N) : bool :=
  (c =? 10)%N || (c =? 13)%N || (c =? 8232)%N || (c =? 8233)%N.

Definition is_white_space (c : N) : bool :=
  (c =? 9)%N || (c =? 11)%N || (c =? 12)%N || (c =? 32)%N || (c =? 160)%N
  || (c =? 5760)%N || ((8192 <=? c)%N && (c <=? 8202)%N) || (c =? 8239)%N
  || (c =? 8287)%N || (c =? 12288)%N || (c =? 65279)%N
  || is_line_terminator c.

Fixpoint trimStart (s : jsstring) : jsstring :=
  match s with
  | c :: s' => if is_white_space c then trimStart s' else s
  | [] => []
  end.

(** [s.trim ()]. *)
Definition trim (s : jsstring) : jsstring :=
  reverse (trimStart (reverse (trimStart s))).

(** [s.split ('\n')]. *)
Fixpoint split_lines (s : jsstring) : list jsstring :=
  match s with
  | [] => [[]]
  | c :: s' =>
      if (c =? 10)%N then [] :: split_lines s'
      else match split_lines s' with
           | line :: lines => (c :: line) :: lines
           | [] => [[c]]
           end
  end.

(** The rest of [s] after the prefix [p], if [s] starts with [p]. *)
Fixpoint strip_prefix (p s : jsstring) : option jsstring :=
  match p, s with
  | [], _ => Some s
  | a :: p', b :: s' => if (a =? b)%N then strip_prefix p' s' else None
  | _ :: _, [] => None
  end.

(** The rest of [s] after the leftmost occurrence of [p]. *)
Fixpoint after_first (p s : jsstring) : option jsstring :=
  match strip_prefix p s with
  | Some r => Some r
  | None =>
      match s with
      | [] => None
      | _ :: s' => after_first p s'
      end
  end.

(** What a greedy run of [.] takes: any code unit but a line terminator. *)
Fixpoint dot_star (s : jsstring) : jsstring :=
  match s with
  | c :: s' => if is_line_terminator c then [] else c :: dot_star s'
  | [] => []
  end.

(** [exec] of the regular expression of [get_apple_xcode_version], the
    text [Xcode ] and then a group of any characters, on [s]: the group of
    the leftmost match, [None] when there is no match. *)
Definition exec_Xcode (s : jsstring) : option jsstring :=
  dot_star <$> after_first (lit "Xcode ") s.

(** The longest run of digits that [s] starts with, and what follows. *)
Fixpoint digits (s : jsstring) : jsstring * jsstring :=
  match s with
  | c :: s' =>
      if is_digit c then let '(ds, r) := digits s' in (c :: ds, r) else ([], s)
  | [] => ([], [])
  end.

(** The match of [/\d+\.\d+/] that starts where [s] starts, if there is
    one: the first [\d+] has to take the whole run of digits, since what
    comes after it has to be a dot. *)
Definition dotted_here (s : jsstring) : option jsstring :=
  match digits s with
  | ((_ :: _) as major, c :: r) =>
      if (c =? 46)%N then
        match digits r with
        | ((_ :: _) as minor, _) => Some (major ++ [46%N] ++ minor)
        | _ => None
        end
      else None
  | _ => None
  end.

(** [s.match (/\d+\.\d+/)]: the leftmost match, [None] for [null]. *)
Fixpoint match_dotted (s : jsstring) : option jsstring :=
  match dotted_here s with
  | Some m => Some m
  | None =>
      match s with
      | [] => None
      | _ :: s' => match_dotted s'
      end
  end.

(** What a match of [/\d+\.\d+/] is: digits, a dot, digits. *)
Definition dotted (m : jsstring) : Prop :=
  ∃ major minor,
    m = major ++ [46%N] ++ minor
    ∧ major ≠ [] ∧ minor ≠ []
    ∧ Forall (λ c, is_digit c = true) major
    ∧ Forall (λ c, is_digit c = true) minor.

(** [line.trim ().match (new RegExp (`^${sdkType} \\d`))] as a condition.
    [sdkType] is ['iOS'] or ['macOS'] in the file: letters, which a regular
    expression takes as they are. *)
Definition is_sdk_line (sdkType line : jsstring) : bool :=
  match strip_prefix (sdkType ++ [32%N]) (trim line) with
  | Some (c :: _) => is_digit c
  | _ => false
  end.

Section Tools.

(** The outside: [child_process.spawnSync (cmd, args, { encoding: 'utf8' })],
    which gives a result or throws; and [semver], of which the file uses
    [parse], [coerce] (either gives a version or [null]) and [compare]. *)
Variable child_process_spawnSync : jsstring → list jsstring → result spawned.
Context {SemVer : Type}.
Variable semver_parse : jsstring → option SemVer.
Variable semver_coerce : jsstring → option SemVer.
Variable semver_compare : SemVer → SemVer → Z.

(** [spawnSync (cmd, args)]. *)
Definition spawnSync (cmd : jsstring) (args : list jsstring) : result jsstring :=
  match child_process_spawnSync cmd args with
  | Throw e => Throw e
  | Ok r =>
      match error r with
      | Some e => Throw e
      | None =>
          match status r with
          | Some 0%Z => Ok (stdout r)
          | _ => Throw (CordovaError (stderr r))
          end
      end
  end.

(** [coerceToSemverIfInvalid] of [compareVersions]. *)
Definition coerceToSemverIfInvalid (v : jsstring) : result SemVer :=
  match semver_parse v with
  | Some sv => Ok sv
  | None =>
      match semver_coerce v with
      | Some sv => Ok sv
      | None => Throw (TypeError (lit "Invalid Version: " ++ v))
      end
  end.

(** [exports.compareVersions], called with two versions: both are coerced,
    the first one first, then compared. *)
Definition compareVersions (version1 version2 : jsstring) : result Z :=
  match coerceToSemverIfInvalid version1 with
  | Throw e => Throw e
  | Ok sv1 =>
      match coerceToSemverIfInvalid version2 with
      | Throw e => Throw e
      | Ok sv2 => Ok (semver_compare sv1 sv2)
      end
  end.

(** [v] is a version for [semver], as it is or coerced. *)
Definition coercible (v : jsstring) : Prop :=
  is_Some (semver_parse v) ∨ is_Some (semver_coerce v).

(** [compareVersions (a, b)] returns, and not a positive number. *)
Definition no_greater (a b : jsstring) : Prop :=
  ∃ c, compareVersions a b = Ok c ∧ (c ≤ 0)%Z.

(** [array.sort (compareVersions)].  For a comparison function that is
    consistent the sorted array is the one a stable sort gives: an insertion
    sort is written out, which puts a version before the versions after it
    that are no lower; a comparison that throws ends it. *)
Fixpoint insert_sorted (x : jsstring) (sorted : list jsstring)
  : result (list jsstring) :=
  match sorted with
  | [] => Ok [x]
  | y :: rest =>
      match compareVersions x y with
      | Throw e => Throw e
      | Ok c =>
          if (c <=? 0)%Z then Ok (x :: y :: rest)
          else match insert_sorted x rest with
               | Throw e => Throw e
               | Ok rest' => Ok (y :: rest')
               end
      end
  end.

Fixpoint sort_versions (versions : list jsstring) : result (list jsstring) :=
  match versions with
  | [] => Ok []
  | x :: rest =>
      match sort_versions rest with
      | Throw e => Throw e
      | Ok sorted => insert_sorted x sorted
      end
  end.

(** [lines.map (line => line.match (/\d+\.\d+/)[0])]. *)
Fixpoint map_versions (lines : list jsstring) : result (list jsstring) :=
  match lines with
  | [] => Ok []
  | line :: rest =>
      match match_dotted line with
      | None => Throw NullAccess
      | Some v =>
          match map_versions rest with
          | Throw e => Throw e
          | Ok vs => Ok (v :: vs)
          end
      end
  end.

(** The lines of [xcodebuild -showsdks] that name an SDK of [sdkType]. *)
Definition sdk_lines (sdkType out : jsstring) : list jsstring :=
  filter (λ line, is_sdk_line sdkType line = true) (split_lines out).

Definition could_not_determine (what out : jsstring) : exn :=
  CordovaError
    (lit "Could not determine " ++ what ++ lit " version from output:"
     ++ [10%N] ++ out).

(** [fetchSdkVersionByType (sdkType)]. *)
Definition fetchSdkVersionByType (sdkType : jsstring) : result jsstring :=
  match spawnSync (lit "xcodebuild") [lit "-showsdks"] with
  | Throw e => Throw e
  | Ok out =>
      match map_versions (sdk_lines sdkType out) with
      | Throw e => Throw e
      | Ok found =>
          match sort_versions found with
          | Throw e => Throw e
          | Ok versions =>
              match versions with
              | ((_ :: _) as v) :: _ => Ok v
              | _ => Throw (could_not_determine sdkType out)
              end
          end
      end
  end.

Definition get_apple_ios_version : promise jsstring :=
  settle (fetchSdkVersionByType (lit "iOS")).

Definition get_apple_osx_version : promise jsstring :=
  settle (fetchSdkVersionByType (lit "macOS")).

Definition get_apple_xcode_version : promise jsstring :=
  settle
    match spawnSync (lit "xcodebuild") [lit "-version"] with
    | Throw e => Throw e
    | Ok out =>
        match exec_Xcode out with
        | None => Throw (could_not_determine (lit "Xcode") out)
        | Some version => Ok version
        end
    end.

Definition get_ios_deploy_version : promise jsstring :=
  settle (spawnSync (lit "ios-deploy") [lit "--version"]).

Definition get_cocoapods_version : promise jsstring :=
  settle (spawnSync (lit "pod") [lit "--version"]).

(** [exports.get_tool_version (toolName)]. *)
Definition get_tool_version (toolName : jsstring) : promise jsstring :=
  if decide (toolName = lit "xcodebuild") then get_apple_xcode_version
  else if decide (toolName = lit "ios-deploy") then get_ios_deploy_version
  else if decide (toolName = lit "pod") then get_cocoapods_version
  else Rejected
         (CordovaError
            (toolName
             ++ lit " is not valid tool name. Valid names are: 'xcodebuild', 'ios-deploy', and 'pod'")).

End Tools.

(** ** A machine to run the functions on *)

(** What [xcodebuild -showsdks] writes on a machine with two iOS SDKs. *)
Definition demo_sdks : jsstring :=
  lit "iOS SDKs:" ++ [10%N]
  ++ [9%N] ++ lit "iOS 26.2                        -sdk iphoneos26.2" ++ [10%N]
  ++ [9%N] ++ lit "iOS 17.5                        -sdk iphoneos17.5" ++ [10%N]
  ++ [10%N]
  ++ lit "iOS Simulator SDKs:" ++ [10%N]
  ++ [9%N] ++ lit "Simulator - iOS 26.2            -sdk iphonesimulator26.2" ++ [10%N]
  ++ [10%N]
  ++ lit "macOS SDKs:" ++ [10%N]
  ++ [9%N] ++ lit "macOS 15.7                      -sdk macosx15.7" ++ [10%N].

Definition demo_xcode : jsstring :=
  lit "Xcode 16.4" ++ [10%N] ++ lit "Build version 16F6" ++ [10%N].

(** [xcodebuild] and [pod] are there, [ios-deploy] is not. *)
Definition demo_spawnSync (cmd : jsstring) (args : list jsstring)
  : result spawned :=
  if decide (cmd = lit "xcodebuild") then
    if decide (args = [lit "-showsdks"]) then Ok (mkSpawned None (Some 0%Z) demo_sdks [])
    else if decide (args = [lit "-version"]) then Ok (mkSpawned None (Some 0%Z) demo_xcode [])
    else Ok (mkSpawned None (Some 64%Z) [] (lit "xcodebuild: error"))
  else if decide (cmd = lit "pod") then Ok (mkSpawned None (Some 0%Z) (lit "1.16.2") [])
  else Ok (mkSpawned (Some (Error (lit "ENOENT"))) None [] []).

(** A machine where the one SDK line has a version of one number. *)
Definition odd_spawnSync (cmd : jsstring) (args : list jsstring)
  : result spawned :=
  Ok (mkSpawned None (Some 0%Z) (lit "iOS 26 -sdk iphoneos26") []).

(** [semver] on versions of two numbers: [parse] wants three, [coerce]
    takes what is there, [compare] orders by the first and then by the
    second. *)
Definition number (ds : jsstring) : N :=
  foldl (λ n c, (10 * n + (c - 48))%N) 0%N ds.

Definition demo_parse (v : jsstring) : option (N * N) := None.

Definition demo_coerce (v : jsstring) : option (N * N) :=
  match digits v with
  | ((_ :: _) as major, c :: r) =>
      if (c =? 46)%N then Some (number major, number (digits r).1)
      else Some (number major, 0%N)
  | ((_ :: _) as major, []) => Some (number major, 0%N)
  | _ => None
  end.

Definition demo_compare (a b : N * N) : Z :=
  match (a.1 ?= b.1)%N with
  | Lt => (-1)%Z
  | Gt => 1%Z
  | Eq =>
      match (a.2 ?= b.2)%N with
      | Lt => (-1)%Z
      | Gt => 1%Z
      | Eq => 0%Z
      end
  end.

End Versions.

(** * [NSDictionary (CordovaPreferences)]

    The Objective-C category that reads the application's preferences from
    a dictionary whose keys are kept in lower case.  An object of the
    dictionary is known by the answers it gives to the messages that the
    category sends it. *)

Module CordovaPreferences.

(** [NSDictionary] with its [NSString] keys; [nil] is [None]. *)
Abbreviation dictionary object := (gmap string object).

Section Preferences.

Variable object : Type.

(** [-lowercaseString] of [NSString]. *)
Variable lowercaseString : string → string.

(** [isKindOfClass:NSString.class], and then the string that it is. *)
Variable asNSString : object → option string.

(** [isKindOfClass:NSNumber.class]. *)
Variable isNSNumber : object → bool.

(** [isEqual:@YES] and [isEqual:@NO]. *)
Variable isEqual : object → bool → bool.


(** The line that [NSLog] writes for a key that is not defined. *)
Inductive logged : Type :=
  | NotDefined (key : string) (defaultValue : bool).

Definition isEqualToString (a b : string) : bool := bool_decide (a = b).

(** [-cordovaSettingForKey:]. *)
Definition cordovaSettingForKey (self : dictionary object) (key : string)
  : option object :=
  self !! lowercaseString key.

(** [-cordovaBoolSettingForKey:defaultValue:], with what it logs. *)
Definition cordovaBoolSettingForKey (self : dictionary object) (key : string)
    (defaultValue : bool) : bool * list logged :=
  match cordovaSettingForKey self key with
  | None => (defaultValue, [NotDefined key defaultValue])
  | Some prefObj =>
      match asNSString prefObj with
      | Some s =>
          let prefObj := lowercaseString s in
          if isEqualToString prefObj "true" || isEqualToString prefObj "1"
             || isEqualToString prefObj "false" || isEqualToString prefObj "0"
          then (isEqualToString prefObj "true" || isEqualToString prefObj "1", [])
          else (defaultValue, [])
      | None =>
          if isNSNumber prefObj && (isEqual prefObj true || isEqual prefObj false)
          then (isEqual prefObj true, [])
          else (defaultValue, [])
      end
  end.

(** [-setCordovaSetting:forKey:] of [NSMutableDictionary]: the dictionary
    after the call.  The value is an object: [setObject:forKey:] raises for
    [nil]. *)
Definition setCordovaSetting (self : dictionary object) (value : object)
    (key : string) : dictionary object :=
  <[lowercaseString key := value]> self.

End Preferences.

Arguments cordovaSettingForKey {object} lowercaseString self key.
Arguments cordovaBoolSettingForKey {object} lowercaseString asNSString
  isNSNumber isEqual self key defaultValue.
Arguments setCordovaSetting {object} lowercaseString self value key.

(** ** Objects and strings to run the category on *)

Inductive demo_object : Type :=
  | DString (s : string)
  | DNumber (n : Z).

Definition demo_asNSString (o : demo_object) : option string :=
  match o with
  | DString s => Some s
  | DNumber _ => None
  end.

Definition demo_isNSNumber (o : demo_object) : bool :=
  match o with
  | DString _ => false
  | DNumber _ => true
  end.

Definition demo_isEqual (o : demo_object) (b : bool) : bool :=
  match o with
  | DString _ => false
  | DNumber n => Z.eqb n (if b then 1 else 0)
  end.

Definition lower_ascii (a : ascii) : ascii :=
  let n := N_of_ascii a in
  if (65 <=? n)%N && (n <=? 90)%N then ascii_of_N (n + 32) else a.

Fixpoint demo_lowercaseString (s : string) : string :=
  match s with
  | EmptyString => EmptyString
  | String a s' => String (lower_ascii a) (demo_lowercaseString s')
  end.

End CordovaPreferences.

(** * Properties *)

(** ** The variable resolver *)

(** Closes a decidable goal about concrete data by evaluation. *)
Ltac by_compute := apply (bool_decide_unpack _); vm_compute; exact I.

Lemma includes_elem_of (c : ascii) (s : string) :
  JsString.includes c s = true ↔ c ∈ list_ascii_of_string s.
Proof.
  induction s as [|a s IH]; simpl.
  - split; [discriminate | by intros ?%elem_of_nil].
  - rewrite elem_of_cons. destruct (Ascii.eqb_spec a c) as [->|Hne].
    + split; auto.
    + rewrite IH. split; [auto | intros [?|?]; [congruence | done]].
Qed.

Lemma append_String (a : ascii) (s t : string) :
  String a s ++ t = String a (s ++ t).
Proof. reflexivity. Qed.

Lemma append_Empty (t : string) : EmptyString ++ t = t.
Proof. reflexivity. Qed.

Lemma includes_append (c : ascii) (pre post : string) :
  JsString.includes c (pre ++ String c post) = true.
Proof.
  induction pre as [|a pre IH].
  - rewrite append_Empty. simpl. by rewrite Ascii.eqb_refl.
  - rewrite append_String. simpl. by destruct (Ascii.eqb a c).
Qed.

Lemma remove_first_append (c : ascii) (pre post : string) :
  c ∉ list_ascii_of_string pre →
  JsString.remove_first c (pre ++ String c post) = pre ++ post.
Proof.
  induction pre as [|a pre IH]; intros Hnin.
  - rewrite !append_Empty. simpl. by rewrite Ascii.eqb_refl.
  - rewrite !append_String. simpl in *.
    apply not_elem_of_cons in Hnin as [Hne Hnin].
    destruct (Ascii.eqb_spec a c) as [->|_]; [done |].
    f_equal. by apply IH.
Qed.

Lemma replace_fields_spec (fields : list string) (options : Options) :
  NoDup fields →
  ∀ pod pod', replace_fields fields pod options = Returned pod' →
  ∀ f,
    (f ∉ fields → pod' !! f = pod !! f) ∧
    (f ∈ fields →
     ∃ v, getVariableSpec (get_field pod f) options = Returned v ∧ pod' !! f = Some v).
Proof.
  induction 1 as [|e fields Hnin Hnd IH]; simpl; intros pod pod' Hrun f.
  - injection Hrun as <-. split; [done | by intros ?%elem_of_nil].
  - destruct (getVariableSpec (get_field pod e) options) as [v|] eqn:Hv; [|done].
    destruct (IH _ _ Hrun f) as [IHout IHin]. split.
    + intros Hf%not_elem_of_cons. destruct Hf as [Hne Hf].
      rewrite (IHout Hf). by rewrite lookup_insert_ne.
    + intros [->|Hf]%elem_of_cons.
      * exists v. split; [done |].
        rewrite (IHout Hnin). by rewrite lookup_insert_eq.
      * destruct (IHin Hf) as (v' & Hv' & Hl). exists v'. split; [|done].
        assert (f ≠ e) by (intros ->; done).
        unfold get_field in *. by rewrite lookup_insert_ne in Hv'.
Qed.

Lemma podSpecs_fields_NoDup : NoDup podSpecs_fields.
Proof. by_compute. Qed.

Lemma getVariableSpec_outcome (v : jsval) (options : Options) :
  (pin_resolves options v → ∃ r, getVariableSpec v options = Returned r)
  ∧ (∀ e, getVariableSpec v options = Thrown e → e = TypeError ∧ ¬ pin_resolves options v).
Proof.
  unfold getVariableSpec, pin_resolves. split.
  - intros (str & -> & Hvars). destruct (JsString.includes dollar str); [|by eauto].
    destruct (Hvars eq_refl) as [variables ->]. by eauto.
  - intros e He. destruct v as [| |b|n|str|name text inspected];
      try (injection He as <-; split; [done |]; by intros (? & ? & _)).
    destruct (JsString.includes dollar str) eqn:Hi; [|done].
    destruct options as [|[variables|]]; try done;
      (injection He as <-; split; [done |]);
      intros (str' & [= <-] & Hvars); by destruct (Hvars Hi).
Qed.

(** C7, as the code has it.  [getVariableSpec] returns a string without
    ['$'] as it is, whatever the options.  For a string with a ['$'] it
    reads [options.cli_variables] under the string with its first ['$']
    taken out: this is the object's own property if it has one, and else
    what it inherits under that name, [undefined] only if it inherits
    nothing; with [options] or [options.cli_variables] missing the read
    throws a [TypeError], and so does any value that is not a string.
    [replacePodSpecVariables] rewrites the truthy ones among [spec], [tag],
    [git], [commit] and [branch] with it and leaves every other property
    of the payload, such as [name], as it was. *)
Theorem getVariableSpec_reads_own_then_inherited (options : Options) :
  (∀ s, dollar ∉ list_ascii_of_string s →
        getVariableSpec (JStr s) options = Returned (JStr s))
  ∧ (∀ pre post variables,
       dollar ∉ list_ascii_of_string pre →
       options = OptionsObject (Some variables) →
       getVariableSpec (JStr (pre ++ String dollar post)) options
       = Returned
           (match own variables !! (pre ++ post) with
            | Some v => v
            | None => default JUndefined (inherited variables !! (pre ++ post))
            end))
  ∧ (∀ pre post,
       dollar ∉ list_ascii_of_string pre →
       options = NoOptions ∨ options = OptionsObject None →
       getVariableSpec (JStr (pre ++ String dollar post)) options = Thrown TypeError)
  ∧ (∀ v, (∀ s, v ≠ JStr s) → getVariableSpec v options = Thrown TypeError)
  ∧ (∀ pod pod', replacePodSpecVariables pod options = Returned pod' →
     ∀ f,
       (f ∉ podSpecs_fields → pod' !! f = pod !! f) ∧
       (f ∈ podSpecs_fields → truthy (get_field pod f) = false →
          pod' !! f = pod !! f) ∧
       (f ∈ podSpecs_fields → truthy (get_field pod f) = true →
          ∃ v, getVariableSpec (get_field pod f) options = Returned v
               ∧ pod' !! f = Some v)).
Proof.
  split; [|split; [|split; [|split]]].
  - intros s Hs. unfold getVariableSpec.
    destruct (JsString.includes dollar s) eqn:Hi; [|done].
    by apply includes_elem_of in Hi.
  - intros pre post variables Hpre ->. unfold getVariableSpec.
    by rewrite includes_append, remove_first_append.
  - intros pre post Hpre Hopt. unfold getVariableSpec.
    rewrite includes_append by done. by destruct Hopt as [-> | ->].
  - intros v Hv. destruct v; try done. by destruct (Hv s).
  - intros pod pod' Hrun f. unfold replacePodSpecVariables in Hrun.
    pose proof (replace_fields_spec _ options
      (NoDup_filter (λ e, truthy (get_field pod e) = true) _ podSpecs_fields_NoDup)
      _ _ Hrun f) as [Hout Hin].
    repeat split.
    + intros Hf. apply Hout. rewrite list_elem_of_filter. tauto.
    + intros _ Hf. apply Hout. rewrite list_elem_of_filter. intros [? _]. congruence.
    + intros Hf Ht. apply Hin. by rewrite list_elem_of_filter.
Qed.

Lemma getVariableSpec_reads_own_then_inherited_witness :
  getVariableSpec (JStr "~> 4.0") demo_options = Returned (JStr "~> 4.0") ∧
  getVariableSpec (JStr "$AFN_VERSION") demo_options = Returned (JStr "~> 4.0") ∧
  getVariableSpec (JStr "$MISSING") demo_options = Returned JUndefined ∧
  getVariableSpec (JStr "$AFN_VERSION") (OptionsObject None) = Thrown TypeError ∧
  getVariableSpec (JNum 4) demo_options = Thrown TypeError ∧
  ∃ pod', replacePodSpecVariables demo_pod demo_options = Returned pod' ∧
          pod' !! "name" = Some (JStr "$AFN_VERSION") ∧
          pod' !! "tag" = Some (JStr "") ∧
          (∃ v, getVariableSpec (JStr "$AFN_VERSION") demo_options = Returned v
                ∧ pod' !! "spec" = Some v).
Proof.
  destruct (getVariableSpec_reads_own_then_inherited demo_options)
    as (H1 & H2 & _ & H4 & H5).
  split; [apply H1; by_compute |].
  split; [apply (H2 "" "AFN_VERSION" _ ltac:(by_compute) eq_refl) |].
  split; [apply (H2 "" "MISSING" _ ltac:(by_compute) eq_refl) |].
  split.
  { apply (proj1 (proj2 (proj2 (getVariableSpec_reads_own_then_inherited
                                  (OptionsObject None)))) "" "AFN_VERSION").
    - by_compute.
    - by right. }
  split; [by apply H4 |].
  assert (Hrun : replacePodSpecVariables demo_pod demo_options
                 = Returned (<["branch" := JUndefined]>
                               (<["spec" := JStr "~> 4.0"]> demo_pod)))
    by (vm_compute; reflexivity).
  eexists. split; [exact Hrun |].
  destruct (H5 _ _ Hrun "name") as (Hname & _ & _).
  destruct (H5 _ _ Hrun "tag") as (_ & Htag & _).
  destruct (H5 _ _ Hrun "spec") as (_ & _ & Hspec).
  split; [rewrite Hname; [reflexivity | by_compute] |].
  split; [rewrite Htag; [reflexivity | by_compute | reflexivity] |].
  apply Hspec; [by_compute | reflexivity].
Defined.

(** C7 refuted.  The variables have no entry [constructor], and the value
    ['$constructor'] resolves to the function that every plain object
    inherits under that name, not to [undefined]; with
    [options.cli_variables] missing, or [options], a value with a ['$']
    makes the resolver throw; and a value that is not a string, which has
    no ['$'] in it, makes it throw as well instead of coming back
    unchanged. *)
Lemma resolver_returns_inherited_value_or_throws :
  own (mkObject ∅ Object_prototype) !! "constructor" = None
  ∧ getVariableSpec (JStr "$constructor") (mkOptions ∅)
    = Returned (JObject "Object" "function Object() { [native code] }"
                  "function Object() { [native code] }")
  ∧ getVariableSpec (JStr "$AFN_VERSION") (OptionsObject None) = Thrown TypeError
  ∧ getVariableSpec (JStr "$AFN_VERSION") NoOptions = Thrown TypeError
  ∧ getVariableSpec (JNum 4) (mkOptions ∅) = Thrown TypeError.
Proof. repeat split. Qed.

(** ** The ledger *)

Lemma contents_with_contents k k' m (L : PodsJson.t) :
  PodsJson.contents k (PodsJson.with_contents k' m L)
  = if decide (k = k') then m else PodsJson.contents k L.
Proof. by destruct k, k'. Qed.

Lemma heap_with_contents k m (L : PodsJson.t) :
  PodsJson.heap (PodsJson.with_contents k m L) = PodsJson.heap L.
Proof. by destruct k. Qed.

Lemma contents_store k l o (L : PodsJson.t) :
  PodsJson.contents k (PodsJson.store l o L) = PodsJson.contents k L.
Proof. by destruct k. Qed.

Lemma heap_store l l' o (L : PodsJson.t) :
  PodsJson.heap (PodsJson.store l o L) l' = if decide (l' = l) then o else PodsJson.heap L l'.
Proof. reflexivity. Qed.

Lemma setJson_registered k key json (L : PodsJson.t) :
  registered k key json L (PodsJson.setJson k key (<["count" := JNum 1]> json) L).
Proof.
  split.
  - exists (Fresh (PodsJson.next L)).
    assert (PodsJson.heap
              (PodsJson.setJson k key (<["count" := JNum 1]> json) L)
              (Fresh (PodsJson.next L)) = <["count" := JNum 1]> json) as Hheap.
    { unfold PodsJson.setJson. simpl. rewrite heap_with_contents, heap_store.
      rewrite decide_True by done. apply insert_insert_eq. }
    split; [|split; [done |]].
    + unfold PodsJson.get, PodsJson.setJson.
      destruct k; simpl; apply lookup_insert_eq.
    + rewrite Hheap. unfold get_field. by rewrite lookup_insert_eq.
  - intros k' key' Hne. unfold PodsJson.get, PodsJson.setJson.
    destruct k, k'; simpl; try done;
      (rewrite lookup_insert_ne; [done | congruence]).
Qed.

Lemma update_count_number f (o : jsobj) c :
  get_field o "count" = JNum c →
  get_field (PodsJson.update_count f o) "count" = JNum (f c).
Proof.
  intros H. unfold PodsJson.update_count. rewrite H.
  unfold get_field. by rewrite lookup_insert_eq.
Qed.

Lemma update_count_payload f (o : jsobj) fld :
  fld ≠ "count" → PodsJson.update_count f o !! fld = o !! fld.
Proof.
  intros H. unfold PodsJson.update_count.
  destruct (get_field o "count"); try done. by rewrite lookup_insert_ne.
Qed.

Lemma decrement_present drop k key (L : PodsJson.t) l :
  PodsJson.get k key L = Some l →
  let L' := PodsJson.decrement drop k key L in
  PodsJson.heap L' l = PodsJson.update_count count_down (PodsJson.heap L l)
  ∧ (∀ l', l' ≠ l → PodsJson.heap L' l' = PodsJson.heap L l')
  ∧ (∀ k' key', (k', key') ≠ (k, key) →
                PodsJson.get k' key' L' = PodsJson.get k' key' L)
  ∧ PodsJson.get k key L'
    = if drop && strict_eq (get_field (PodsJson.heap L' l) "count") (JNum 0)
      then None else Some l.
Proof.
  intros H L'. subst L'. unfold PodsJson.decrement. rewrite H.
  fold count_down.
  set (o := PodsJson.update_count count_down (PodsJson.heap L l)).
  assert (Hl : ∀ d : bool,
    PodsJson.heap
      (if d then PodsJson.with_contents k
                  (delete key (PodsJson.contents k (PodsJson.store l o L)))
                  (PodsJson.store l o L)
       else PodsJson.store l o L) l = o).
  { intros []; rewrite ?heap_with_contents, heap_store; by rewrite decide_True. }
  rewrite Hl. split; [done |].
  destruct (drop && strict_eq (get_field o "count") (JNum 0)) eqn:Hd.
  - split.
    { intros l' Hne. by rewrite heap_with_contents, heap_store, decide_False. }
    split.
    + intros k' key' Hne. unfold PodsJson.get.
      rewrite contents_with_contents, !contents_store.
      case_decide; [subst k'|done].
      rewrite lookup_delete_ne; [done | congruence].
    + unfold PodsJson.get. rewrite contents_with_contents, decide_True by done.
      apply lookup_delete_eq.
  - split.
    { intros l' Hne. by rewrite heap_store, decide_False. }
    split.
    + intros k' key' _. unfold PodsJson.get. by rewrite contents_store.
    + unfold PodsJson.get. by rewrite contents_store.
Qed.

(** ** The manifest *)

Lemma put_elem_of {A : Type} `{EqDecision A} (x : A) (l : list A) :
  x ∈ Podfile.put x l.
Proof.
  unfold Podfile.put. case_decide; [done |].
  apply elem_of_app. right. by apply list_elem_of_singleton.
Qed.

Lemma put_pod_elem_of name spec (l : list (string * jsobj)) :
  (name, spec) ∈ Podfile.put_pod name spec l.
Proof.
  induction l as [|[n s] l IH]; simpl.
  - by apply list_elem_of_singleton.
  - destruct (String.eqb_spec n name) as [->|_].
    + by left.
    + by right.
Qed.

Lemma load_not_dirty m : Podfile.isDirty (Podfile.load m) = false.
Proof. unfold Podfile.isDirty. apply bool_decide_eq_false_2. by intros []. Qed.

Lemma count_up_recounted l (L : PodsJson.t) : recounted Z.succ l L (count_up l L).
Proof.
  split; [intros k; apply contents_store |].
  split; [unfold count_up; by rewrite heap_store, decide_True |].
  intros l' Hne. unfold count_up. by rewrite heap_store, decide_False.
Qed.

(** ** Running the loop bodies *)

Ltac eng_unfold :=
  unfold run, mbind, Eng_bind, mret, Eng_ret, getEntry, read, incrementEntry,
    with_ledger, with_podfile, emit, lift, addSpec, gone in *.

Section Steps.

Context {PluginInfo : Type}.
Variable plugin_id : PluginInfo → string.
Variable isSwiftPackagePlugin : PluginInfo → bool.
Variable proofDeclaration : string → string.
Variable drop_at_zero : bool.

Implicit Types (s : Session) (key : string) (l : loc) (plugin : PluginInfo).

Lemma run_bind {A B : Type} (m : Eng A) (k : A → Eng B) s :
  run (m ≫= k) s =
  match run m s with
  | (Returned a, s') => run (k a) s'
  | (Thrown e, s') => (Thrown e, s')
  end.
Proof. reflexivity. Qed.

(** *** Install *)

Lemma add_declaration_skipped decls key s :
  default JUndefined (obj_get decls key) ≠ JStr "true" →
  run (add_declaration proofDeclaration decls key) s = (Returned tt, s).
Proof.
  intros Hv. unfold add_declaration, strict_eq.
  by rewrite bool_decide_eq_false_2.
Qed.

Lemma add_declaration_present decls key s l :
  default JUndefined (obj_get decls key) = JStr "true" →
  PodsJson.get Declarations (proofDeclaration key) (podsjsonFile s) = Some l →
  run (add_declaration proofDeclaration decls key) s
  = (Returned tt,
     mkSession (count_up l (podsjsonFile s)) (podfileFile s) (emitted s)).
Proof.
  intros Hv Hget. unfold add_declaration, strict_eq.
  rewrite bool_decide_eq_true_2 by done.
  eng_unfold. rewrite Hget. unfold PodsJson.increment. by rewrite Hget.
Qed.

Lemma add_declaration_absent decls key s :
  default JUndefined (obj_get decls key) = JStr "true" →
  PodsJson.get Declarations (proofDeclaration key) (podsjsonFile s) = None →
  run (add_declaration proofDeclaration decls key) s
  = (Returned tt,
     mkSession
       (PodsJson.setJson Declarations (proofDeclaration key)
          (<["count" := JNum 1]> {[ "declaration" := JStr (proofDeclaration key) ]})
          (podsjsonFile s))
       (Podfile.addDeclaration (JStr (proofDeclaration key)) (podfileFile s))
       (emitted s)).
Proof.
  intros Hv Hget. unfold add_declaration, strict_eq.
  rewrite bool_decide_eq_true_2 by done.
  eng_unfold. by rewrite Hget.
Qed.

Lemma add_source_present (srcs : list (string * jsobj)) key s l :
  PodsJson.get Sources key (podsjsonFile s) = Some l →
  run (add_source srcs key) s
  = (Returned tt,
     mkSession (count_up l (podsjsonFile s)) (podfileFile s) (emitted s)).
Proof.
  intros Hget. unfold add_source.
  eng_unfold. rewrite Hget. unfold PodsJson.increment. by rewrite Hget.
Qed.

Lemma add_source_absent (srcs : list (string * jsobj)) key s :
  PodsJson.get Sources key (podsjsonFile s) = None →
  let src := get_field (default ∅ (obj_get srcs key)) "source" in
  run (add_source srcs key) s
  = (Returned tt,
     mkSession
       (PodsJson.setJson Sources key
          (<["count" := JNum 1]> {[ "source" := src ]}) (podsjsonFile s))
       (Podfile.addSource src (podfileFile s))
       (emitted s)).
Proof.
  intros Hget src. unfold add_source.
  eng_unfold. by rewrite Hget.
Qed.

Lemma add_library_skipped plugin options isSPM (libs : list (string * jsobj)) key s :
  wants_pod isSPM (default ∅ (obj_get libs key)) = false →
  run (add_library plugin_id plugin options isSPM libs key) s = (Returned tt, s).
Proof. intros Hg. unfold add_library. by rewrite Hg. Qed.

Lemma add_wants_podd plugin options isSPM (libs : list (string * jsobj)) key s :
  wants_pod isSPM (default ∅ (obj_get libs key)) = true →
  run (add_library plugin_id plugin options isSPM libs key) s
  = run (add_library_body plugin_id plugin options (default ∅ (obj_get libs key)) key) s.
Proof. intros Hg. unfold add_library. by rewrite Hg. Qed.

Lemma add_library_body_throws plugin options (podJson : jsobj) key s e :
  replacePodSpecVariables podJson options = Thrown e →
  run (add_library_body plugin_id plugin options podJson key) s = (Thrown e, s).
Proof. intros Hr. unfold add_library_body. eng_unfold. by rewrite Hr. Qed.

Lemma add_library_body_present plugin options (podJson podJson' : jsobj) key s l :
  replacePodSpecVariables podJson options = Returned podJson' →
  PodsJson.get Libraries key (podsjsonFile s) = Some l →
  run (add_library_body plugin_id plugin options podJson key) s
  = (Returned tt,
     mkSession (count_up l (podsjsonFile s)) (podfileFile s)
       (emitted s ++
        [Emit warn
           (conflict_message (plugin_id plugin) (get_field podJson' "name")
              (get_field (PodsJson.heap (podsjsonFile s) l) "spec"))])%list).
Proof.
  intros Hr Hget. unfold add_library_body.
  eng_unfold. rewrite Hr, Hget. simpl.
  unfold PodsJson.increment. by rewrite Hget.
Qed.

Lemma add_library_body_absent plugin options (podJson podJson' : jsobj) key s :
  replacePodSpecVariables podJson options = Returned podJson' →
  PodsJson.get Libraries key (podsjsonFile s) = None →
  let json := <["count" := JNum 1]> podJson' in
  let L := PodsJson.setJson Libraries key json (podsjsonFile s) in
  run (add_library_body plugin_id plugin options podJson key) s
  = match Podfile.addSpec (get_field json "name") json (podfileFile s) with
    | Returned P => (Returned tt, mkSession L P (emitted s))
    | Thrown e => (Thrown e, mkSession L (podfileFile s) (emitted s))
    end.
Proof.
  intros Hr Hget json L. unfold add_library_body.
  eng_unfold. rewrite Hr, Hget. simpl. done.
Qed.

(** *** Uninstall *)

Lemma remove_declaration_skipped plugin decls key s :
  default JUndefined (obj_get decls key) ≠ JStr "true" →
  run (remove_declaration plugin_id proofDeclaration drop_at_zero plugin decls key) s
  = (Returned tt, s).
Proof.
  intros Hv. unfold remove_declaration, strict_eq.
  by rewrite bool_decide_eq_false_2.
Qed.

Lemma remove_declaration_present plugin decls key s l :
  default JUndefined (obj_get decls key) = JStr "true" →
  PodsJson.get Declarations (proofDeclaration key) (podsjsonFile s) = Some l →
  let L := PodsJson.decrement drop_at_zero Declarations (proofDeclaration key)
             (podsjsonFile s) in
  run (remove_declaration plugin_id proofDeclaration drop_at_zero plugin decls key) s
  = (Returned tt,
     mkSession L
       (if strict_eq (get_field (PodsJson.heap L l) "count") (JNum 0)
        then Podfile.removeDeclaration (JStr (proofDeclaration key)) (podfileFile s)
        else podfileFile s)
       (emitted s)).
Proof.
  intros Hv Hget L. unfold remove_declaration.
  rewrite Hv. change (strict_eq (JStr "true") (JStr "true")) with true. cbv iota.
  eng_unfold. rewrite Hget. simpl. fold L.
  by destruct (strict_eq (get_field (PodsJson.heap L l) "count") (JNum 0)).
Qed.

Lemma remove_declaration_absent plugin decls key s :
  default JUndefined (obj_get decls key) = JStr "true" →
  PodsJson.get Declarations (proofDeclaration key) (podsjsonFile s) = None →
  run (remove_declaration plugin_id proofDeclaration drop_at_zero plugin decls key) s
  = (Returned tt,
     mkSession (podsjsonFile s)
       (Podfile.removeDeclaration (JStr (proofDeclaration key)) (podfileFile s))
       (emitted s ++
        [Emit verbose
           (missing_message (plugin_id plugin) "declaration"
              (JStr (proofDeclaration key)))])%list).
Proof.
  intros Hv Hget. unfold remove_declaration, strict_eq.
  rewrite bool_decide_eq_true_2 by done.
  eng_unfold. by rewrite Hget.
Qed.

Lemma remove_source_present plugin (srcs : list (string * jsobj)) key s l :
  PodsJson.get Sources key (podsjsonFile s) = Some l →
  let L := PodsJson.decrement drop_at_zero Sources key (podsjsonFile s) in
  run (remove_source plugin_id drop_at_zero plugin srcs key) s
  = (Returned tt,
     mkSession L
       (if strict_eq (get_field (PodsJson.heap L l) "count") (JNum 0)
        then Podfile.removeSource
               (get_field (default ∅ (obj_get srcs key)) "source") (podfileFile s)
        else podfileFile s)
       (emitted s)).
Proof.
  intros Hget L. unfold remove_source.
  eng_unfold. rewrite Hget. simpl. fold L.
  by destruct (strict_eq (get_field (PodsJson.heap L l) "count") (JNum 0)).
Qed.

Lemma remove_source_absent plugin (srcs : list (string * jsobj)) key s :
  PodsJson.get Sources key (podsjsonFile s) = None →
  let src := get_field (default ∅ (obj_get srcs key)) "source" in
  run (remove_source plugin_id drop_at_zero plugin srcs key) s
  = (Returned tt,
     mkSession (podsjsonFile s) (Podfile.removeSource src (podfileFile s))
       (emitted s ++
        [Emit verbose (missing_message (plugin_id plugin) "source" src)])%list).
Proof.
  intros Hget src. unfold remove_source.
  eng_unfold. by rewrite Hget.
Qed.

Lemma remove_library_skipped plugin options isSPM (libs : list (string * jsobj)) key s :
  wants_pod isSPM (default ∅ (obj_get libs key)) = false →
  run (remove_library plugin_id drop_at_zero plugin options isSPM libs key) s
  = (Returned tt, s).
Proof. intros Hg. unfold remove_library. by rewrite Hg. Qed.

Lemma remove_wants_podd plugin options isSPM (libs : list (string * jsobj)) key s :
  wants_pod isSPM (default ∅ (obj_get libs key)) = true →
  run (remove_library plugin_id drop_at_zero plugin options isSPM libs key) s
  = run (remove_library_body plugin_id drop_at_zero plugin options
           (default ∅ (obj_get libs key)) key) s.
Proof. intros Hg. unfold remove_library. by rewrite Hg. Qed.

Lemma remove_library_body_present plugin options (podJson podJson' : jsobj) key s l :
  replacePodSpecVariables podJson options = Returned podJson' →
  PodsJson.get Libraries key (podsjsonFile s) = Some l →
  let L := PodsJson.decrement drop_at_zero Libraries key (podsjsonFile s) in
  run (remove_library_body plugin_id drop_at_zero plugin options podJson key) s
  = (Returned tt,
     mkSession L
       (if strict_eq (get_field (PodsJson.heap L l) "count") (JNum 0)
        then Podfile.removeSpec (get_field podJson' "name") (podfileFile s)
        else podfileFile s)
       (emitted s)).
Proof.
  intros Hr Hget L. unfold remove_library_body.
  eng_unfold. rewrite Hr, Hget. simpl. fold L.
  by destruct (strict_eq (get_field (PodsJson.heap L l) "count") (JNum 0)).
Qed.

Lemma remove_library_body_absent plugin options (podJson podJson' : jsobj) key s :
  replacePodSpecVariables podJson options = Returned podJson' →
  PodsJson.get Libraries key (podsjsonFile s) = None →
  run (remove_library_body plugin_id drop_at_zero plugin options podJson key) s
  = (Returned tt,
     mkSession (podsjsonFile s)
       (Podfile.removeSpec (get_field podJson' "name") (podfileFile s))
       (emitted s ++
        [Emit verbose
           (missing_message (plugin_id plugin) "podspec"
              (get_field podJson' "name"))])%list).
Proof.
  intros Hr Hget. unfold remove_library_body.
  eng_unfold. by rewrite Hr, Hget.
Qed.

(** *** Units that are passed over *)

Lemma _isTrue_spec (v : jsval) :
  _isTrue v = true ↔
  v = JBool true
  ∨ (∃ str, v = JStr str ∧ JsString.toLowerCase str = "true")
  ∨ v = JNum 1.
Proof.
  unfold _isTrue, strict_eq. split.
  - intros H. repeat (apply orb_prop in H as [H|H]).
    + left. by apply bool_decide_eq_true in H.
    + right. left. destruct v; try done. exists s. split; [done |].
      by apply String.eqb_eq.
    + right. right. by apply bool_decide_eq_true in H.
  - intros [->|[(str & -> & Hl)| ->]]; [done | | done].
    simpl. rewrite Hl. done.
Qed.

Lemma wants_pod_false (isSPM : bool) (podJson : jsobj) :
  wants_pod isSPM podJson = false ↔
  isSPM = true ∧ _isTrue (get_field podJson "nospm") = true.
Proof.
  unfold wants_pod. destruct isSPM, (_isTrue (get_field podJson "nospm"));
    simpl; intuition congruence.
Qed.


(** C9.  A declaration whose value is anything but the string ['true'] is
    passed over by install and by uninstall: the bodies return without
    touching the ledger, the [Podfile] or the event channel. *)
Theorem declaration_needs_string_true plugin (decls : list (string * jsval)) key s :
  default JUndefined (obj_get decls key) ≠ JStr "true" →
  run (add_declaration proofDeclaration decls key) s = (Returned tt, s)
  ∧ run (remove_declaration plugin_id proofDeclaration drop_at_zero plugin decls key) s
    = (Returned tt, s).
Proof.
  intros Hv. split;
    [by apply add_declaration_skipped | by apply remove_declaration_skipped].
Qed.

End Steps.

(** ** The statements at work on a project *)



Lemma declaration_needs_string_true_witness :
  run (add_declaration demo_proofDeclaration demo_declarations "use_modular_headers!")
      demo_session = (Returned tt, demo_session)
  ∧ run (remove_declaration demo_id demo_proofDeclaration true plugin_A
           demo_declarations "inhibit_all_warnings!") demo_session
    = (Returned tt, demo_session).
Proof.
  split.
  - apply (declaration_needs_string_true demo_id demo_proofDeclaration true plugin_A
             demo_declarations "use_modular_headers!" demo_session).
    by_compute.
  - apply (declaration_needs_string_true demo_id demo_proofDeclaration true plugin_A
             demo_declarations "inhibit_all_warnings!" demo_session).
    by_compute.
Defined.

(** ** Whole calls *)

Lemma run_bind_returned {A B : Type} (m : Eng A) (k : A → Eng B) s s' b :
  run (m ≫= k) s = (Returned b, s') →
  ∃ a s1, run m s = (Returned a, s1) ∧ run (k a) s1 = (Returned b, s').
Proof.
  unfold run, mbind, Eng_bind. destruct (m s) as [[a|e] s1]; [|done].
  intros H. by exists a, s1.
Qed.

Lemma forEach_returned {A I : Type} (G : list I → Session → Session → Prop)
    (t : A → list I) (f : A → Eng unit) :
  (∀ s, G [] s s) →
  (∀ K1 K2 s1 s2 s3, G K1 s1 s2 → G K2 s2 s3 → G (K1 ++ K2)%list s1 s3) →
  (∀ x s s', run (f x) s = (Returned tt, s') → G (t x) s s') →
  ∀ l s s', run (forEach l f) s = (Returned tt, s') → G (flat_map t l) s s'.
Proof.
  intros Hnil Happ Hf. induction l as [|x l IH]; intros s s' Hrun.
  - injection Hrun as <-. apply Hnil.
  - apply run_bind_returned in Hrun as ([] & s1 & H1 & H2).
    simpl. eapply Happ; [by apply Hf | by apply IH].
Qed.

Lemma forEach_returned_Forall {A : Type} (Q : A → Prop) (f : A → Eng unit) :
  (∀ x s s', run (f x) s = (Returned tt, s') → Q x) →
  ∀ l s s', run (forEach l f) s = (Returned tt, s') → Forall Q l.
Proof.
  intros Hf. induction l as [|x l IH]; intros s s' Hrun; [constructor |].
  apply run_bind_returned in Hrun as ([] & s1 & H1 & H2).
  constructor; [by eapply Hf | by eapply IH].
Qed.

Lemma forEach_returns {A : Type} (f : A → Eng unit) (l : list A) :
  (∀ x s, ∃ s', run (f x) s = (Returned tt, s')) →
  ∀ s, ∃ s', run (forEach l f) s = (Returned tt, s').
Proof.
  intros Hf. induction l as [|x l IH]; intros s; [by exists s |].
  destruct (Hf x s) as (s1 & H1). destruct (IH s1) as (s2 & H2).
  exists s2. simpl. rewrite run_bind, H1. exact H2.
Qed.

Lemma actions_events (evs : list event) : actions (Event <$> evs) = [].
Proof. induction evs as [|e evs IH]; [done |]. simpl. exact IH. Qed.

Lemma added_app (w : World) pj pf (tr : list effect) :
  added w (mkWorld pj pf (trace w ++ tr)%list) = tr.
Proof. unfold added. simpl. by rewrite drop_app_length. Qed.

Section Calls.

Context {PluginInfo : Type}.
Variable plugin_id : PluginInfo → string.
Variable isSwiftPackagePlugin : PluginInfo → bool.
Variable proofDeclaration : string → string.
Variable drop_at_zero : bool.

Implicit Types (s : Session) (key : string) (l : loc) (plugin : PluginInfo)
  (w : World) (obj : PodSpec).

(** *** Missing sections *)

Lemma remove_declaration_returns plugin decls key s :
  ∃ s', run (remove_declaration plugin_id proofDeclaration drop_at_zero plugin
               decls key) s = (Returned tt, s')
        ∧ Podfile.loaded (podfileFile s') = Podfile.loaded (podfileFile s).
Proof.
  destruct (decide (default JUndefined (obj_get decls key) = JStr "true")) as [Hv|Hv].
  - destruct (PodsJson.get Declarations (proofDeclaration key) (podsjsonFile s))
      as [l|] eqn:Hget.
    + eexists. split; [by apply remove_declaration_present |].
      simpl. by destruct (strict_eq _ _).
    + eexists. split; [by apply remove_declaration_absent | done].
  - exists s. split; [by apply remove_declaration_skipped | done].
Qed.

Lemma remove_source_returns plugin (srcs : list (string * jsobj)) key s :
  ∃ s', run (remove_source plugin_id drop_at_zero plugin srcs key) s = (Returned tt, s')
        ∧ Podfile.loaded (podfileFile s') = Podfile.loaded (podfileFile s).
Proof.
  destruct (PodsJson.get Sources key (podsjsonFile s)) as [l|] eqn:Hget.
  - eexists. split; [by apply remove_source_present |].
    simpl. by destruct (strict_eq _ _).
  - eexists. split; [by apply remove_source_absent | done].
Qed.

Lemma remove_library_loaded plugin options isSPM (libs : list (string * jsobj)) key s s' :
  run (remove_library plugin_id drop_at_zero plugin options isSPM libs key) s
  = (Returned tt, s') →
  Podfile.loaded (podfileFile s') = Podfile.loaded (podfileFile s).
Proof.
  destruct (wants_pod isSPM (default ∅ (obj_get libs key))) eqn:Hg.
  - rewrite (remove_wants_podd _ _ _ _ _ _ _ _ Hg).
    destruct (replacePodSpecVariables (default ∅ (obj_get libs key)) options)
      as [podJson|e] eqn:Hr.
    + destruct (PodsJson.get Libraries key (podsjsonFile s)) as [l|] eqn:Hget.
      * rewrite (remove_library_body_present _ _ _ _ _ _ _ _ _ Hr Hget).
        intros [= <-]. simpl. by destruct (strict_eq _ _).
      * rewrite (remove_library_body_absent _ _ _ _ _ _ _ _ Hr Hget).
        by intros [= <-].
    + unfold remove_library_body. eng_unfold. by rewrite Hr.
  - rewrite (remove_library_skipped _ _ _ _ _ _ _ _ Hg). by intros [= <-].
Qed.

Lemma remove_podSpec_throws plugin options obj s :
  declarations obj = None ∨ sources obj = None ∨ libraries obj = None →
  ∃ s', run (remove_podSpec plugin_id isSwiftPackagePlugin proofDeclaration
               drop_at_zero plugin options obj) s = (Thrown TypeError, s').
Proof.
  intros Hmiss. unfold remove_podSpec. rewrite run_bind.
  destruct (declarations obj) as [decls|]; [|by eexists].
  destruct (forEach_returns
              (remove_declaration plugin_id proofDeclaration drop_at_zero plugin decls)
              (obj_keys decls)) with (s := s) as (s1 & H1).
  { intros key s0. destruct (remove_declaration_returns plugin decls key s0)
      as (s' & H & _). by exists s'. }
  unfold forEachKey at 1. rewrite H1, run_bind.
  destruct (sources obj) as [srcs|]; [|by eexists].
  destruct (forEach_returns (remove_source plugin_id drop_at_zero plugin srcs)
              (obj_keys srcs)) with (s := s1) as (s2 & H2).
  { intros key s0. destruct (remove_source_returns plugin srcs key s0)
      as (s' & H & _). by exists s'. }
  unfold forEachKey at 1. rewrite H2.
  destruct (libraries obj) as [libs|]; [|by eexists].
  by destruct Hmiss as [?|[?|?]].
Qed.

Lemma add_podSpec_guarded plugin options obj s :
  run (add_podSpec plugin_id isSwiftPackagePlugin proofDeclaration plugin options obj) s
  = run (add_podSpec plugin_id isSwiftPackagePlugin proofDeclaration plugin options
           (guarded obj)) s.
Proof.
  unfold add_podSpec, guarded. simpl.
  destruct (declarations obj), (sources obj), (libraries obj); reflexivity.
Qed.

(** C10.  Install skips a section that is missing, as if it were empty;
    uninstall enumerates the three sections whatever they are, so that a
    call of [removePodSpecs] whose first pod spec lacks a section throws a
    [TypeError] and leaves both files as they were, while [addPodSpecs] of
    a pod spec that lacks all three returns. *)
Theorem uninstall_throws_where_install_skips plugin options :
  (∀ obj s,
     run (add_podSpec plugin_id isSwiftPackagePlugin proofDeclaration plugin options
            obj) s
     = run (add_podSpec plugin_id isSwiftPackagePlugin proofDeclaration plugin options
              (guarded obj)) s)
  ∧ (∀ obj rest w,
       declarations obj = None ∨ sources obj = None ∨ libraries obj = None →
       ∃ w', removePodSpecs plugin_id isSwiftPackagePlugin proofDeclaration
               drop_at_zero plugin (obj :: rest) options w = (Thrown TypeError, w')
             ∧ pods_json w' = pods_json w ∧ podfile w' = podfile w
             ∧ actions (added w w') = [])
  ∧ (∀ w, (addPodSpecs plugin_id isSwiftPackagePlugin proofDeclaration plugin
             [mkPodSpec None None None] options w).1 = Returned tt).
Proof.
  split; [intros; apply add_podSpec_guarded |]. split; [|done].
  intros obj rest w Hmiss. unfold removePodSpecs, remove_all.
  rewrite run_bind.
  change (run (emit verbose _) (open_session w))
    with (Returned tt,
          mkSession (PodsJson.load (pods_json w)) (Podfile.load (podfile w))
            [Emit verbose "Adding pods since the plugin contained <podspecs>"]).
  cbn [forEach]. rewrite run_bind.
  destruct (remove_podSpec_throws plugin options obj
              (mkSession (PodsJson.load (pods_json w)) (Podfile.load (podfile w))
                 [Emit verbose "Adding pods since the plugin contained <podspecs>"])
              Hmiss) as (s' & ->).
  eexists. split; [done |]. unfold abort. simpl.
  split; [done |]. split; [done |].
  rewrite added_app. apply actions_events.
Qed.

(** *** Install, one step at a time *)

Lemma has_count_up l (L : PodsJson.t) kk : has (count_up l L) kk ↔ has L kk.
Proof. unfold has, PodsJson.get, count_up. by rewrite contents_store. Qed.

Lemma get_setJson k key json (L : PodsJson.t) k' key' :
  PodsJson.get k' key' (PodsJson.setJson k key json L)
  = if decide ((k', key') = (k, key)) then Some (Fresh (PodsJson.next L))
    else PodsJson.get k' key' L.
Proof.
  unfold PodsJson.get, PodsJson.setJson.
  case_decide as Heq.
  - injection Heq as -> ->. destruct k; simpl; apply lookup_insert_eq.
  - destruct k, k'; simpl; try done;
      (rewrite lookup_insert_ne; [done | congruence]).
Qed.

Lemma heap_setJson k key json (L : PodsJson.t) l :
  PodsJson.heap (PodsJson.setJson k key json L) l
  = if decide (l = Fresh (PodsJson.next L)) then <["count" := JNum 1]> json
    else PodsJson.heap L l.
Proof. unfold PodsJson.setJson. simpl. by rewrite heap_with_contents, heap_store. Qed.

Lemma has_setJson k key json (L : PodsJson.t) kk :
  has (PodsJson.setJson k key json L) kk ↔ kk = (k, key) ∨ has L kk.
Proof.
  destruct kk as [k' key']. unfold has. simpl. rewrite get_setJson.
  case_decide as Heq; [|split; [auto | by intros [?|?]]].
  split; [auto | by intros _].
Qed.

Lemma install_step_has s s' kk :
  install_step s s' → has (podsjsonFile s) kk → has (podsjsonFile s') kk.
Proof.
  destruct 1; simpl; [done | by rewrite has_count_up |].
  rewrite has_setJson. auto.
Qed.

Lemma addSpec_loaded name spec (P P' : Podfile.t) :
  Podfile.addSpec name spec P = Returned P' →
  Podfile.loaded P' = Podfile.loaded P
  ∧ ∃ n, name = JStr n
         ∧ Podfile.m_declarations (Podfile.current P')
           = Podfile.m_declarations (Podfile.current P)
         ∧ Podfile.m_sources (Podfile.current P')
           = Podfile.m_sources (Podfile.current P)
         ∧ Podfile.m_pods (Podfile.current P')
           = Podfile.put_pod n spec (Podfile.m_pods (Podfile.current P)).
Proof.
  unfold Podfile.addSpec. destruct name as [| | | |[|a n]|]; try done.
  intros [= <-]. split; [done |]. by exists (String a n).
Qed.

Lemma install_step_loaded s s' :
  install_step s s' →
  Podfile.loaded (podfileFile s') = Podfile.loaded (podfileFile s).
Proof.
  destruct 1 as [|k key l evs Hget|k key json P' Hget Hent]; simpl; [done | done |].
  destruct k; simpl in Hent; [by subst | by subst |].
  by apply addSpec_loaded in Hent as [? _].
Qed.

Lemma put_subseteq {A : Type} `{EqDecision A} (x y : A) (l : list A) :
  y ∈ l → y ∈ Podfile.put x l.
Proof. unfold Podfile.put. case_decide; [done |]. rewrite elem_of_app. auto. Qed.

Lemma put_pod_names name spec (l : list (string * jsobj)) n :
  n ∈ (Podfile.put_pod name spec l).*1 ↔ n = name ∨ n ∈ l.*1.
Proof.
  induction l as [|[n' s'] l IH]; simpl.
  - rewrite list_elem_of_singleton, elem_of_nil. tauto.
  - destruct (String.eqb_spec n' name) as [->|Hne]; simpl.
    + rewrite !elem_of_cons. tauto.
    + rewrite !elem_of_cons, IH. tauto.
Qed.

Lemma listed_enters k key json (P P' : Podfile.t) k' key' e :
  enters k key json P P' →
  listed (Podfile.current P) k' key' e → listed (Podfile.current P') k' key' e.
Proof.
  intros Hent. destruct k; simpl in Hent.
  - subst P'. destruct k'; simpl; [apply put_subseteq | done | done].
  - subst P'. destruct k'; simpl; [done | apply put_subseteq | done].
  - apply addSpec_loaded in Hent as (_ & n & _ & Hd & Hs & Hp).
    destruct k'; simpl; rewrite ?Hd, ?Hs, ?Hp; try done.
    destruct (get_field e "name"); try done.
    rewrite put_pod_names. auto.
Qed.

Lemma listed_entered k key json (P P' : Podfile.t) :
  enters k key json P P' →
  listed (Podfile.current P') k key (<["count" := JNum 1]> json).
Proof.
  intros Hent. destruct k; simpl in *.
  - subst P'. simpl. apply put_elem_of.
  - subst P'. simpl.
    replace (get_field (<["count" := JNum 1]> json) "source")
      with (get_field json "source")
      by (unfold get_field; by rewrite lookup_insert_ne).
    apply put_elem_of.
  - replace (get_field (<["count" := JNum 1]> json) "name")
      with (get_field json "name")
      by (unfold get_field; by rewrite lookup_insert_ne).
    apply addSpec_loaded in Hent as (_ & n & -> & _ & _ & Hp).
    rewrite Hp, put_pod_names. auto.
Qed.

Lemma listed_update_count m k key f (e : jsobj) :
  listed m k key (PodsJson.update_count f e) ↔ listed m k key e.
Proof.
  destruct k; simpl; [done | |];
    unfold get_field; by rewrite update_count_payload.
Qed.

Lemma install_step_consistent s s' :
  install_step s s' → consistent_session s → consistent_session s'.
Proof.
  destruct 1 as [|k key l evs Hget|k key json P' Hget Hent]; [done | |].
  - intros [Hwf Hl]. split; cbn [podsjsonFile podfileFile].
    + intros k' key' n. unfold PodsJson.get, count_up.
      rewrite contents_store. apply Hwf.
    + intros k' key' l'. unfold PodsJson.get, count_up.
      rewrite contents_store, heap_store. intros Hget'.
      case_decide; [subst l'; apply listed_update_count |]; by apply Hl.
  - intros [Hwf Hl]. split; cbn [podsjsonFile podfileFile].
    + intros k' key' n. rewrite get_setJson. case_decide.
      * intros [= <-]. simpl. lia.
      * intros Hold%Hwf. simpl. lia.
    + intros k' key' l'. rewrite get_setJson, heap_setJson, insert_insert_eq.
      case_decide as Heq.
      * injection Heq as -> ->. intros [= <-]. rewrite decide_True by done.
        by eapply listed_entered.
      * intros Hold. case_decide as Hl'.
        { subst l'. apply Hwf in Hold. lia. }
        eapply listed_enters; [done |]. by apply Hl.
Qed.

Lemma installs_nil s : installs [] s s.
Proof. split; [done |]. split; [constructor |]. by split. Qed.

Lemma installs_app K1 K2 s1 s2 s3 :
  installs K1 s1 s2 → installs K2 s2 s3 → installs (K1 ++ K2)%list s1 s3.
Proof.
  intros (Hm1 & Hk1 & Hl1 & Hc1) (Hm2 & Hk2 & Hl2 & Hc2).
  split; [auto |]. split; [|split; [congruence | auto]].
  apply Forall_app. split; [|done]. eapply Forall_impl; [exact Hk1 | auto].
Qed.

Lemma install_step_installs K s s' :
  install_step s s' → Forall (has (podsjsonFile s')) K → installs K s s'.
Proof.
  intros Hstep HK. split; [|split; [done |split]].
  - intros kk. by apply install_step_has.
  - by apply install_step_loaded.
  - by apply install_step_consistent.
Qed.

Lemma install_count_here k key l s :
  PodsJson.get k key (podsjsonFile s) = Some l →
  ∀ evs,
    installs [(k, key)] s
      (mkSession (count_up l (podsjsonFile s)) (podfileFile s) (emitted s ++ evs)%list).
Proof.
  intros Hget evs. apply install_step_installs; [by eapply install_count |].
  apply Forall_singleton. simpl. apply has_count_up. by exists l.
Qed.

Lemma install_register_here k key json P' s :
  PodsJson.get k key (podsjsonFile s) = None →
  enters k key json (podfileFile s) P' →
  installs [(k, key)] s
    (mkSession (PodsJson.setJson k key (<["count" := JNum 1]> json) (podsjsonFile s))
       P' (emitted s)).
Proof.
  intros Hget Hent. apply install_step_installs; [by apply install_register |].
  apply Forall_singleton. simpl. apply has_setJson. by left.
Qed.

Lemma add_declaration_installs decls key s s' :
  run (add_declaration proofDeclaration decls key) s = (Returned tt, s') →
  installs (touched_declaration proofDeclaration decls key) s s'.
Proof.
  unfold touched_declaration, strict_eq. case_bool_decide as Hv.
  - destruct (PodsJson.get Declarations (proofDeclaration key) (podsjsonFile s))
      as [l|] eqn:Hget.
    + rewrite (add_declaration_present _ _ _ _ _ Hv Hget). intros [= <-].
      rewrite <- (app_nil_r (emitted s)). by apply install_count_here.
    + rewrite (add_declaration_absent _ _ _ _ Hv Hget). intros [= <-].
      by apply install_register_here.
  - rewrite (add_declaration_skipped _ _ _ _ Hv). intros [= <-]. apply installs_nil.
Qed.

Lemma add_source_installs (srcs : list (string * jsobj)) key s s' :
  run (add_source srcs key) s = (Returned tt, s') →
  installs (touched_source key) s s'.
Proof.
  unfold touched_source.
  destruct (PodsJson.get Sources key (podsjsonFile s)) as [l|] eqn:Hget.
  - rewrite (add_source_present _ _ _ _ Hget). intros [= <-].
    rewrite <- (app_nil_r (emitted s)). by apply install_count_here.
  - rewrite (add_source_absent _ _ _ Hget). intros [= <-].
    by apply install_register_here.
Qed.

Lemma add_library_installs plugin options isSPM (libs : list (string * jsobj)) key s s' :
  run (add_library plugin_id plugin options isSPM libs key) s = (Returned tt, s') →
  installs (touched_library isSPM libs key) s s'
  ∧ resolves options isSPM libs key.
Proof.
  unfold touched_library, resolves.
  destruct (wants_pod isSPM (default ∅ (obj_get libs key))) eqn:Hg.
  - rewrite (add_wants_podd _ _ _ _ _ _ _ Hg).
    destruct (replacePodSpecVariables (default ∅ (obj_get libs key)) options)
      as [podJson|e] eqn:Hr.
    + intros Hrun. split; [|by eauto].
      destruct (PodsJson.get Libraries key (podsjsonFile s)) as [l|] eqn:Hget.
      * rewrite (add_library_body_present _ _ _ _ _ _ _ _ Hr Hget) in Hrun.
        injection Hrun as <-. by apply install_count_here.
      * rewrite (add_library_body_absent _ _ _ _ _ _ _ Hr Hget) in Hrun.
        destruct (Podfile.addSpec _ _ _) as [P'|e] eqn:Hadd in Hrun; [|done].
        injection Hrun as <-. apply install_register_here; [done |].
        simpl. rewrite <- Hadd. f_equal.
        unfold get_field. by rewrite lookup_insert_ne.
    + by rewrite (add_library_body_throws _ _ _ _ _ _ _ Hr).
  - rewrite (add_library_skipped _ _ _ _ _ _ _ Hg). intros [= <-].
    split; [apply installs_nil | done].
Qed.

Lemma add_podSpec_installs plugin options obj s s' :
  run (add_podSpec plugin_id isSwiftPackagePlugin proofDeclaration plugin options obj) s
  = (Returned tt, s') →
  installs (touched_podSpec isSwiftPackagePlugin proofDeclaration plugin obj) s s'
  ∧ resolvable isSwiftPackagePlugin plugin options obj.
Proof.
  rewrite add_podSpec_guarded. unfold add_podSpec, guarded, touched_podSpec, resolvable.
  cbn [declarations sources libraries forEachKey].
  intros Hrun.
  apply run_bind_returned in Hrun as ([] & s1 & H1 & Hrun).
  apply run_bind_returned in Hrun as ([] & s2 & H2 & H3).
  split.
  - apply installs_app with s1; [|apply installs_app with s2].
    + eapply forEach_returned; [apply installs_nil | apply installs_app | | exact H1].
      apply add_declaration_installs.
    + eapply forEach_returned; [apply installs_nil | apply installs_app | | exact H2].
      apply add_source_installs.
    + eapply forEach_returned; [apply installs_nil | apply installs_app | | exact H3].
      intros key s0 s0' H0. by apply add_library_installs in H0 as [? _].
  - eapply forEach_returned_Forall; [|exact H3].
    intros key s0 s0' H0. by apply add_library_installs in H0 as [_ ?].
Qed.

Lemma add_all_installs plugin podSpecs options s s' :
  run (add_all plugin_id isSwiftPackagePlugin proofDeclaration plugin podSpecs options) s
  = (Returned tt, s') →
  installs (touched isSwiftPackagePlugin proofDeclaration plugin podSpecs) s s'
  ∧ Forall (resolvable isSwiftPackagePlugin plugin options) podSpecs.
Proof.
  unfold add_all. intros Hrun.
  apply run_bind_returned in Hrun as ([] & s1 & H1 & H2).
  injection H1 as <-. split.
  - eapply forEach_returned in H2;
      [|apply installs_nil | apply installs_app
       |intros obj s0 s0' H0; apply add_podSpec_installs in H0 as [H0 _]; exact H0].
    exact H2.
  - eapply forEach_returned_Forall; [|exact H2].
    intros obj s0 s0' H0. by apply add_podSpec_installs in H0 as [_ ?].
Qed.

(** *** Uninstall keeps what the [Podfile] was loaded with *)

Lemma forEach_loaded {A : Type} (f : A → Eng unit) :
  (∀ x s s', run (f x) s = (Returned tt, s') →
             Podfile.loaded (podfileFile s') = Podfile.loaded (podfileFile s)) →
  ∀ (xs : list A) s s', run (forEach xs f) s = (Returned tt, s') →
            Podfile.loaded (podfileFile s') = Podfile.loaded (podfileFile s).
Proof.
  intros Hf xs s s' Hrun.
  apply (forEach_returned (I := unit)
           (λ _ s s', Podfile.loaded (podfileFile s') = Podfile.loaded (podfileFile s))
           (λ _, []) f) with (l := xs); [done | congruence | exact Hf | exact Hrun].
Qed.

Lemma remove_podSpec_loaded plugin options obj s s' :
  run (remove_podSpec plugin_id isSwiftPackagePlugin proofDeclaration drop_at_zero
         plugin options obj) s = (Returned tt, s') →
  Podfile.loaded (podfileFile s') = Podfile.loaded (podfileFile s).
Proof.
  unfold remove_podSpec. intros Hrun.
  apply run_bind_returned in Hrun as ([] & s1 & H1 & Hrun).
  apply run_bind_returned in Hrun as ([] & s2 & H2 & H3).
  destruct (declarations obj) as [decls|]; [|done].
  destruct (sources obj) as [srcs|]; [|done].
  destruct (libraries obj) as [libs|]; [|done].
  cbn [forEachKey] in *.
  apply forEach_loaded in H1, H2, H3; [congruence | | |].
  - intros key s0 s0'. apply remove_library_loaded.
  - intros key s0 s0' H0.
    destruct (remove_source_returns plugin srcs key s0) as (s'' & Hr & Hl).
    congruence.
  - intros key s0 s0' H0.
    destruct (remove_declaration_returns plugin decls key s0) as (s'' & Hr & Hl).
    congruence.
Qed.

Lemma remove_all_loaded plugin podSpecs options s s' :
  run (remove_all plugin_id isSwiftPackagePlugin proofDeclaration drop_at_zero
         plugin podSpecs options) s = (Returned tt, s') →
  Podfile.loaded (podfileFile s') = Podfile.loaded (podfileFile s).
Proof.
  unfold remove_all. intros Hrun.
  apply run_bind_returned in Hrun as ([] & s1 & H1 & H2).
  injection H1 as <-.
  apply forEach_loaded in H2; [exact H2 |].
  intros obj s0 s0'. apply remove_podSpec_loaded.
Qed.

(** *** The end of a call *)

Lemma finish_spec purge running w s :
  Podfile.loaded (podfileFile s) = podfile w →
  let w' := finish purge running w s in
  pods_json w' = PodsJson.serialize (podsjsonFile s)
  ∧ (Podfile.isDirty (podfileFile s) = true
     ↔ Podfile.current (podfileFile s) ≠ podfile w)
  ∧ (if Podfile.isDirty (podfileFile s)
     then actions (added w w')
          = (WritePodsJson :: WritePodfile
             :: (if purge then [PurgeProjectFileCache] else []) ++ [PodInstall])%list
          ∧ podfile w' = Podfile.current (podfileFile s)
     else actions (added w w') = [WritePodsJson] ∧ podfile w' = podfile w)
  ∧ podfile w' = Podfile.current (podfileFile s).
Proof.
  intros Hl w'. subst w'. unfold finish.
  assert (Hd : Podfile.isDirty (podfileFile s) = true
               ↔ Podfile.current (podfileFile s) ≠ podfile w).
  { unfold Podfile.isDirty. rewrite Hl. apply bool_decide_eq_true. }
  assert (Hact : ∀ tl,
    actions ((Event <$> emitted s) ++ [WritePodsJson] ++ tl)%list
    = (WritePodsJson :: actions tl)%list).
  { intros tl. unfold actions. rewrite filter_app.
    fold (actions (Event <$> emitted s)). by rewrite actions_events. }
  destruct (Podfile.isDirty (podfileFile s)) eqn:Hdirty.
  - split; [done |]. split; [done |]. split; [|done]. split; [|done].
    rewrite <- !(assoc_L (++)%list), added_app, Hact. by destruct purge.
  - split; [done |]. split; [done |].
    assert (Podfile.current (podfileFile s) = podfile w) as Hsame.
    { destruct (decide (Podfile.current (podfileFile s) = podfile w)); [done |].
      by apply Hd in n. }
    split; [|done]. split; [|done].
    by rewrite <- !(assoc_L (++)%list), added_app, Hact.
Qed.

Lemma thrown_call_writes_nothing plugin podSpecs options w e s :
  (run (add_all plugin_id isSwiftPackagePlugin proofDeclaration plugin podSpecs options)
       (open_session w) = (Thrown e, s) →
   ∃ w', addPodSpecs plugin_id isSwiftPackagePlugin proofDeclaration plugin podSpecs
           options w = (Thrown e, w')
         ∧ pods_json w' = pods_json w ∧ podfile w' = podfile w
         ∧ actions (added w w') = [])
  ∧ (run (remove_all plugin_id isSwiftPackagePlugin proofDeclaration drop_at_zero
            plugin podSpecs options) (open_session w) = (Thrown e, s) →
     ∃ w', removePodSpecs plugin_id isSwiftPackagePlugin proofDeclaration drop_at_zero
             plugin podSpecs options w = (Thrown e, w')
           ∧ pods_json w' = pods_json w ∧ podfile w' = podfile w
           ∧ actions (added w w') = []).
Proof.
  split; intros Hrun.
  - destruct podSpecs as [|obj rest]; [done |].
    unfold addPodSpecs. rewrite Hrun. eexists. split; [done |].
    unfold abort. cbn [pods_json podfile]. rewrite added_app.
    auto using actions_events.
  - destruct podSpecs as [|obj rest]; [done |].
    unfold removePodSpecs. rewrite Hrun. eexists. split; [done |].
    unfold abort. cbn [pods_json podfile]. rewrite added_app.
    auto using actions_events.
Qed.

(** C4.  A call of [addPodSpecs] or [removePodSpecs] with a list of pod
    specs that is not empty, whose units are all processed without a throw,
    returns; it has written [pods.json] once, with the ledger as it is after
    all the units; the [Podfile] is dirty exactly when its content is not
    what was loaded; and when it is dirty the call has then written the
    [Podfile] and run [pod install], once each and in that order, and when
    it is not it has done neither and the [Podfile] on disk is as it was. *)
Theorem ledger_written_once_podfile_only_when_dirty plugin podSpecs options w s :
  podSpecs ≠ [] →
  (run (add_all plugin_id isSwiftPackagePlugin proofDeclaration plugin podSpecs options)
       (open_session w) = (Returned tt, s) →
   ∃ w', addPodSpecs plugin_id isSwiftPackagePlugin proofDeclaration plugin podSpecs
           options w = (Returned tt, w')
     ∧ pods_json w' = PodsJson.serialize (podsjsonFile s)
     ∧ (Podfile.isDirty (podfileFile s) = true
        ↔ Podfile.current (podfileFile s) ≠ podfile w)
     ∧ (if Podfile.isDirty (podfileFile s)
        then actions (added w w')
             = [WritePodsJson; WritePodfile; PurgeProjectFileCache; PodInstall]
             ∧ podfile w' = Podfile.current (podfileFile s)
        else actions (added w w') = [WritePodsJson] ∧ podfile w' = podfile w))
  ∧ (run (remove_all plugin_id isSwiftPackagePlugin proofDeclaration drop_at_zero
            plugin podSpecs options) (open_session w) = (Returned tt, s) →
     ∃ w', removePodSpecs plugin_id isSwiftPackagePlugin proofDeclaration drop_at_zero
             plugin podSpecs options w = (Returned tt, w')
       ∧ pods_json w' = PodsJson.serialize (podsjsonFile s)
       ∧ (Podfile.isDirty (podfileFile s) = true
          ↔ Podfile.current (podfileFile s) ≠ podfile w)
       ∧ (if Podfile.isDirty (podfileFile s)
          then actions (added w w') = [WritePodsJson; WritePodfile; PodInstall]
               ∧ podfile w' = Podfile.current (podfileFile s)
          else actions (added w w') = [WritePodsJson] ∧ podfile w' = podfile w)).
Proof.
  intros Hne. split; intros Hrun.
  - assert (Podfile.loaded (podfileFile s) = podfile w) as Hl.
    { apply add_all_installs in Hrun as [(_ & _ & Hl & _) _]. exact Hl. }
    destruct (finish_spec true "Running `pod install` (to install plugins)" w s Hl)
      as (H1 & H2 & H3 & _).
    eexists. split; [|split; [exact H1 |split; [exact H2 | exact H3]]].
    unfold addPodSpecs. destruct podSpecs; [done |]. by rewrite Hrun.
  - assert (Podfile.loaded (podfileFile s) = podfile w) as Hl.
    { by apply remove_all_loaded in Hrun. }
    destruct (finish_spec false "Running `pod install` (to uninstall pods)" w s Hl)
      as (H1 & H2 & H3 & _).
    eexists. split; [|split; [exact H1 |split; [exact H2 | exact H3]]].
    unfold removePodSpecs. destruct podSpecs; [done |]. by rewrite Hrun.
Qed.

(** *** Install where every unit is in the ledger already *)

Lemma contents_bump (L : PodsJson.t) kk k :
  PodsJson.contents k (bump L kk) = PodsJson.contents k L.
Proof.
  unfold bump. destruct (PodsJson.get kk.1 kk.2 L); [|done].
  apply contents_store.
Qed.

Lemma contents_bump_all K (L : PodsJson.t) k :
  PodsJson.contents k (bump_all K L) = PodsJson.contents k L.
Proof.
  revert L. induction K as [|kk K IH]; intros L; [done |].
  simpl. by rewrite IH, contents_bump.
Qed.

Lemma has_bump_all K (L : PodsJson.t) kk : has (bump_all K L) kk ↔ has L kk.
Proof. unfold has, PodsJson.get. by rewrite contents_bump_all. Qed.

Lemma bump_all_app K1 K2 (L : PodsJson.t) :
  bump_all (K1 ++ K2) L = bump_all K2 (bump_all K1 L).
Proof. apply foldl_app. Qed.

Lemma quiet_ret : quiet [] (mret tt).
Proof. intros [L P evs] _. exists []. simpl. by rewrite app_nil_r. Qed.

Lemma quiet_bind K1 K2 (m1 m2 : Eng unit) :
  quiet K1 m1 → quiet K2 m2 → quiet (K1 ++ K2) (m1;; m2).
Proof.
  intros H1 H2 s [HK1 HK2]%Forall_app.
  destruct (H1 s HK1) as (evs1 & Hr1). rewrite run_bind, Hr1.
  destruct (H2 (mkSession (bump_all K1 (podsjsonFile s)) (podfileFile s)
                  (emitted s ++ evs1)%list)) as (evs2 & Hr2).
  { simpl. eapply Forall_impl; [exact HK2 |]. intros kk. by rewrite has_bump_all. }
  exists (evs1 ++ evs2)%list. rewrite Hr2. simpl.
  by rewrite bump_all_app, (assoc_L (++)%list).
Qed.

Lemma quiet_forEach {A : Type} (t : A → list (kind * string)) (f : A → Eng unit)
    (xs : list A) :
  Forall (λ x, quiet (t x) (f x)) xs → quiet (flat_map t xs) (forEach xs f).
Proof.
  induction 1 as [|x xs Hx _ IH]; [apply quiet_ret |].
  simpl. by apply quiet_bind.
Qed.

Lemma quiet_one k key (m : Eng unit) :
  (∀ s l, PodsJson.get k key (podsjsonFile s) = Some l →
          ∃ evs, run m s
                 = (Returned tt,
                    mkSession (count_up l (podsjsonFile s)) (podfileFile s)
                              (emitted s ++ evs)%list)) →
  quiet [(k, key)] m.
Proof.
  intros Hm s [[l Hget] _]%Forall_cons. simpl in Hget.
  destruct (Hm s l Hget) as (evs & ->). exists evs.
  unfold bump_all, bump. simpl. by rewrite Hget.
Qed.

Lemma add_declaration_quiet decls key :
  quiet (touched_declaration proofDeclaration decls key)
        (add_declaration proofDeclaration decls key).
Proof.
  unfold touched_declaration, strict_eq. case_bool_decide as Hv.
  - apply quiet_one. intros s l Hget. exists [].
    by rewrite app_nil_r, (add_declaration_present _ _ _ _ _ Hv Hget).
  - intros s _. exists []. rewrite app_nil_r.
    rewrite (add_declaration_skipped _ _ _ _ Hv). by destruct s.
Qed.

Lemma add_source_quiet (srcs : list (string * jsobj)) key :
  quiet (touched_source key) (add_source srcs key).
Proof.
  apply quiet_one. intros s l Hget. exists [].
  by rewrite app_nil_r, (add_source_present _ _ _ _ Hget).
Qed.

Lemma add_library_quiet plugin options isSPM (libs : list (string * jsobj)) key :
  resolves options isSPM libs key →
  quiet (touched_library isSPM libs key)
        (add_library plugin_id plugin options isSPM libs key).
Proof.
  unfold touched_library, resolves.
  destruct (wants_pod isSPM (default ∅ (obj_get libs key))) eqn:Hg.
  - intros [podJson Hr]; [done |]. apply quiet_one. intros s l Hget.
    eexists. rewrite (add_wants_podd _ _ _ _ _ _ _ Hg).
    by rewrite (add_library_body_present _ _ _ _ _ _ _ _ Hr Hget).
  - intros _ s _. exists []. rewrite app_nil_r.
    rewrite (add_library_skipped _ _ _ _ _ _ _ Hg). by destruct s.
Qed.

Lemma add_podSpec_quiet plugin options obj :
  resolvable isSwiftPackagePlugin plugin options obj →
  quiet (touched_podSpec isSwiftPackagePlugin proofDeclaration plugin obj)
        (add_podSpec plugin_id isSwiftPackagePlugin proofDeclaration plugin options obj).
Proof.
  intros Hres s HK.
  assert (quiet (touched_podSpec isSwiftPackagePlugin proofDeclaration plugin obj)
            (add_podSpec plugin_id isSwiftPackagePlugin proofDeclaration plugin options
               (guarded obj))) as Hq.
  { unfold touched_podSpec, add_podSpec, guarded.
    cbn [declarations sources libraries forEachKey].
    apply quiet_bind; [|apply quiet_bind].
    - apply quiet_forEach, Forall_forall. intros key _. apply add_declaration_quiet.
    - apply quiet_forEach, Forall_forall. intros key _. apply add_source_quiet.
    - apply quiet_forEach. eapply Forall_impl; [exact Hres |].
      intros key. apply add_library_quiet. }
  destruct (Hq s HK) as (evs & Hr). exists evs.
  by rewrite add_podSpec_guarded.
Qed.

Lemma add_all_quiet plugin podSpecs options s :
  Forall (resolvable isSwiftPackagePlugin plugin options) podSpecs →
  Forall (has (podsjsonFile s))
         (touched isSwiftPackagePlugin proofDeclaration plugin podSpecs) →
  ∃ evs,
    run (add_all plugin_id isSwiftPackagePlugin proofDeclaration plugin podSpecs
           options) s
    = (Returned tt,
       mkSession
         (bump_all (touched isSwiftPackagePlugin proofDeclaration plugin podSpecs)
            (podsjsonFile s))
         (podfileFile s) (emitted s ++ evs)%list).
Proof.
  intros Hres HK. unfold add_all. rewrite run_bind.
  change (run (emit verbose ?m) s)
    with (Returned tt,
          mkSession (podsjsonFile s) (podfileFile s) (emitted s ++ [Emit verbose m])%list).
  destruct (quiet_forEach
              (touched_podSpec isSwiftPackagePlugin proofDeclaration plugin)
              (add_podSpec plugin_id isSwiftPackagePlugin proofDeclaration plugin options)
              podSpecs) with
    (s := mkSession (podsjsonFile s) (podfileFile s)
            (emitted s ++
             [Emit verbose "Adding pods since the plugin contained <podspecs>"])%list)
    as (evs & Hr).
  - eapply Forall_impl; [exact Hres |]. intros obj. apply add_podSpec_quiet.
  - exact HK.
  - rewrite Hr. eexists. cbn [podsjsonFile podfileFile emitted].
    by rewrite <- (assoc_L (++)%list).
Qed.

End Calls.

(** *** From the file and back *)

Lemma get_load k key (f : PodsJson.file) :
  PodsJson.get k key (PodsJson.load f)
  = (λ _, Loaded k key) <$> (PodsJson.section k f !! key).
Proof.
  unfold PodsJson.get, PodsJson.load.
  destruct k; simpl; rewrite map_lookup_imap;
    by destruct (_ !! key).
Qed.

Lemma section_serialize k (L : PodsJson.t) :
  PodsJson.section k (PodsJson.serialize L)
  = PodsJson.heap L <$> PodsJson.contents k L.
Proof. by destruct k. Qed.

Lemma load_as_loaded (f : PodsJson.file) : as_loaded (PodsJson.load f).
Proof.
  intros k key l. rewrite get_load.
  destruct (PodsJson.section k f !! key); [by intros [= <-] | done].
Qed.

Lemma has_load_serialize (L : PodsJson.t) kk :
  has (PodsJson.load (PodsJson.serialize L)) kk ↔ has L kk.
Proof.
  unfold has. rewrite get_load, section_serialize, lookup_fmap.
  unfold PodsJson.get. rewrite !fmap_is_Some. done.
Qed.

Lemma load_consistent (f : PodsJson.file) (m : Podfile.manifest) evs :
  consistent f m →
  consistent_session (mkSession (PodsJson.load f) (Podfile.load m) evs).
Proof.
  intros Hc. split; cbn [podsjsonFile podfileFile].
  - intros k key n Hget. by apply load_as_loaded in Hget.
  - intros k key l. rewrite get_load.
    destruct (PodsJson.section k f !! key) as [e|] eqn:He; [|done].
    intros [= <-]. simpl. rewrite He. simpl. by apply (Hc k key e).
Qed.

Lemma serialize_consistent s :
  consistent_session s →
  consistent (PodsJson.serialize (podsjsonFile s)) (Podfile.current (podfileFile s)).
Proof.
  intros [_ Hl] k key e. rewrite section_serialize, lookup_fmap.
  destruct (PodsJson.contents k (podsjsonFile s) !! key) as [l|] eqn:Hget; [|done].
  intros [= <-]. by apply Hl.
Qed.

(** *** Counting up, several times *)

Lemma update_count_ext (f g : Z → Z) (o : jsobj) :
  (∀ c, f c = g c) → PodsJson.update_count f o = PodsJson.update_count g o.
Proof.
  intros Hfg. unfold PodsJson.update_count.
  destruct (get_field o "count"); try done. by rewrite Hfg.
Qed.

Lemma update_count_compose (f g : Z → Z) (o : jsobj) :
  PodsJson.update_count f (PodsJson.update_count g o)
  = PodsJson.update_count (λ c, f (g c)) o.
Proof.
  destruct (get_field o "count") as [| | |c| |] eqn:Hc;
    try (unfold PodsJson.update_count; rewrite !Hc; by rewrite ?Hc).
  unfold PodsJson.update_count at 2 3. rewrite Hc.
  unfold PodsJson.update_count, get_field. rewrite lookup_insert_eq. simpl.
  apply insert_insert_eq.
Qed.

Lemma update_count_zero (o : jsobj) : PodsJson.update_count (Z.add 0) o = o.
Proof.
  unfold PodsJson.update_count, get_field.
  destruct (o !! "count") as [[| | |c| |]|] eqn:Hc; simpl; try done.
  by apply insert_id.
Qed.

Lemma occurrences_cons kk kk' K :
  occurrences kk (kk' :: K)
  = (if decide (kk' = kk) then 1 else 0) + occurrences kk K.
Proof.
  unfold occurrences. rewrite filter_cons.
  destruct (decide (kk' = kk)); rewrite ?length_cons; lia.
Qed.

Lemma heap_bump_all K (L : PodsJson.t) k key :
  as_loaded L → Forall (has L) K →
  PodsJson.heap (bump_all K L) (Loaded k key)
  = PodsJson.update_count (Z.add (occurrences (k, key) K))
      (PodsJson.heap L (Loaded k key)).
Proof.
  revert L. induction K as [|[k' key'] K IH]; intros L Hld HK.
  - simpl. by rewrite update_count_zero.
  - apply Forall_cons in HK as [[l Hget] HK]. simpl in Hget.
    pose proof (Hld _ _ _ Hget) as ->.
    change (bump_all ((k', key') :: K) L) with (bump_all K (bump L (k', key'))).
    unfold bump. cbn [fst snd]. rewrite Hget.
    rewrite IH.
    + unfold count_up. rewrite heap_store, occurrences_cons.
      case_decide as Heq.
      * injection Heq as -> ->. rewrite decide_True by done.
        rewrite update_count_compose. apply update_count_ext. intros c. lia.
      * rewrite decide_False by congruence. apply update_count_ext. intros c. lia.
    + intros k0 key0 l0. unfold PodsJson.get, count_up. rewrite contents_store.
      apply Hld.
    + eapply Forall_impl; [exact HK |]. intros kk. by rewrite has_count_up.
Qed.

(** *** Installing twice *)

Section Reinstall.

Context {PluginInfo : Type}.
Variable plugin_id : PluginInfo → string.
Variable isSwiftPackagePlugin : PluginInfo → bool.
Variable proofDeclaration : string → string.

Lemma addPodSpecs_nonempty plugin podSpecs options w :
  podSpecs ≠ [] →
  addPodSpecs plugin_id isSwiftPackagePlugin proofDeclaration plugin podSpecs options w
  = match run (add_all plugin_id isSwiftPackagePlugin proofDeclaration plugin podSpecs
                 options) (open_session w) with
    | (Returned _, s) =>
        (Returned tt, finish true "Running `pod install` (to install plugins)" w s)
    | (Thrown e, s) => (Thrown e, abort w s)
    end.
Proof. by destruct podSpecs. Qed.

(** C5, as the code has it.  When [addPodSpecs] has returned for a plugin
    and its pod specs, every unit it acted on has an entry in [pods.json];
    and if every entry of [pods.json] had its line in the [Podfile] before
    the call, so it is after the call, for the units of the call too.  The
    same call made again then returns as well; its [Podfile] is not dirty,
    the [Podfile] on disk is as the first call left it, [pods.json] is
    written and nothing else is done -- the [Podfile] is not written and
    [pod install] is not run -- and [pods.json] differs only in that the
    count of each entry went up by the number of units that the call acted
    on under its key. *)
Theorem reinstall_only_counts plugin podSpecs options w w1 :
  addPodSpecs plugin_id isSwiftPackagePlugin proofDeclaration plugin podSpecs options w
  = (Returned tt, w1) →
  let K := touched isSwiftPackagePlugin proofDeclaration plugin podSpecs in
  Forall (λ kk, is_Some (PodsJson.section kk.1 (pods_json w1) !! kk.2)) K
  ∧ (consistent (pods_json w) (podfile w) →
     consistent (pods_json w1) (podfile w1)
     ∧ Forall (λ kk, ∃ e, PodsJson.section kk.1 (pods_json w1) !! kk.2 = Some e
                          ∧ listed (podfile w1) kk.1 kk.2 e) K)
  ∧ ∃ s2 w2,
      run (add_all plugin_id isSwiftPackagePlugin proofDeclaration plugin podSpecs
             options) (open_session w1) = (Returned tt, s2)
      ∧ addPodSpecs plugin_id isSwiftPackagePlugin proofDeclaration plugin podSpecs
          options w1 = (Returned tt, w2)
      ∧ Podfile.isDirty (podfileFile s2) = false
      ∧ podfile w2 = podfile w1
      ∧ actions (added w1 w2) = match podSpecs with [] => [] | _ => [WritePodsJson] end
      ∧ ∀ k key,
          PodsJson.section k (pods_json w2) !! key
          = PodsJson.update_count (Z.add (occurrences (k, key) K))
              <$> (PodsJson.section k (pods_json w1) !! key).
Proof.
  intros Hfirst K.
  destruct (decide (podSpecs = [])) as [->|Hne].
  { injection Hfirst as <-. split; [constructor |].
    split; [intros Hc; split; [done | constructor] |].
    eexists _, w. split; [reflexivity |]. split; [done |].
    split; [apply load_not_dirty |]. split; [done |].
    split; [unfold added; by rewrite drop_all |].
    intros k key. subst K. simpl.
    destruct (PodsJson.section k (pods_json w) !! key) as [e|]; [|done].
    simpl. by rewrite update_count_zero. }
  rewrite (addPodSpecs_nonempty _ _ _ _ Hne) in Hfirst.
  destruct (run _ (open_session w)) as [[[]|e] s1] eqn:Hrun1; [|done].
  injection Hfirst as <-.
  pose proof (add_all_installs _ _ _ _ _ _ _ _ Hrun1) as [(_ & HK & Hl & Hc) Hres].
  fold K in HK.
  destruct (finish_spec true "Running `pod install` (to install plugins)" w s1 Hl)
    as (Hpj & _ & _ & Hpf).
  set (w1 := finish true "Running `pod install` (to install plugins)" w s1) in *.
  assert (Forall (has (PodsJson.load (pods_json w1))) K) as HK1.
  { rewrite Hpj. eapply Forall_impl; [exact HK |].
    intros kk. by rewrite has_load_serialize. }
  assert (Forall (λ kk, is_Some (PodsJson.section kk.1 (pods_json w1) !! kk.2)) K)
    as HK2.
  { eapply Forall_impl; [exact HK1 |]. intros [k key]. unfold has. simpl.
    rewrite get_load. by rewrite fmap_is_Some. }
  split; [exact HK2 |].
  split.
  { intros Hcons.
    assert (consistent (pods_json w1) (podfile w1)) as Hcons1.
    { rewrite Hpj, Hpf. apply serialize_consistent, Hc. by apply load_consistent. }
    split; [exact Hcons1 |].
    eapply Forall_impl; [exact HK2 |]. intros [k key] [e He]. simpl in *.
    exists e. split; [exact He |]. exact (Hcons1 k key e He). }
  destruct (add_all_quiet plugin_id isSwiftPackagePlugin proofDeclaration plugin
              podSpecs options (open_session w1) Hres HK1) as (evs & Hrun2).
  fold K in Hrun2.
  eexists _, _. split; [exact Hrun2 |].
  split; [by rewrite (addPodSpecs_nonempty _ _ _ _ Hne), Hrun2 |].
  assert (Podfile.isDirty (Podfile.load (podfile w1)) = false) as Hclean
    by apply load_not_dirty.
  split; [exact Hclean |].
  unfold finish. cbn [podsjsonFile podfileFile emitted open_session].
  rewrite Hclean. cbn [podfile pods_json trace].
  split; [done |]. split.
  { destruct podSpecs; [done |].
    rewrite <- !(assoc_L (++)%list), added_app. unfold actions. rewrite !filter_app.
    fold (actions (Event <$> ([] ++ evs)%list)). by rewrite actions_events. }
  intros k key. rewrite section_serialize, lookup_fmap.
  unfold PodsJson.get in *. rewrite contents_bump_all.
  pose proof (get_load k key (pods_json w1)) as Hget. unfold PodsJson.get in Hget.
  rewrite Hget.
  destruct (PodsJson.section k (pods_json w1) !! key) as [e|] eqn:He; [|done].
  simpl. f_equal.
  rewrite (heap_bump_all K _ k key (load_as_loaded _) HK1).
  simpl. by rewrite He.
Qed.

End Reinstall.

(** ** The statements about whole calls at work *)

Lemma uninstall_throws_where_install_skips_witness :
  (removePodSpecs demo_id demo_isSwiftPackagePlugin demo_proofDeclaration true
     plugin_A [podSpec_without_declarations] no_variables world_A).1
  = Thrown TypeError
  ∧ (addPodSpecs demo_id demo_isSwiftPackagePlugin demo_proofDeclaration
       plugin_A [podSpec_without_declarations] no_variables world_A).1
    = Returned tt.
Proof.
  destruct (uninstall_throws_where_install_skips demo_id demo_isSwiftPackagePlugin
              demo_proofDeclaration true plugin_A no_variables) as (_ & Hthrow & _).
  destruct (Hthrow podSpec_without_declarations [] world_A (or_introl eq_refl))
    as (w' & Hr & _).
  split; [by rewrite Hr | reflexivity].
Defined.

Lemma ledger_written_once_podfile_only_when_dirty_witness :
  ∃ w', addPodSpecs demo_id demo_isSwiftPackagePlugin demo_proofDeclaration plugin_A
          [demo_podSpec] no_variables empty_world = (Returned tt, w')
        ∧ pods_json w' = PodsJson.serialize (podsjsonFile session_A)
        ∧ actions (added empty_world w')
          = [WritePodsJson; WritePodfile; PurgeProjectFileCache; PodInstall].
Proof.
  destruct (ledger_written_once_podfile_only_when_dirty demo_id
              demo_isSwiftPackagePlugin demo_proofDeclaration true plugin_A
              [demo_podSpec] no_variables empty_world session_A) as [Hadd _].
  { discriminate. }
  destruct Hadd as (w' & Hr & Hpj & _ & Hact); [reflexivity |].
  exists w'. split; [exact Hr |]. split; [exact Hpj |].
  change (Podfile.isDirty (podfileFile session_A)) with true in Hact.
  exact (proj1 Hact).
Defined.

(** C5 refuted.  Plugin A installs its pod spec into an empty project and
    uninstalls it, the ledger keeping the entries with a count of 0; then
    it installs the pod spec twice in a row.  Both calls return, and after
    the first of them the manifest has none of the entries of the set: the
    units have their entries in the ledger and are only counted.  The same
    happens wherever [pods.json] has the entry of a unit and the [Podfile]
    lacks its line, as when plugin B installs the library into the project
    whose [pods.json] has it and whose [Podfile] is empty. *)
Lemma reinstall_leaves_manifest_without_the_entries :
  let install p w :=
    addPodSpecs demo_id demo_isSwiftPackagePlugin demo_proofDeclaration p
      [demo_podSpec] no_variables w in
  let uninstall p w :=
    removePodSpecs demo_id demo_isSwiftPackagePlugin demo_proofDeclaration false p
      [demo_podSpec] no_variables w in
  let w0 := (uninstall plugin_A (install plugin_A empty_world).2).2 in
  let w1 := (install plugin_A w0).2 in
  let w := mkWorld (pods_json demo_world) Podfile.empty_manifest [] in
  ((install plugin_A empty_world).1, (uninstall plugin_A world_A).1,
   (install plugin_A w0).1, (install plugin_A w1).1)
  = (Returned tt, Returned tt, Returned tt, Returned tt)
  ∧ podfile w1 = Podfile.empty_manifest
  ∧ (λ e : jsobj, get_field e "count")
      <$> (PodsJson.f_libraries (pods_json w1) !! "AFNetworking")
    = Some (JNum 1)
  ∧ (addPodSpecs demo_id demo_isSwiftPackagePlugin demo_proofDeclaration plugin_B
       [mkPodSpec None None (Some demo_libraries)] no_variables w).1
    = Returned tt
  ∧ podfile
      (addPodSpecs demo_id demo_isSwiftPackagePlugin demo_proofDeclaration plugin_B
         [mkPodSpec None None (Some demo_libraries)] no_variables w).2
    = Podfile.empty_manifest.
Proof. vm_compute. done. Qed.

Lemma reinstall_only_counts_witness :
  ∃ w2, addPodSpecs demo_id demo_isSwiftPackagePlugin demo_proofDeclaration plugin_A
          [demo_podSpec] no_variables world_A = (Returned tt, w2)
        ∧ podfile w2 = podfile world_A
        ∧ actions (added world_A w2) = [WritePodsJson]
        ∧ PodsJson.section Libraries (pods_json w2) !! "AFNetworking"
          = Some (<["count" := JNum 2]> afnetworking).
Proof.
  destruct (reinstall_only_counts demo_id demo_isSwiftPackagePlugin
              demo_proofDeclaration plugin_A [demo_podSpec] no_variables
              empty_world world_A eq_refl)
    as (_ & _ & s2 & w2 & _ & Hr & _ & Hpf & Hact & Hcount).
  exists w2. split; [exact Hr |]. split; [exact Hpf |]. split; [exact Hact |].
  rewrite Hcount. reflexivity.
Defined.

(** ** The life of a library *)

(** Plugin A installs [AFNetworking] into an empty project, then plugin B
    does; both uninstall.  The count goes 1, 2, 1 and the entry is gone;
    the [Podfile] has the library until the last uninstall; [pod install]
    runs for the first install and for the last uninstall only. *)
Example two_plugins_one_library :
  let install p w :=
    (addPodSpecs demo_id demo_isSwiftPackagePlugin demo_proofDeclaration p
       [mkPodSpec None None (Some demo_libraries)] no_variables w).2 in
  let uninstall p w :=
    (removePodSpecs demo_id demo_isSwiftPackagePlugin demo_proofDeclaration true p
       [mkPodSpec (Some []) (Some []) (Some demo_libraries)] no_variables w).2 in
  let count w :=
    (λ e : jsobj, get_field e "count")
      <$> (PodsJson.f_libraries (pods_json w) !! "AFNetworking") in
  let w1 := install plugin_A empty_world in
  let w2 := install plugin_B w1 in
  let w3 := uninstall plugin_A w2 in
  let w4 := uninstall plugin_B w3 in
  (count w1, count w2, count w3, count w4)
  = (Some (JNum 1), Some (JNum 2), Some (JNum 1), None)
  ∧ ((Podfile.m_pods (podfile w1)).*1, (Podfile.m_pods (podfile w2)).*1,
     (Podfile.m_pods (podfile w3)).*1, (Podfile.m_pods (podfile w4)).*1)
    = (["AFNetworking"], ["AFNetworking"], ["AFNetworking"], [])
  ∧ (List.length (filter (λ e, e = PodInstall) (added empty_world w1)),
     List.length (filter (λ e, e = PodInstall) (added w1 w2)),
     List.length (filter (λ e, e = PodInstall) (added w2 w3)),
     List.length (filter (λ e, e = PodInstall) (added w3 w4)))
    = (1, 0, 0, 1)%nat.
Proof. vm_compute. done. Qed.

(** ** The turns of a call, one after the other *)

Lemma pair_of_fst {A B : Type} (p : A * B) (a : A) : p.1 = a → p = (a, p.2).
Proof. destruct p. cbn. congruence. Qed.

Lemma steps_impl {A : Type} (R R' : A → Session → Session → Prop) l s s' :
  (∀ x s1 s2, R x s1 s2 → R' x s1 s2) → steps R l s s' → steps R' l s s'.
Proof.
  intros HR. induction 1 as [|x l s s' s'' Hx Hl IH]; [constructor |].
  eapply steps_cons; [by apply HR | exact IH].
Qed.

Lemma forEach_steps {A B : Type} (R : B → Session → Session → Prop)
    (g : A → B) (f : A → Eng unit) :
  (∀ x s s', run (f x) s = (Returned tt, s') → R (g x) s s') →
  ∀ l s s', run (forEach l f) s = (Returned tt, s') → steps R (g <$> l) s s'.
Proof.
  intros Hf. induction l as [|x l IH]; intros s s' Hrun.
  - injection Hrun as <-. constructor.
  - apply run_bind_returned in Hrun as ([] & s1 & H1 & H2).
    simpl. eapply steps_cons; [by apply Hf | by apply IH].
Qed.

Lemma forEach_app_run {A : Type} (f : A → Eng unit) l1 l2 s :
  run (forEach (l1 ++ l2)%list f) s = run (forEach l1 f;; forEach l2 f) s.
Proof.
  revert s. induction l1 as [|x l1 IH]; intros s; [done |].
  simpl. rewrite !run_bind. destruct (run (f x) s) as [[[]|e] s1]; [|done].
  rewrite IH. by rewrite run_bind.
Qed.

Lemma forEach_fmap_run {A B : Type} (g : A → B) (f : B → Eng unit) l s :
  run (forEach (g <$> l) f) s = run (forEach l (λ x, f (g x))) s.
Proof.
  revert s. induction l as [|x l IH]; intros s; [done |].
  simpl. rewrite !run_bind. destruct (run (f (g x)) s) as [[[]|e] s1]; [|done].
  apply IH.
Qed.

Lemma forEach_flat_map_run {A B : Type} (g : A → list B) (f : B → Eng unit)
    (h : A → Eng unit) :
  (∀ x s, run (h x) s = run (forEach (g x) f) s) →
  ∀ l s, run (forEach l h) s = run (forEach (flat_map g l) f) s.
Proof.
  intros Hh. induction l as [|x l IH]; intros s; [done |].
  simpl. rewrite forEach_app_run, !run_bind, Hh.
  destruct (run (forEach (g x) f) s) as [[[]|e] s1]; [|done]. apply IH.
Qed.

(** A loop that throws has gone through the turns before the one that
    throws. *)
Lemma forEach_thrown {A : Type} (f : A → Eng unit) l s s' e :
  run (forEach l f) s = (Thrown e, s') →
  ∃ l1 x l2 s1,
    l = (l1 ++ x :: l2)%list
    ∧ steps (λ x s1 s2, run (f x) s1 = (Returned tt, s2)) l1 s s1
    ∧ run (f x) s1 = (Thrown e, s').
Proof.
  revert s. induction l as [|x l IH]; intros s Hrun; [done |].
  simpl in Hrun. rewrite run_bind in Hrun.
  destruct (run (f x) s) as [[[]|e0] s1] eqn:Hx.
  - destruct (IH s1 Hrun) as (l1 & y & l2 & s2 & -> & Hsteps & Hy).
    exists (x :: l1), y, l2, s2. split; [done |]. split; [|done].
    by eapply steps_cons.
  - injection Hrun as <- <-. exists [], x, l, s. split; [done |].
    split; [constructor | done].
Qed.

Section CallTurns.

Context {PluginInfo : Type}.
Variable plugin_id : PluginInfo → string.
Variable isSwiftPackagePlugin : PluginInfo → bool.
Variable proofDeclaration : string → string.
Variable drop_at_zero : bool.

Implicit Types (s : Session) (key : string) (l : loc) (plugin : PluginInfo)
  (w : World) (obj : PodSpec) (t : turn).

Local Abbreviation add_turn :=
  (add_turn plugin_id isSwiftPackagePlugin proofDeclaration).
Local Abbreviation remove_turn :=
  (remove_turn plugin_id isSwiftPackagePlugin proofDeclaration drop_at_zero).
Local Abbreviation unit_of := (unit_of isSwiftPackagePlugin proofDeclaration).

(** *** The body of [podSpecs.forEach] is its turns *)

Lemma add_podSpec_run plugin options obj s :
  run (add_podSpec plugin_id isSwiftPackagePlugin proofDeclaration plugin options obj) s
  = run (forEach (turns_of_podSpec true obj) (add_turn plugin options)) s.
Proof.
  unfold add_podSpec, turns_of_podSpec.
  rewrite forEach_app_run, !run_bind.
  assert (H1 : ∀ s,
    run (if declarations obj is Some _
         then forEachKey (declarations obj) (add_declaration proofDeclaration)
         else mret tt) s
    = run (forEach (turns_of_section DeclarationOf true (declarations obj))
             (add_turn plugin options)) s).
  { intros s0. destruct (declarations obj) as [decls|]; [|done].
    simpl. by rewrite forEach_fmap_run. }
  assert (H2 : ∀ s,
    run (if sources obj is Some _
         then forEachKey (sources obj) add_source else mret tt) s
    = run (forEach (turns_of_section SourceOf true (sources obj))
             (add_turn plugin options)) s).
  { intros s0. destruct (sources obj) as [srcs|]; [|done].
    simpl. by rewrite forEach_fmap_run. }
  assert (H3 : ∀ s,
    run (if libraries obj is Some _
         then forEachKey (libraries obj)
                (add_library plugin_id plugin options (isSwiftPackagePlugin plugin))
         else mret tt) s
    = run (forEach (turns_of_section LibraryOf true (libraries obj))
             (add_turn plugin options)) s).
  { intros s0. destruct (libraries obj) as [libs|]; [|done].
    simpl. by rewrite forEach_fmap_run. }
  rewrite H1. destruct (run (forEach _ _) s) as [[[]|e] s1]; [|done].
  rewrite forEach_app_run, !run_bind, H2.
  destruct (run (forEach _ _) s1) as [[[]|e] s2]; [|done].
  apply H3.
Qed.

Lemma remove_podSpec_run plugin options obj s :
  run (remove_podSpec plugin_id isSwiftPackagePlugin proofDeclaration drop_at_zero
         plugin options obj) s
  = run (forEach (turns_of_podSpec false obj) (remove_turn plugin options)) s.
Proof.
  unfold remove_podSpec, turns_of_podSpec.
  rewrite forEach_app_run, !run_bind.
  assert (H1 : ∀ s,
    run (forEachKey (declarations obj)
           (remove_declaration plugin_id proofDeclaration drop_at_zero plugin)) s
    = run (forEach (turns_of_section DeclarationOf false (declarations obj))
             (remove_turn plugin options)) s).
  { intros s0. destruct (declarations obj) as [decls|]; [|done].
    simpl. by rewrite forEach_fmap_run. }
  assert (H2 : ∀ s,
    run (forEachKey (sources obj) (remove_source plugin_id drop_at_zero plugin)) s
    = run (forEach (turns_of_section SourceOf false (sources obj))
             (remove_turn plugin options)) s).
  { intros s0. destruct (sources obj) as [srcs|]; [|done].
    simpl. by rewrite forEach_fmap_run. }
  assert (H3 : ∀ s,
    run (forEachKey (libraries obj)
           (remove_library plugin_id drop_at_zero plugin options
              (isSwiftPackagePlugin plugin))) s
    = run (forEach (turns_of_section LibraryOf false (libraries obj))
             (remove_turn plugin options)) s).
  { intros s0. destruct (libraries obj) as [libs|]; [|done].
    simpl. by rewrite forEach_fmap_run. }
  rewrite H1. destruct (run (forEach _ _) s) as [[[]|e] s1]; [|done].
  rewrite forEach_app_run, !run_bind, H2.
  destruct (run (forEach _ _) s1) as [[[]|e] s2]; [|done].
  apply H3.
Qed.

(** What both calls do between loading and writing is the loop over their
    turns, from the session in which both files are loaded and the first
    message is out. *)
Lemma add_all_run plugin podSpecs options w :
  run (add_all plugin_id isSwiftPackagePlugin proofDeclaration plugin podSpecs options)
    (open_session w)
  = run (forEach (install_turns podSpecs) (add_turn plugin options)) (started w).
Proof.
  unfold add_all. rewrite run_bind.
  change (run (emit verbose _) (open_session w)) with (Returned tt, started w).
  apply forEach_flat_map_run. intros obj s. apply add_podSpec_run.
Qed.

Lemma remove_all_run plugin podSpecs options w :
  run (remove_all plugin_id isSwiftPackagePlugin proofDeclaration drop_at_zero plugin
         podSpecs options) (open_session w)
  = run (forEach (uninstall_turns podSpecs) (remove_turn plugin options)) (started w).
Proof.
  unfold remove_all. rewrite run_bind.
  change (run (emit verbose _) (open_session w)) with (Returned tt, started w).
  apply forEach_flat_map_run. intros obj s. apply remove_podSpec_run.
Qed.

(** A call of [addPodSpecs] or [removePodSpecs] with pod specs goes through
    its turns. *)
Lemma addPodSpecs_went_through plugin podSpecs options w :
  podSpecs ≠ [] →
  went_through
    (λ t s1 s2, run (add_turn plugin options t) s1 = (Returned tt, s2))
    (install_turns podSpecs) (add_turn plugin options)
    (finish true "Running `pod install` (to install plugins)") w
    (addPodSpecs plugin_id isSwiftPackagePlugin proofDeclaration plugin podSpecs
       options w).
Proof.
  intros Hne. unfold addPodSpecs, went_through.
  destruct podSpecs as [|obj rest] eqn:Hps; [done |]. rewrite <- Hps in *.
  rewrite add_all_run.
  destruct (run _ (started w)) as [[[]|e] s'] eqn:Hrun; cbn [fst snd].
  - exists s'. split; [|done].
    rewrite <- (list_fmap_id (install_turns podSpecs)).
    by eapply (forEach_steps _ id); [|exact Hrun].
  - destruct (forEach_thrown _ _ _ _ _ Hrun) as (l1 & t & l2 & s1 & Hl & Hsteps & Ht).
    by exists l1, t, l2, s1, s'.
Qed.

Lemma removePodSpecs_went_through plugin podSpecs options w :
  podSpecs ≠ [] →
  went_through
    (λ t s1 s2, run (remove_turn plugin options t) s1 = (Returned tt, s2))
    (uninstall_turns podSpecs) (remove_turn plugin options)
    (finish false "Running `pod install` (to uninstall pods)") w
    (removePodSpecs plugin_id isSwiftPackagePlugin proofDeclaration drop_at_zero
       plugin podSpecs options w).
Proof.
  intros Hne. unfold removePodSpecs, went_through.
  destruct podSpecs as [|obj rest] eqn:Hps; [done |]. rewrite <- Hps in *.
  rewrite remove_all_run.
  destruct (run _ (started w)) as [[[]|e] s'] eqn:Hrun; cbn [fst snd].
  - exists s'. split; [|done].
    rewrite <- (list_fmap_id (uninstall_turns podSpecs)).
    by eapply (forEach_steps _ id); [|exact Hrun].
  - destruct (forEach_thrown _ _ _ _ _ Hrun) as (l1 & t & l2 & s1 & Hl & Hsteps & Ht).
    by exists l1, t, l2, s1, s'.
Qed.

Lemma went_through_impl (R R' : turn → Session → Session → Prop) turns body ending
    w r :
  (∀ t s1 s2, R t s1 s2 → R' t s1 s2) →
  went_through R turns body ending w r → went_through R' turns body ending w r.
Proof.
  intros HR. unfold went_through. destruct r.1.
  - intros (s' & Hsteps & Hw). exists s'. split; [|done]. by eapply steps_impl.
  - intros (l1 & t & l2 & s1 & s2 & Hl & Hsteps & Ht & Hw).
    exists l1, t, l2, s1, s2. split; [done |]. split; [|done]. by eapply steps_impl.
Qed.

(** *** What a turn of install does *)

Lemma add_turn_spec plugin options t s s' :
  run (add_turn plugin options t) s = (Returned tt, s') →
  ∃ unit,
    unit_of plugin options t = Returned unit
    ∧ counted_or_registered unit s s'
    ∧ warned_and_counted (plugin_id plugin) unit s s'.
Proof.
  destruct t as [decls key|srcs key|libs key|]; simpl; [| | |done].
  - unfold strict_eq.
    destruct (decide (default JUndefined (obj_get decls key) = JStr "true")) as [Hv|Hv].
    + rewrite bool_decide_eq_true_2 by done. intros Hrun.
      eexists. split; [done |]. split; [|by intros ? ? ? [=]].
      unfold counted_or_registered.
      destruct (PodsJson.get Declarations (proofDeclaration key) (podsjsonFile s))
        as [l|] eqn:Hget.
      * rewrite (add_declaration_present _ _ _ _ _ Hv Hget) in Hrun.
        injection Hrun as <-. split; [apply count_up_recounted | done].
      * rewrite (add_declaration_absent _ _ _ _ Hv Hget) in Hrun.
        injection Hrun as <-. cbn [podsjsonFile podfileFile].
        split; [apply setJson_registered |]. split; [done |].
        simpl. apply put_elem_of.
    + rewrite bool_decide_eq_false_2 by done. intros Hrun.
      rewrite (add_declaration_skipped _ _ _ _ Hv) in Hrun. injection Hrun as <-.
      eexists. split; [done |]. split; [done | by intros ? ? ? [=]].
  - intros Hrun. eexists. split; [done |]. split; [|by intros ? ? ? [=]].
    unfold counted_or_registered.
    destruct (PodsJson.get Sources key (podsjsonFile s)) as [l|] eqn:Hget.
    + rewrite (add_source_present _ _ _ _ Hget) in Hrun.
      injection Hrun as <-. split; [apply count_up_recounted | done].
    + rewrite (add_source_absent _ _ _ Hget) in Hrun.
      injection Hrun as <-. cbn [podsjsonFile podfileFile].
      split; [apply setJson_registered |].
      assert (Hsrc : get_field ({[ "source" :=
                        get_field (default ∅ (obj_get srcs key)) "source" ]} : jsobj)
                       "source"
                     = get_field (default ∅ (obj_get srcs key)) "source").
      { unfold get_field at 1. by rewrite lookup_singleton_eq. }
      unfold enters, entered. rewrite Hsrc. split; [done |].
      simpl. apply put_elem_of.
  - destruct (wants_pod (isSwiftPackagePlugin plugin) (default ∅ (obj_get libs key)))
      eqn:Hg.
    + rewrite (add_wants_podd _ _ _ _ _ _ _ Hg).
      destruct (replacePodSpecVariables (default ∅ (obj_get libs key)) options)
        as [podJson|e] eqn:Hr.
      * intros Hrun. eexists. split; [done |].
        destruct (PodsJson.get Libraries key (podsjsonFile s)) as [l|] eqn:Hget.
        -- rewrite (add_library_body_present _ _ _ _ _ _ _ _ Hr Hget) in Hrun.
           injection Hrun as <-. split.
           ++ unfold counted_or_registered. rewrite Hget.
              split; [apply count_up_recounted | done].
           ++ intros key' podJson' l' [= <- <-] Hget'.
              rewrite Hget in Hget'. injection Hget' as <-.
              cbn [emitted podsjsonFile podfileFile]. split; [done |].
              pose proof (count_up_recounted l (podsjsonFile s)) as Hrec.
              split; [exact Hrec |]. split; [|done].
              intros f Hf. destruct Hrec as (_ & -> & _).
              by apply update_count_payload.
        -- rewrite (add_library_body_absent _ _ _ _ _ _ _ Hr Hget) in Hrun.
           assert (Hname : get_field (<["count" := JNum 1]> podJson) "name"
                           = get_field podJson "name").
           { unfold get_field. by rewrite lookup_insert_ne. }
           rewrite Hname in Hrun.
           destruct (Podfile.addSpec (get_field podJson "name")
                       (<["count" := JNum 1]> podJson) (podfileFile s))
             as [P|e] eqn:HP; [|done].
           injection Hrun as <-. split.
           ++ unfold counted_or_registered. rewrite Hget.
              cbn [podsjsonFile podfileFile].
              split; [apply setJson_registered |]. split; [exact HP |].
              unfold Podfile.addSpec in HP. unfold entered.
              destruct (get_field podJson "name") as [| | | |[|a n]|]; try done.
              injection HP as <-. exists (String a n). split; [reflexivity |].
              simpl. apply put_pod_elem_of.
           ++ intros key' podJson' l' [= <- <-] Hget'. congruence.
      * rewrite (add_library_body_throws _ _ _ _ _ _ _ Hr). done.
    + rewrite (add_library_skipped _ _ _ _ _ _ _ Hg). intros [= <-].
      eexists. split; [done |]. split; [done | by intros ? ? ? [=]].
Qed.

(** *** What a turn of uninstall does *)

Lemma remove_turn_spec plugin options t s s' :
  run (remove_turn plugin options t) s = (Returned tt, s') →
  ∃ unit,
    unit_of plugin options t = Returned unit
    ∧ counted_down [Declarations; Sources; Libraries] unit s s'
    ∧ removed_though_missing (plugin_id plugin) unit s s'
    ∧ (unit = None → s' = s).
Proof.
  assert (Hdown : ∀ k key json l v,
    PodsJson.get k key (podsjsonFile s) = Some l →
    line_value k key json = v →
    counted_down [Declarations; Sources; Libraries] (Some (k, key, json)) s
      (mkSession (PodsJson.decrement drop_at_zero k key (podsjsonFile s))
         (if strict_eq
               (get_field
                  (PodsJson.heap
                     (PodsJson.decrement drop_at_zero k key (podsjsonFile s)) l)
                  "count") (JNum 0)
          then remove_line k v (podfileFile s) else podfileFile s)
         (emitted s))).
  { intros k key json l v Hget <- k' key' json' l' [= <- <- <-] _ Hget'.
    rewrite Hget in Hget'. injection Hget' as <-.
    cbn [emitted podsjsonFile podfileFile].
    destruct (decrement_present drop_at_zero _ _ _ _ Hget) as (Hh & _).
    split; [done |].
    split; [intros c Hc; rewrite Hh; exact (update_count_number count_down _ _ Hc) |].
    split; [|done]. unfold strict_eq. rewrite bool_decide_decide.
    by destruct (decide _). }
  destruct t as [decls key|srcs key|libs key|]; simpl; [| | |done].
  - unfold strict_eq.
    destruct (decide (default JUndefined (obj_get decls key) = JStr "true")) as [Hv|Hv].
    + rewrite bool_decide_eq_true_2 by done. intros Hrun.
      eexists. split; [done |].
      destruct (PodsJson.get Declarations (proofDeclaration key) (podsjsonFile s))
        as [l|] eqn:Hget.
      * rewrite (remove_declaration_present _ _ _ _ _ _ _ _ Hv Hget) in Hrun.
        injection Hrun as <-.
        split; [by apply (Hdown Declarations) |].
        split; [|done]. intros k key' json [= <- <- <-] Hget'. congruence.
      * rewrite (remove_declaration_absent _ _ _ _ _ _ _ Hv Hget) in Hrun.
        injection Hrun as <-.
        split; [intros k key' json l [= <- <- <-] _ Hget'; congruence |].
        split; [|done]. by intros k key' json [= <- <- <-] _.
    + rewrite bool_decide_eq_false_2 by done. intros Hrun.
      rewrite (remove_declaration_skipped _ _ _ _ _ _ _ Hv) in Hrun.
      injection Hrun as <-.
      eexists. split; [done |].
      split; [by intros ? ? ? ? [=] |]. split; [by intros ? ? ? [=] | done].
  - intros Hrun. eexists. split; [done |].
    assert (Hsrc : get_field ({[ "source" :=
                      get_field (default ∅ (obj_get srcs key)) "source" ]} : jsobj)
                     "source"
                   = get_field (default ∅ (obj_get srcs key)) "source").
    { unfold get_field at 1. by rewrite lookup_singleton_eq. }
    destruct (PodsJson.get Sources key (podsjsonFile s)) as [l|] eqn:Hget.
    + rewrite (remove_source_present _ _ _ _ _ _ _ Hget) in Hrun.
      injection Hrun as <-.
      split; [by apply (Hdown Sources) |].
      split; [|done]. intros k key' json [= <- <- <-] Hget'. congruence.
    + rewrite (remove_source_absent _ _ _ _ _ _ Hget) in Hrun.
      injection Hrun as <-.
      split; [intros k key' json l [= <- <- <-] _ Hget'; congruence |].
      split; [|done]. intros k key' json [= <- <- <-] _.
      cbn [emitted podsjsonFile podfileFile line_value kind_word remove_line].
      by rewrite Hsrc.
  - destruct (wants_pod (isSwiftPackagePlugin plugin) (default ∅ (obj_get libs key)))
      eqn:Hg.
    + rewrite (remove_wants_podd _ _ _ _ _ _ _ _ Hg).
      destruct (replacePodSpecVariables (default ∅ (obj_get libs key)) options)
        as [podJson|e] eqn:Hr.
      * intros Hrun. eexists. split; [done |].
        destruct (PodsJson.get Libraries key (podsjsonFile s)) as [l|] eqn:Hget.
        -- rewrite (remove_library_body_present _ _ _ _ _ _ _ _ _ Hr Hget) in Hrun.
           injection Hrun as <-.
           split; [by apply (Hdown Libraries) |].
           split; [|done]. intros k key' json [= <- <- <-] Hget'. congruence.
        -- rewrite (remove_library_body_absent _ _ _ _ _ _ _ _ Hr Hget) in Hrun.
           injection Hrun as <-.
           split; [intros k key' json l [= <- <- <-] _ Hget'; congruence |].
           split; [|done]. by intros k key' json [= <- <- <-] _.
      * unfold remove_library_body. eng_unfold. by rewrite Hr.
    + rewrite (remove_library_skipped _ _ _ _ _ _ _ _ Hg). intros [= <-].
      eexists. split; [done |].
      split; [by intros ? ? ? ? [=] |]. split; [by intros ? ? ? [=] | done].
Qed.

Lemma counted_down_subset kinds kinds' unit s s' :
  (∀ k, k ∈ kinds' → k ∈ kinds) →
  counted_down kinds unit s s' → counted_down kinds' unit s s'.
Proof. intros Hsub H k key json l Hu Hk. by apply H; [|apply Hsub]. Qed.

(** *** What a call does with each unit *)





End CallTurns.

(** ** What a call does with each unit, on the example project *)





(** * Further properties of [lib/Api.js] *)

Section Further.

Context {PluginInfo : Type}.
Variable plugin_id : PluginInfo → string.
Variable isSwiftPackagePlugin : PluginInfo → bool.
Variable proofDeclaration : string → string.
Variable drop_at_zero : bool.

Implicit Types (s : Session) (key : string) (l : loc) (plugin : PluginInfo)
  (w : World) (obj : PodSpec).

(** X1.  A call of [addPodSpecs] or [removePodSpecs] that throws has
    written neither [pods.json] nor the [Podfile] and has not run
    [pod install]: both files are as they were. *)
Theorem call_that_throws_writes_nothing plugin podSpecs options w w' e :
  (addPodSpecs plugin_id isSwiftPackagePlugin proofDeclaration plugin podSpecs
     options w = (Thrown e, w') →
   pods_json w' = pods_json w ∧ podfile w' = podfile w
   ∧ actions (added w w') = [])
  ∧ (removePodSpecs plugin_id isSwiftPackagePlugin proofDeclaration drop_at_zero
       plugin podSpecs options w = (Thrown e, w') →
     pods_json w' = pods_json w ∧ podfile w' = podfile w
     ∧ actions (added w w') = []).
Proof.
  split.
  - unfold addPodSpecs. destruct podSpecs as [|obj rest]; [done |].
    destruct (run _ (open_session w)) as [[[]|e'] s]; [done |].
    intros [= -> <-]. unfold abort. cbn [pods_json podfile].
    rewrite added_app. auto using actions_events.
  - unfold removePodSpecs. destruct podSpecs as [|obj rest]; [done |].
    destruct (run _ (open_session w)) as [[[]|e'] s]; [done |].
    intros [= -> <-]. unfold abort. cbn [pods_json podfile].
    rewrite added_app. auto using actions_events.
Qed.


(** *** Install only adds *)

Lemma add_declaration_step decls key s s' :
  run (add_declaration proofDeclaration decls key) s = (Returned tt, s') →
  install_step s s'.
Proof.
  destruct (decide (default JUndefined (obj_get decls key) = JStr "true")) as [Hv|Hv].
  - destruct (PodsJson.get Declarations (proofDeclaration key) (podsjsonFile s))
      as [l|] eqn:Hget.
    + rewrite (add_declaration_present _ _ _ _ _ Hv Hget). intros [= <-].
      rewrite <- (app_nil_r (emitted s)). by eapply install_count.
    + rewrite (add_declaration_absent _ _ _ _ Hv Hget). intros [= <-].
      by apply install_register.
  - rewrite (add_declaration_skipped _ _ _ _ Hv). intros [= <-]. constructor.
Qed.

Lemma add_source_step (srcs : list (string * jsobj)) key s s' :
  run (add_source srcs key) s = (Returned tt, s') → install_step s s'.
Proof.
  destruct (PodsJson.get Sources key (podsjsonFile s)) as [l|] eqn:Hget.
  - rewrite (add_source_present _ _ _ _ Hget). intros [= <-].
    rewrite <- (app_nil_r (emitted s)). by eapply install_count.
  - rewrite (add_source_absent _ _ _ Hget). intros [= <-].
    by apply install_register.
Qed.

Lemma add_library_step plugin options isSPM (libs : list (string * jsobj)) key s s' :
  run (add_library plugin_id plugin options isSPM libs key) s = (Returned tt, s') →
  install_step s s'.
Proof.
  destruct (wants_pod isSPM (default ∅ (obj_get libs key))) eqn:Hg.
  - rewrite (add_wants_podd _ _ _ _ _ _ _ Hg).
    destruct (replacePodSpecVariables (default ∅ (obj_get libs key)) options)
      as [podJson|e] eqn:Hr.
    + destruct (PodsJson.get Libraries key (podsjsonFile s)) as [l|] eqn:Hget.
      * rewrite (add_library_body_present _ _ _ _ _ _ _ _ Hr Hget).
        intros [= <-]. by eapply install_count.
      * rewrite (add_library_body_absent _ _ _ _ _ _ _ Hr Hget).
        destruct (Podfile.addSpec _ _ _) as [P'|e] eqn:Hadd; [|done].
        intros [= <-]. apply install_register; [done |].
        simpl. rewrite <- Hadd. f_equal.
        unfold get_field. by rewrite lookup_insert_ne.
    + by rewrite (add_library_body_throws _ _ _ _ _ _ _ Hr).
  - rewrite (add_library_skipped _ _ _ _ _ _ _ Hg). intros [= <-]. constructor.
Qed.

(** Whatever install steps keep, and the emission of events keeps, a run
    of [add_all] that returns keeps. *)
Lemma add_all_within (R : Session → Session → Prop) plugin podSpecs options s s' :
  (∀ s0, R s0 s0) →
  (∀ s0 s1 s2, R s0 s1 → R s1 s2 → R s0 s2) →
  (∀ s0 s1, install_step s0 s1 → R s0 s1) →
  (∀ s0 ev, R s0 (mkSession (podsjsonFile s0) (podfileFile s0)
                     (emitted s0 ++ [ev])%list)) →
  run (add_all plugin_id isSwiftPackagePlugin proofDeclaration plugin podSpecs options) s
  = (Returned tt, s') →
  R s s'.
Proof.
  intros Hrefl Htrans Hstep Hemit Hrun. unfold add_all in Hrun.
  apply run_bind_returned in Hrun as ([] & s1 & H1 & H2).
  injection H1 as <-. eapply Htrans; [apply Hemit |].
  assert (Hall : ∀ {A} (f : A → Eng unit) (xs : list A) sa sb,
    (∀ x s0 s1, run (f x) s0 = (Returned tt, s1) → R s0 s1) →
    run (forEach xs f) sa = (Returned tt, sb) → R sa sb).
  { intros A f xs sa sb Hf Hr.
    apply (forEach_returned (I := unit) (λ _, R) (λ _, []) f) with (l := xs);
      eauto. }
  eapply Hall; [|exact H2]. clear H2.
  intros obj s0 s1. rewrite add_podSpec_guarded. unfold add_podSpec, guarded.
  cbn [declarations sources libraries forEachKey]. intros Hrun.
  apply run_bind_returned in Hrun as ([] & sa & Ha & Hrun).
  apply run_bind_returned in Hrun as ([] & sb & Hb & Hc).
  eapply Htrans; [|eapply Htrans].
  - eapply Hall; [|exact Ha]. intros key ? ? ?%add_declaration_step. auto.
  - eapply Hall; [|exact Hb]. intros key ? ? ?%add_source_step. auto.
  - eapply Hall; [|exact Hc]. intros key ? ? ?%add_library_step. auto.
Qed.

Lemma lines_kept_refl m : lines_kept m m.
Proof. split; [|split]; auto. Qed.

Lemma lines_kept_trans m1 m2 m3 :
  lines_kept m1 m2 → lines_kept m2 m3 → lines_kept m1 m3.
Proof. intros (? & ? & ?) (? & ? & ?). split; [|split]; auto. Qed.

Lemma only_grown_refl s : only_grown s s.
Proof.
  intros Hf. split; [done |]. split; [|apply lines_kept_refl].
  intros k key l Hget. split; [done |]. exists 0. split; [done |].
  by rewrite update_count_zero.
Qed.

Lemma only_grown_trans s1 s2 s3 :
  only_grown s1 s2 → only_grown s2 s3 → only_grown s1 s3.
Proof.
  intros H12 H23 Hf1. destruct (H12 Hf1) as (Hf2 & He12 & Hl12).
  destruct (H23 Hf2) as (Hf3 & He23 & Hl23).
  split; [done |]. split; [|by eapply lines_kept_trans].
  intros k key l Hget. destruct (He12 _ _ _ Hget) as (Hget2 & n & Hn & Hh2).
  destruct (He23 _ _ _ Hget2) as (Hget3 & m & Hm & Hh3).
  split; [done |]. exists (m + n). split; [lia |].
  rewrite Hh3, Hh2, update_count_compose. apply update_count_ext. intros c. lia.
Qed.

Lemma enters_lines_kept k key json (P P' : Podfile.t) :
  enters k key json P P' → lines_kept (Podfile.current P) (Podfile.current P').
Proof.
  intros Hent. destruct k; simpl in Hent.
  - subst P'. split; [|split]; simpl; [|done | done].
    intros d. apply put_subseteq.
  - subst P'. split; [|split]; simpl; [done | | done].
    intros u. apply put_subseteq.
  - apply addSpec_loaded in Hent as (_ & n & _ & Hd & Hs & Hp).
    split; [|split].
    + by rewrite Hd.
    + by rewrite Hs.
    + intros n' Hn'. rewrite Hp. apply (put_pod_names proofDeclaration). by right.
Qed.

Lemma install_step_only_grown s s' : install_step s s' → only_grown s s'.
Proof.
  destruct 1 as [|k key l evs Hget|k key json P' Hget Hent];
    [apply only_grown_refl | |]; intros Hf.
  - cbn [podsjsonFile podfileFile]. split; [|split; [|apply lines_kept_refl]].
    + intros k' key' n. unfold PodsJson.get, count_up. rewrite contents_store.
      apply Hf.
    + intros k' key' l' Hget'. unfold PodsJson.get, count_up.
      rewrite contents_store, heap_store. split; [done |].
      case_decide as Heq.
      * subst l'. exists 1. split; [done |]. apply update_count_ext. intros c. lia.
      * exists 0. split; [done |]. by rewrite update_count_zero.
  - cbn [podsjsonFile podfileFile]. split; [|split; [|by eapply enters_lines_kept]].
    + intros k' key' n. rewrite get_setJson. case_decide.
      * intros [= <-]. simpl. lia.
      * intros Hold%Hf. simpl. lia.
    + intros k' key' l' Hget'. rewrite get_setJson, heap_setJson.
      rewrite decide_False by (intros [= -> ->]; congruence).
      split; [done |]. exists 0. split; [done |].
      rewrite decide_False; [by rewrite update_count_zero |].
      intros ->. apply Hf in Hget'. lia.
Qed.

Lemma serialize_load (f : PodsJson.file) : PodsJson.serialize (PodsJson.load f) = f.
Proof.
  assert (Hsec : ∀ k, PodsJson.section k (PodsJson.serialize (PodsJson.load f))
                      = PodsJson.section k f).
  { intros k. rewrite section_serialize. apply map_eq. intros key.
    rewrite lookup_fmap. pose proof (get_load k key f) as Hget.
    unfold PodsJson.get in Hget. rewrite Hget.
    destruct (PodsJson.section k f !! key) as [e|] eqn:He; [|done].
    simpl. by rewrite He. }
  pose proof (Hsec Declarations) as Hd. pose proof (Hsec Sources) as Hs.
  pose proof (Hsec Libraries) as Hl. simpl in Hd, Hs, Hl.
  destruct f as [fd fs fl]. unfold PodsJson.serialize. simpl in *.
  by rewrite Hd, Hs, Hl.
Qed.

(** X3.  When [addPodSpecs] returns, nothing is lost and what another
    plugin registered first stands: every entry that [pods.json] had is
    still there with the same payload and a count that went up by some
    [n >= 0], and every declaration, source and library name that the
    [Podfile] had is still in it. *)
Theorem install_only_adds plugin podSpecs options w w' :
  addPodSpecs plugin_id isSwiftPackagePlugin proofDeclaration plugin podSpecs options w
  = (Returned tt, w') →
  (∀ k key e,
     PodsJson.section k (pods_json w) !! key = Some e →
     ∃ n : Z, (0 ≤ n)%Z
          ∧ PodsJson.section k (pods_json w') !! key
            = Some (PodsJson.update_count (Z.add n) e))
  ∧ lines_kept (podfile w) (podfile w').
Proof.
  intros Hcall. destruct (decide (podSpecs = [])) as [->|Hne].
  { injection Hcall as <-. split; [|apply lines_kept_refl].
    intros k key e He. exists 0. by rewrite update_count_zero. }
  unfold addPodSpecs in Hcall. destruct podSpecs as [|obj rest] eqn:Hps; [done |].
  rewrite <- Hps in Hcall.
  destruct (run _ (open_session w)) as [[[]|e] s1] eqn:Hrun; [|done].
  injection Hcall as <-.
  pose proof (add_all_installs _ _ _ _ _ _ _ _ Hrun) as [(_ & _ & Hl & _) _].
  destruct (finish_spec true "Running `pod install` (to install plugins)" w s1 Hl)
    as (Hpj & _ & _ & Hpf).
  apply (add_all_within only_grown) in Hrun;
    [|apply only_grown_refl | apply only_grown_trans | apply install_step_only_grown|].
  2:{ intros s0 ev Hf. split; [done |]. split; [|apply lines_kept_refl].
      intros k key l Hget. split; [done |]. exists 0. split; [done |].
      by rewrite update_count_zero. }
  destruct Hrun as (_ & Hent & Hlines).
  { intros k key n Hget. by apply load_as_loaded in Hget. }
  rewrite Hpj, Hpf. split; [|exact Hlines].
  intros k key e He.
  destruct (Hent k key (Loaded k key)) as (Hget1 & n & Hn & Hh).
  { simpl. rewrite get_load, He. done. }
  exists n. split; [done |].
  rewrite section_serialize, lookup_fmap. unfold PodsJson.get in Hget1.
  rewrite Hget1. simpl. rewrite Hh. simpl. by rewrite He.
Qed.

(** *** Uninstall only removes *)

Lemma remove_declaration_step plugin decls key s s' :
  run (remove_declaration plugin_id proofDeclaration drop_at_zero plugin decls key) s
  = (Returned tt, s') →
  uninstall_step drop_at_zero s s'.
Proof.
  destruct (decide (default JUndefined (obj_get decls key) = JStr "true")) as [Hv|Hv].
  - destruct (PodsJson.get Declarations (proofDeclaration key) (podsjsonFile s))
      as [l|] eqn:Hget.
    + rewrite (remove_declaration_present _ _ _ _ _ _ _ _ Hv Hget). intros [= <-].
      exact (uninstall_count drop_at_zero s Declarations (proofDeclaration key) l
               (JStr (proofDeclaration key)) Hget).
    + rewrite (remove_declaration_absent _ _ _ _ _ _ _ Hv Hget). intros [= <-].
      exact (uninstall_missing drop_at_zero s Declarations (proofDeclaration key)
               (JStr (proofDeclaration key)) _ Hget).
  - rewrite (remove_declaration_skipped _ _ _ _ _ _ _ Hv). intros [= <-]. constructor.
Qed.

Lemma remove_source_step plugin (srcs : list (string * jsobj)) key s s' :
  run (remove_source plugin_id drop_at_zero plugin srcs key) s = (Returned tt, s') →
  uninstall_step drop_at_zero s s'.
Proof.
  destruct (PodsJson.get Sources key (podsjsonFile s)) as [l|] eqn:Hget.
  - rewrite (remove_source_present _ _ _ _ _ _ _ Hget). intros [= <-].
    exact (uninstall_count drop_at_zero s Sources key l
             (get_field (default ∅ (obj_get srcs key)) "source") Hget).
  - rewrite (remove_source_absent _ _ _ _ _ _ Hget). intros [= <-].
    exact (uninstall_missing drop_at_zero s Sources key
             (get_field (default ∅ (obj_get srcs key)) "source") _ Hget).
Qed.

Lemma remove_library_step plugin options isSPM (libs : list (string * jsobj)) key s s' :
  run (remove_library plugin_id drop_at_zero plugin options isSPM libs key) s
  = (Returned tt, s') →
  uninstall_step drop_at_zero s s'.
Proof.
  destruct (wants_pod isSPM (default ∅ (obj_get libs key))) eqn:Hg.
  - rewrite (remove_wants_podd _ _ _ _ _ _ _ _ Hg).
    destruct (replacePodSpecVariables (default ∅ (obj_get libs key)) options)
      as [podJson|e] eqn:Hr.
    + destruct (PodsJson.get Libraries key (podsjsonFile s)) as [l|] eqn:Hget.
      * rewrite (remove_library_body_present _ _ _ _ _ _ _ _ _ Hr Hget).
        intros [= <-].
        exact (uninstall_count drop_at_zero s Libraries key l
                 (get_field podJson "name") Hget).
      * rewrite (remove_library_body_absent _ _ _ _ _ _ _ _ Hr Hget).
        intros [= <-].
        exact (uninstall_missing drop_at_zero s Libraries key
                 (get_field podJson "name") _ Hget).
    + unfold remove_library_body. eng_unfold. by rewrite Hr.
  - rewrite (remove_library_skipped _ _ _ _ _ _ _ _ Hg). intros [= <-]. constructor.
Qed.

(** Whatever uninstall steps keep, and the emission of a [verbose] event
    keeps, a run of [remove_all] that returns keeps. *)
Lemma remove_all_within (R : Session → Session → Prop) plugin podSpecs options s s' :
  (∀ s0, R s0 s0) →
  (∀ s0 s1 s2, R s0 s1 → R s1 s2 → R s0 s2) →
  (∀ s0 s1, uninstall_step drop_at_zero s0 s1 → R s0 s1) →
  (∀ s0 message, R s0 (mkSession (podsjsonFile s0) (podfileFile s0)
                          (emitted s0 ++ [Emit verbose message])%list)) →
  run (remove_all plugin_id isSwiftPackagePlugin proofDeclaration drop_at_zero plugin
         podSpecs options) s = (Returned tt, s') →
  R s s'.
Proof.
  intros Hrefl Htrans Hstep Hemit Hrun. unfold remove_all in Hrun.
  apply run_bind_returned in Hrun as ([] & s1 & H1 & H2).
  injection H1 as <-. eapply Htrans; [apply Hemit |].
  assert (Hall : ∀ {A} (f : A → Eng unit) (xs : list A) sa sb,
    (∀ x s0 s1, run (f x) s0 = (Returned tt, s1) → R s0 s1) →
    run (forEach xs f) sa = (Returned tt, sb) → R sa sb).
  { intros A f xs sa sb Hf Hr.
    apply (forEach_returned (I := unit) (λ _, R) (λ _, []) f) with (l := xs);
      eauto. }
  eapply Hall; [|exact H2]. clear H2.
  intros obj s0 s1. unfold remove_podSpec. intros Hrun.
  apply run_bind_returned in Hrun as ([] & sa & Ha & Hrun).
  apply run_bind_returned in Hrun as ([] & sb & Hb & Hc).
  destruct (declarations obj) as [decls|]; [|done].
  destruct (sources obj) as [srcs|]; [|done].
  destruct (libraries obj) as [libs|]; [|done].
  cbn [forEachKey] in *.
  eapply Htrans; [|eapply Htrans].
  - eapply Hall; [|exact Ha]. intros key ? ? ?%remove_declaration_step. auto.
  - eapply Hall; [|exact Hb]. intros key ? ? ?%remove_source_step. auto.
  - eapply Hall; [|exact Hc]. intros key ? ? ?%remove_library_step. auto.
Qed.

Lemma only_shrunk_refl s : only_shrunk s s.
Proof.
  split; [done |]. split; [done |]. split; [apply lines_kept_refl |].
  exists []. by rewrite app_nil_r.
Qed.

Lemma only_shrunk_trans s1 s2 s3 :
  only_shrunk s1 s2 → only_shrunk s2 s3 → only_shrunk s1 s3.
Proof.
  intros (Hg12 & Hh12 & Hl12 & evs12 & He12 & Hv12)
         (Hg23 & Hh23 & Hl23 & evs23 & He23 & Hv23).
  split; [auto |]. split; [intros l f Hf; by rewrite Hh23, Hh12 |].
  split; [by eapply lines_kept_trans |].
  exists (evs12 ++ evs23)%list. split; [|by apply Forall_app].
  by rewrite He23, He12, (assoc_L (++)%list).
Qed.

Lemma remove_line_lines_kept k v (P : Podfile.t) :
  lines_kept (Podfile.current (remove_line k v P)) (Podfile.current P).
Proof.
  destruct k; simpl; (split; [|split]); simpl; try done.
  - by intros d [_ ?]%list_elem_of_filter.
  - by intros u [_ ?]%list_elem_of_filter.
  - intros n. rewrite !list_elem_of_fmap. intros (p & -> & [_ Hp]%list_elem_of_filter).
    by exists p.
Qed.

Lemma uninstall_step_only_shrunk s s' :
  uninstall_step drop_at_zero s s' → only_shrunk s s'.
Proof.
  destruct 1 as [|k key l v Hget|k key v message Hget]; [apply only_shrunk_refl | |].
  - destruct (decrement_present drop_at_zero _ _ _ _ Hget) as (Hh & Hother & Hkeys & Hkey).
    cbn zeta in Hh, Hother, Hkeys, Hkey.
    split; [|split; [|split]]; cbn [podsjsonFile podfileFile emitted].
    + intros k' key' l'. destruct (decide ((k', key') = (k, key))) as [[= -> ->]|Hne].
      * rewrite Hkey. destruct (_ && _); [done |]. by intros [= <-].
      * by rewrite Hkeys.
    + intros l' f Hf. destruct (decide (l' = l)) as [->|Hne].
      * rewrite Hh. by apply update_count_payload.
      * by rewrite Hother.
    + destruct (strict_eq _ _); [apply remove_line_lines_kept | apply lines_kept_refl].
    + exists []. by rewrite app_nil_r.
  - split; [done |]. split; [done |]. split; [apply remove_line_lines_kept |].
    eexists. split; [done |]. by apply Forall_singleton.
Qed.

(** X4.  When [removePodSpecs] returns, nothing was added: every entry of
    [pods.json] was there before the call, with the same payload, every
    declaration, source and library name of the [Podfile] was in it, and
    no event of the call is a warning. *)
Theorem uninstall_only_removes plugin podSpecs options w w' :
  removePodSpecs plugin_id isSwiftPackagePlugin proofDeclaration drop_at_zero plugin
    podSpecs options w = (Returned tt, w') →
  (∀ k key e',
     PodsJson.section k (pods_json w') !! key = Some e' →
     ∃ e, PodsJson.section k (pods_json w) !! key = Some e
          ∧ ∀ f, f ≠ "count" → e' !! f = e !! f)
  ∧ lines_kept (podfile w') (podfile w)
  ∧ Forall (λ eff, ∀ ev, eff = Event ev → ev_level ev = verbose) (added w w').
Proof.
  intros Hcall. destruct (decide (podSpecs = [])) as [->|Hne].
  { injection Hcall as <-. split; [by eauto |]. split; [apply lines_kept_refl |].
    unfold added. by rewrite drop_all. }
  unfold removePodSpecs in Hcall. destruct podSpecs as [|obj rest] eqn:Hps; [done |].
  rewrite <- Hps in Hcall.
  destruct (run _ (open_session w)) as [[[]|e] s1] eqn:Hrun; [|done].
  injection Hcall as <-.
  pose proof (remove_all_loaded _ _ _ _ _ _ _ _ _ Hrun) as Hl.
  destruct (finish_spec false "Running `pod install` (to uninstall pods)" w s1 Hl)
    as (Hpj & _ & _ & Hpf).
  apply (remove_all_within only_shrunk) in Hrun;
    [|apply only_shrunk_refl | apply only_shrunk_trans
     |apply uninstall_step_only_shrunk|].
  2:{ intros s0 message. split; [done |]. split; [done |].
      split; [apply lines_kept_refl |]. eexists. split; [done |].
      by apply Forall_singleton. }
  destruct Hrun as (Hget & Hheap & Hlines & evs & Hevs & Hverbose).
  split; [|split].
  - intros k key e'. rewrite Hpj, section_serialize, lookup_fmap.
    destruct (PodsJson.contents k (podsjsonFile s1) !! key) as [l|] eqn:Hl1; [|done].
    intros [= <-]. apply Hget in Hl1. pose proof Hl1 as Hl0.
    apply load_as_loaded in Hl0 as ->. simpl in Hl1. rewrite get_load in Hl1.
    destruct (PodsJson.section k (pods_json w) !! key) as [e|] eqn:He; [|done].
    exists e. split; [done |]. intros f Hf. rewrite (Hheap _ _ Hf).
    simpl. by rewrite He.
  - by rewrite Hpf.
  - simpl in Hevs. unfold finish. rewrite Hevs.
    destruct (Podfile.isDirty (podfileFile s1));
      rewrite <- !(assoc_L (++)%list), added_app;
      repeat (apply Forall_app; split);
      try (apply Forall_fmap, Forall_forall; intros ev Hev ev' [= <-];
           by eapply (proj1 (Forall_forall _ _) Hverbose));
      repeat (apply Forall_cons; split; [by intros ev' [= <-] || by intros ev' [=] |]);
      try apply Forall_nil_2.
Qed.

(** *** A call that acts on no unit *)

Lemma flat_map_nil_inv {A B : Type} (f : A → list B) (xs : list A) :
  flat_map f xs = [] → Forall (λ x, f x = []) xs.
Proof.
  induction xs as [|x xs IH]; [constructor |].
  simpl. intros [? ?]%app_eq_nil. constructor; auto.
Qed.

Lemma forEach_skipped {A : Type} (f : A → Eng unit) (xs : list A) s :
  Forall (λ x, ∀ s0, run (f x) s0 = (Returned tt, s0)) xs →
  run (forEach xs f) s = (Returned tt, s).
Proof.
  induction 1 as [|x xs Hx _ IH]; [done |].
  simpl. by rewrite run_bind, Hx.
Qed.

Lemma touched_declaration_nil decls key :
  touched_declaration proofDeclaration decls key = [] →
  default JUndefined (obj_get decls key) ≠ JStr "true".
Proof.
  unfold touched_declaration, strict_eq. by case_bool_decide.
Qed.

Lemma touched_library_nil isSPM (libs : list (string * jsobj)) key :
  touched_library isSPM libs key = [] →
  wants_pod isSPM (default ∅ (obj_get libs key)) = false.
Proof. unfold touched_library. by destruct (wants_pod _ _). Qed.

Lemma add_podSpec_no_unit plugin options obj s :
  touched_podSpec isSwiftPackagePlugin proofDeclaration plugin obj = [] →
  run (add_podSpec plugin_id isSwiftPackagePlugin proofDeclaration plugin options obj) s
  = (Returned tt, s).
Proof.
  unfold touched_podSpec. intros (Hd & (Hs & Hl)%app_eq_nil)%app_eq_nil.
  rewrite add_podSpec_guarded. unfold add_podSpec, guarded.
  cbn [declarations sources libraries forEachKey].
  rewrite run_bind, forEach_skipped, run_bind, forEach_skipped, forEach_skipped;
    [done | | |].
  - eapply Forall_impl; [exact (flat_map_nil_inv _ _ Hl) |].
    intros key Hk s0. by apply add_library_skipped, touched_library_nil.
  - eapply Forall_impl; [exact (flat_map_nil_inv _ _ Hs) |]. by intros key [=].
  - eapply Forall_impl; [exact (flat_map_nil_inv _ _ Hd) |].
    intros key Hk s0. by apply add_declaration_skipped, touched_declaration_nil.
Qed.

Lemma remove_podSpec_no_unit plugin options obj s :
  is_Some (declarations obj) → is_Some (sources obj) → is_Some (libraries obj) →
  touched_podSpec isSwiftPackagePlugin proofDeclaration plugin obj = [] →
  run (remove_podSpec plugin_id isSwiftPackagePlugin proofDeclaration drop_at_zero
         plugin options obj) s = (Returned tt, s).
Proof.
  intros [decls Hdecls] [srcs Hsrcs] [libs Hlibs].
  unfold touched_podSpec, remove_podSpec. rewrite Hdecls, Hsrcs, Hlibs.
  cbn [default forEachKey]. intros (Hd & (Hs & Hl)%app_eq_nil)%app_eq_nil.
  rewrite run_bind, forEach_skipped, run_bind, forEach_skipped, forEach_skipped;
    [done | | |].
  - eapply Forall_impl; [exact (flat_map_nil_inv _ _ Hl) |].
    intros key Hk s0. by apply remove_library_skipped, touched_library_nil.
  - eapply Forall_impl; [exact (flat_map_nil_inv _ _ Hs) |]. by intros key [=].
  - eapply Forall_impl; [exact (flat_map_nil_inv _ _ Hd) |].
    intros key Hk s0. by apply remove_declaration_skipped, touched_declaration_nil.
Qed.

Lemma finish_untouched purge running w evs :
  finish purge running w
    (mkSession (PodsJson.load (pods_json w)) (Podfile.load (podfile w)) evs)
  = mkWorld (pods_json w) (podfile w)
      (trace w ++ (Event <$> evs) ++ [WritePodsJson]
         ++ [Event (Emit verbose "Podfile unchanged, skipping `pod install`")])%list.
Proof.
  unfold finish. cbn [podsjsonFile podfileFile emitted].
  rewrite load_not_dirty, serialize_load. by rewrite <- !(assoc_L (++)%list).
Qed.

Lemma removePodSpecs_nonempty plugin podSpecs options w :
  podSpecs ≠ [] →
  removePodSpecs plugin_id isSwiftPackagePlugin proofDeclaration drop_at_zero plugin
    podSpecs options w
  = match run (remove_all plugin_id isSwiftPackagePlugin proofDeclaration drop_at_zero
                 plugin podSpecs options) (open_session w) with
    | (Returned _, s) =>
        (Returned tt, finish false "Running `pod install` (to uninstall pods)" w s)
    | (Thrown e, s) => (Thrown e, abort w s)
    end.
Proof. by destruct podSpecs. Qed.

(** X6.  A call with pod specs in which there is nothing to act on -- no
    declaration whose value is ['true'], no source, no library or only
    libraries that are passed over -- leaves the content of [pods.json] and
    of the [Podfile] as it was, writes [pods.json] and does nothing else:
    no [Podfile] is written and [pod install] is not run.  For
    [removePodSpecs] this needs the three sections of every pod spec to be
    there. *)
Theorem call_without_units_changes_nothing plugin podSpecs options w :
  podSpecs ≠ [] →
  touched isSwiftPackagePlugin proofDeclaration plugin podSpecs = [] →
  (∃ w', addPodSpecs plugin_id isSwiftPackagePlugin proofDeclaration plugin podSpecs
           options w = (Returned tt, w')
         ∧ pods_json w' = pods_json w ∧ podfile w' = podfile w
         ∧ actions (added w w') = [WritePodsJson])
  ∧ (Forall (λ obj, is_Some (declarations obj) ∧ is_Some (sources obj)
                    ∧ is_Some (libraries obj)) podSpecs →
     ∃ w', removePodSpecs plugin_id isSwiftPackagePlugin proofDeclaration drop_at_zero
             plugin podSpecs options w = (Returned tt, w')
           ∧ pods_json w' = pods_json w ∧ podfile w' = podfile w
           ∧ actions (added w w') = [WritePodsJson]).
Proof.
  intros Hne Hnone. apply flat_map_nil_inv in Hnone.
  assert (Hact : ∀ evs tl,
    actions ((Event <$> evs) ++ [WritePodsJson] ++ [Event tl])%list = [WritePodsJson]).
  { intros evs tl. unfold actions. rewrite filter_app.
    fold (actions (Event <$> evs)). by rewrite actions_events. }
  split.
  - assert (run (add_all plugin_id isSwiftPackagePlugin proofDeclaration plugin
                   podSpecs options) (open_session w)
            = (Returned tt,
               mkSession (PodsJson.load (pods_json w)) (Podfile.load (podfile w))
                 [Emit verbose "Adding pods since the plugin contained <podspecs>"]))
      as Hrun.
    { unfold add_all. rewrite run_bind.
      change (run (emit verbose ?m) (open_session w))
        with (Returned tt,
              mkSession (PodsJson.load (pods_json w)) (Podfile.load (podfile w))
                [Emit verbose m]).
      apply forEach_skipped. eapply Forall_impl; [exact Hnone |].
      intros obj Hobj s0. by apply add_podSpec_no_unit. }
    eexists. split.
    { rewrite (addPodSpecs_nonempty _ _ _ _ _ _ _ Hne), Hrun, finish_untouched.
      reflexivity. }
    cbn [pods_json podfile]. split; [done |]. split; [done |].
    by rewrite added_app, Hact.
  - intros Hall.
    assert (run (remove_all plugin_id isSwiftPackagePlugin proofDeclaration drop_at_zero
                   plugin podSpecs options) (open_session w)
            = (Returned tt,
               mkSession (PodsJson.load (pods_json w)) (Podfile.load (podfile w))
                 [Emit verbose "Adding pods since the plugin contained <podspecs>"]))
      as Hrun.
    { unfold remove_all. rewrite run_bind.
      change (run (emit verbose ?m) (open_session w))
        with (Returned tt,
              mkSession (PodsJson.load (pods_json w)) (Podfile.load (podfile w))
                [Emit verbose m]).
      apply forEach_skipped. apply Forall_forall. intros obj Hobj s0.
      destruct (proj1 (Forall_forall _ _) Hall obj Hobj) as (? & ? & ?).
      apply remove_podSpec_no_unit; try done.
      by apply (proj1 (Forall_forall _ _) Hnone obj Hobj). }
    eexists. split.
    { rewrite (removePodSpecs_nonempty _ _ _ _ Hne), Hrun, finish_untouched.
      reflexivity. }
    cbn [pods_json podfile]. split; [done |]. split; [done |].
    by rewrite added_app, Hact.
Qed.

End Further.

(** *** What makes [replacePodSpecVariables] throw *)

Lemma replace_fields_returns (fields : list string) (options : Options) :
  NoDup fields →
  ∀ pod,
    (Forall (λ f, pin_resolves options (get_field pod f)) fields →
     ∃ pod', replace_fields fields pod options = Returned pod')
    ∧ (∀ e, replace_fields fields pod options = Thrown e →
            e = TypeError
            ∧ ∃ f, f ∈ fields ∧ ¬ pin_resolves options (get_field pod f)).
Proof.
  induction 1 as [|obj fields Hnin Hnd IH]; intros pod; simpl.
  - split; [by eauto | done].
  - assert (Hsame : ∀ v f, f ∈ fields →
              get_field (<[obj := v]> pod) f = get_field pod f).
    { intros v f Hf. unfold get_field. rewrite lookup_insert_ne; [done |].
      by intros ->. }
    destruct (getVariableSpec_outcome (get_field pod obj) options) as [Hok Herr].
    destruct (getVariableSpec (get_field pod obj) options) as [v|e0] eqn:Hv.
    + destruct (IH (<[obj := v]> pod)) as [IHok IHerr]. split.
      * intros [_ Hrest]%Forall_cons. apply IHok.
        apply Forall_forall. intros f Hf. rewrite (Hsame _ _ Hf).
        by apply (proj1 (Forall_forall _ _) Hrest).
      * intros e He. destruct (IHerr e He) as (-> & f & Hf & Hno).
        split; [done |]. exists f. split; [by right |].
        by rewrite (Hsame _ f Hf) in Hno.
    + destruct (Herr e0 eq_refl) as [-> Hno]. split.
      * intros [Hyes _]%Forall_cons. by destruct (Hok Hyes).
      * intros e [= <-]. split; [done |]. exists obj. split; [by left | done].
Qed.

(** X5.  [replacePodSpecVariables] returns when every truthy one among
    [spec], [tag], [git], [commit] and [branch] is a string, and one with a
    ['$'] only if [options.cli_variables] is an object; when it throws, it
    is with a [TypeError], and one of the five is truthy and is not a
    string, or has a ['$'] while [options] or [options.cli_variables] is
    missing. *)
Theorem replacePodSpecVariables_throws_on_unresolvable_pin
    (pod : jsobj) (options : Options) :
  ((∀ f, f ∈ podSpecs_fields → truthy (get_field pod f) = true →
         ∃ str, get_field pod f = JStr str
                ∧ (JsString.includes dollar str = true →
                   ∃ variables, options = OptionsObject (Some variables))) →
   ∃ pod', replacePodSpecVariables pod options = Returned pod')
  ∧ (∀ e, replacePodSpecVariables pod options = Thrown e →
          e = TypeError
          ∧ ∃ f, f ∈ podSpecs_fields ∧ truthy (get_field pod f) = true
                 ∧ ((∀ str, get_field pod f ≠ JStr str)
                    ∨ ∃ str, get_field pod f = JStr str
                             ∧ JsString.includes dollar str = true
                             ∧ (options = NoOptions
                                ∨ options = OptionsObject None))).
Proof.
  unfold replacePodSpecVariables.
  destruct (replace_fields_returns
              (filter (λ e, truthy (get_field pod e) = true) podSpecs_fields) options
              (NoDup_filter _ _ podSpecs_fields_NoDup) pod) as [Hok Herr].
  split.
  - intros Hstr. apply Hok. apply Forall_forall.
    intros f [Ht Hf]%list_elem_of_filter. by apply Hstr.
  - intros e He. destruct (Herr e He) as (-> & f & [Ht Hf]%list_elem_of_filter & Hno).
    split; [done |]. exists f. split; [done |]. split; [done |].
    destruct (get_field pod f) as [| |b|n|str|name text inspected] eqn:Hv;
      try (by left).
    right. exists str. split; [done |].
    destruct (JsString.includes dollar str) eqn:Hi.
    + split; [done |]. destruct options as [|[variables|]]; [by left | | by right].
      exfalso. apply Hno. exists str. split; [done |]. by eauto.
    + exfalso. apply Hno. exists str. split; [done |]. by rewrite Hi.
Qed.

Lemma replacePodSpecVariables_throws_on_unresolvable_pin_witness :
  (∃ pod', replacePodSpecVariables
             {[ "name" := JStr "AFNetworking"; "spec" := JStr "~> 4.0" ]}
             NoOptions = Returned pod')
  ∧ TypeError = TypeError
  ∧ ∃ f, f ∈ podSpecs_fields
         ∧ truthy (get_field ({[ "name" := JStr "AFNetworking";
                                 "spec" := JStr "$AFN_VERSION" ]} : jsobj) f) = true
         ∧ ((∀ str, get_field ({[ "name" := JStr "AFNetworking";
                                  "spec" := JStr "$AFN_VERSION" ]} : jsobj) f
                    ≠ JStr str)
            ∨ ∃ str, get_field ({[ "name" := JStr "AFNetworking";
                                   "spec" := JStr "$AFN_VERSION" ]} : jsobj) f
                     = JStr str
                     ∧ JsString.includes dollar str = true
                     ∧ (OptionsObject None = NoOptions
                        ∨ OptionsObject None = OptionsObject None)).
Proof.
  split.
  - apply (proj1 (replacePodSpecVariables_throws_on_unresolvable_pin
                    {[ "name" := JStr "AFNetworking"; "spec" := JStr "~> 4.0" ]}
                    NoOptions)).
    intros f Hf Ht.
    assert (f = "spec") as ->.
    { repeat (apply elem_of_cons in Hf as [->|Hf]); try done; by inversion Hf. }
    exists "~> 4.0". split; [done | discriminate].
  - apply (proj2 (replacePodSpecVariables_throws_on_unresolvable_pin
                    {[ "name" := JStr "AFNetworking"; "spec" := JStr "$AFN_VERSION" ]}
                    (OptionsObject None)) TypeError).
    vm_compute. reflexivity.
Defined.

(** ** The further properties on the example project *)

Lemma call_that_throws_writes_nothing_witness :
  pods_json
    (removePodSpecs demo_id demo_isSwiftPackagePlugin demo_proofDeclaration true
       plugin_A [podSpec_without_declarations] no_variables world_A).2
  = pods_json world_A
  ∧ podfile
      (removePodSpecs demo_id demo_isSwiftPackagePlugin demo_proofDeclaration true
         plugin_A [podSpec_without_declarations] no_variables world_A).2
    = podfile world_A
  ∧ actions
      (added world_A
         (removePodSpecs demo_id demo_isSwiftPackagePlugin demo_proofDeclaration
            true plugin_A [podSpec_without_declarations] no_variables world_A).2)
    = [].
Proof.
  apply (proj2 (call_that_throws_writes_nothing demo_id demo_isSwiftPackagePlugin
                  demo_proofDeclaration true plugin_A
                  [podSpec_without_declarations] no_variables world_A _ TypeError)).
  reflexivity.
Defined.


Lemma install_only_adds_witness :
  (∀ k key e,
     PodsJson.section k (pods_json world_A) !! key = Some e →
     ∃ n : Z, (0 ≤ n)%Z
          ∧ PodsJson.section k
              (pods_json
                 (addPodSpecs demo_id demo_isSwiftPackagePlugin demo_proofDeclaration
                    plugin_B [demo_podSpec] no_variables world_A).2) !! key
            = Some (PodsJson.update_count (Z.add n) e))
  ∧ lines_kept (podfile world_A)
      (podfile
         (addPodSpecs demo_id demo_isSwiftPackagePlugin demo_proofDeclaration
            plugin_B [demo_podSpec] no_variables world_A).2).
Proof.
  apply (install_only_adds demo_id demo_isSwiftPackagePlugin demo_proofDeclaration
           plugin_B [demo_podSpec] no_variables world_A).
  apply pair_of_fst. vm_compute. reflexivity.
Defined.

Lemma uninstall_only_removes_witness :
  (∀ k key e',
     PodsJson.section k
       (pods_json
          (removePodSpecs demo_id demo_isSwiftPackagePlugin demo_proofDeclaration
             true plugin_A [demo_podSpec] no_variables world_A).2) !! key
     = Some e' →
     ∃ e, PodsJson.section k (pods_json world_A) !! key = Some e
          ∧ ∀ f, f ≠ "count" → e' !! f = e !! f)
  ∧ lines_kept
      (podfile
         (removePodSpecs demo_id demo_isSwiftPackagePlugin demo_proofDeclaration
            true plugin_A [demo_podSpec] no_variables world_A).2)
      (podfile world_A)
  ∧ Forall (λ eff, ∀ ev, eff = Event ev → ev_level ev = verbose)
      (added world_A
         (removePodSpecs demo_id demo_isSwiftPackagePlugin demo_proofDeclaration
            true plugin_A [demo_podSpec] no_variables world_A).2).
Proof.
  apply (uninstall_only_removes demo_id demo_isSwiftPackagePlugin
           demo_proofDeclaration true plugin_A [demo_podSpec] no_variables world_A).
  apply pair_of_fst. vm_compute. reflexivity.
Defined.

Lemma call_without_units_changes_nothing_witness :
  ∃ w', addPodSpecs demo_id demo_isSwiftPackagePlugin demo_proofDeclaration plugin_S
          [mkPodSpec (Some [("use_modular_headers!", JBool true)]) (Some [])
             (Some demo_libraries_nospm)]
          no_variables world_A = (Returned tt, w')
        ∧ pods_json w' = pods_json world_A ∧ podfile w' = podfile world_A
        ∧ actions (added world_A w') = [WritePodsJson].
Proof.
  apply (proj1 (call_without_units_changes_nothing demo_id demo_isSwiftPackagePlugin
                  demo_proofDeclaration true plugin_S
                  [mkPodSpec (Some [("use_modular_headers!", JBool true)]) (Some [])
                     (Some demo_libraries_nospm)]
                  no_variables world_A ltac:(discriminate) eq_refl)).
Defined.

(** * Properties of [lib/versions.js] *)

Section VersionsProperties.

Import Versions.
Local Open Scope list_scope.

Variable child_process_spawnSync : jsstring → list jsstring → result spawned.
Context {SemVer : Type}.
Variable semver_parse : jsstring → option SemVer.
Variable semver_coerce : jsstring → option SemVer.
Variable semver_compare : SemVer → SemVer → Z.

Lemma spawnSync_Ok cmd args out :
  spawnSync child_process_spawnSync cmd args = Ok out ↔
  ∃ r, child_process_spawnSync cmd args = Ok r
       ∧ error r = None ∧ status r = Some 0%Z ∧ stdout r = out.
Proof.
  unfold spawnSync. split.
  - destruct (child_process_spawnSync cmd args) as [r|e]; [|done].
    destruct (error r) eqn:He; [done|].
    destruct (status r) as [[| |]|] eqn:Hs; try done.
    intros [= <-]. by exists r.
  - intros (r & -> & -> & -> & <-). done.
Qed.

Lemma strip_prefix_app p x : strip_prefix p (p ++ x) = Some x.
Proof.
  induction p as [|a p IH]; [done|]. cbn. by rewrite N.eqb_refl.
Qed.

Lemma strip_prefix_Some p s r : strip_prefix p s = Some r → s = p ++ r.
Proof.
  revert s. induction p as [|a p IH]; intros [|b s]; cbn; try done.
  - by intros [= <-].
  - by intros [= <-].
  - destruct (N.eqb_spec a b) as [->|]; [|done].
    intros H. by rewrite (IH _ H).
Qed.

Lemma after_first_eq p s :
  after_first p s
  = match strip_prefix p s with
    | Some r => Some r
    | None => match s with [] => None | _ :: s' => after_first p s' end
    end.
Proof. by destruct s. Qed.

Lemma after_first_skip p pre s :
  (∀ i, (i < List.length pre)%nat → strip_prefix p (drop i (pre ++ s)) = None) →
  after_first p (pre ++ s) = after_first p s.
Proof.
  induction pre as [|c pre IH]; [done|]. intros H.
  change ((c :: pre) ++ s) with (c :: (pre ++ s)).
  assert (H0 := H 0%nat ltac:(cbn; lia)).
  change (strip_prefix p (c :: (pre ++ s)) = None) in H0.
  rewrite after_first_eq, H0. apply IH. intros i Hi.
  apply (H (S i)). cbn. lia.
Qed.

Lemma after_first_None p s :
  (∀ i, strip_prefix p (drop i s) = None) → after_first p s = None.
Proof.
  induction s as [|c s IH]; intros H.
  - specialize (H 0%nat). change (strip_prefix p [] = None) in H.
    by rewrite after_first_eq, H.
  - assert (H0 := H 0%nat). change (strip_prefix p (c :: s) = None) in H0.
    rewrite after_first_eq, H0. apply IH. intros i. apply (H (S i)).
Qed.

Lemma dot_star_line v rest :
  Forall (λ c, is_line_terminator c = false) v →
  (rest = [] ∨ ∃ c rest', rest = c :: rest' ∧ is_line_terminator c = true) →
  dot_star (v ++ rest) = v.
Proof.
  intros Hv Hrest. induction Hv as [|c v Hc Hv IH]; cbn.
  - destruct Hrest as [->|(c & rest' & -> & Hc)]; [done|]. cbn. by rewrite Hc.
  - by rewrite Hc, IH.
Qed.

(** X7.  When [xcodebuild -version] ran cleanly, [get_apple_xcode_version]
    resolves with the text between the first [Xcode ] of its output and the
    end of that line; when the output has no [Xcode ] it rejects with a
    [CordovaError] that quotes the output. *)
Theorem xcode_version_is_rest_of_first_Xcode_line r :
  child_process_spawnSync (lit "xcodebuild") [lit "-version"] = Ok r →
  error r = None →
  status r = Some 0%Z →
  (∀ pre v rest,
     stdout r = pre ++ lit "Xcode " ++ v ++ rest →
     (∀ i, (i < List.length pre)%nat →
           strip_prefix (lit "Xcode ") (drop i (stdout r)) = None) →
     Forall (λ c, is_line_terminator c = false) v →
     (rest = [] ∨ ∃ c rest', rest = c :: rest' ∧ is_line_terminator c = true) →
     get_apple_xcode_version child_process_spawnSync = Resolved v)
  ∧ ((∀ i, strip_prefix (lit "Xcode ") (drop i (stdout r)) = None) →
     get_apple_xcode_version child_process_spawnSync
     = Rejected
         (CordovaError
            (lit "Could not determine Xcode version from output:"
             ++ [10%N] ++ stdout r))).
Proof.
  intros Hrun Herr Hstatus.
  assert (Hout : spawnSync child_process_spawnSync (lit "xcodebuild") [lit "-version"]
                 = Ok (stdout r)) by (apply spawnSync_Ok; by exists r).
  unfold get_apple_xcode_version. rewrite Hout. split.
  - intros pre v rest Heq Hfirst Hv Hrest. unfold exec_Xcode.
    rewrite Heq in Hfirst |- *.
    rewrite (after_first_skip _ _ _ Hfirst).
    assert (Hhit : after_first (lit "Xcode ") (lit "Xcode " ++ v ++ rest)
                   = Some (v ++ rest)).
    { by rewrite after_first_eq, strip_prefix_app. }
    rewrite Hhit. cbn [fmap option_fmap option_map settle].
    by rewrite (dot_star_line _ _ Hv Hrest).
  - intros Hnone. unfold exec_Xcode.
    by rewrite (after_first_None _ _ Hnone).
Qed.

Lemma settle_Resolved {A} (r : result A) a : settle r = Resolved a ↔ r = Ok a.
Proof. destruct r; cbn; split; congruence. Qed.

(** X8.  [get_tool_version] resolves only for one of its three tool names
    and only when the tool's command could be run and ended with status 0;
    for [ios-deploy] and [pod] the value is what the command wrote.  For any
    other name it rejects with a [CordovaError] that starts with the name,
    and runs nothing to find that out. *)
Theorem tool_version_needs_known_tool_and_clean_run toolName :
  (∀ v, get_tool_version child_process_spawnSync toolName = Resolved v →
     ∃ arg r,
       (toolName, arg) ∈ [(lit "xcodebuild", lit "-version");
                           (lit "ios-deploy", lit "--version");
                           (lit "pod", lit "--version")]
       ∧ child_process_spawnSync toolName [arg] = Ok r
       ∧ error r = None ∧ status r = Some 0%Z
       ∧ (toolName ≠ lit "xcodebuild" → v = stdout r))
  ∧ (toolName ∉ [lit "xcodebuild"; lit "ios-deploy"; lit "pod"] →
     ∀ other_spawnSync,
       get_tool_version other_spawnSync toolName
       = Rejected
           (CordovaError
              (toolName
               ++ lit " is not valid tool name. Valid names are: 'xcodebuild', 'ios-deploy', and 'pod'"))).
Proof.
  split.
  - intros v. unfold get_tool_version.
    destruct (decide (toolName = lit "xcodebuild")) as [->|Hx];
      [|destruct (decide (toolName = lit "ios-deploy")) as [->|Hd];
        [|destruct (decide (toolName = lit "pod")) as [->|Hp]; [|done]]].
    + unfold get_apple_xcode_version. intros Hres%settle_Resolved.
      destruct (spawnSync _ _ _) as [out|] eqn:Hout; [|done].
      apply spawnSync_Ok in Hout as (r & Hrun & Herr & Hst & _).
      exists (lit "-version"), r. repeat split; try done.
      apply list_elem_of_here.
    + unfold get_ios_deploy_version. intros Hres%settle_Resolved.
      apply spawnSync_Ok in Hres as (r & Hrun & Herr & Hst & Hv).
      exists (lit "--version"), r. repeat split; try done.
      apply list_elem_of_further, list_elem_of_here.
    + unfold get_cocoapods_version. intros Hres%settle_Resolved.
      apply spawnSync_Ok in Hres as (r & Hrun & Herr & Hst & Hv).
      exists (lit "--version"), r. repeat split; try done.
      do 2 apply list_elem_of_further. apply list_elem_of_here.
  - intros Hnot other. unfold get_tool_version.
    repeat (destruct (decide _) as [->|?];
            [exfalso; apply Hnot; repeat constructor|]).
    done.
Qed.

Lemma digits_spec s ds r :
  digits s = (ds, r) → s = ds ++ r ∧ Forall (λ c, is_digit c = true) ds.
Proof.
  revert ds r. induction s as [|c s IH]; intros ds r; cbn.
  - by intros [= <- <-].
  - destruct (is_digit c) eqn:Hc.
    + destruct (digits s) as [ds' r'] eqn:E. intros [= <- <-].
      destruct (IH _ _ eq_refl) as [-> Hds]. split; [done|]. by constructor.
    + by intros [= <- <-].
Qed.

Lemma dotted_here_spec s m :
  dotted_here s = Some m → dotted m ∧ ∃ post, s = m ++ post.
Proof.
  unfold dotted_here. destruct (digits s) as [major r] eqn:E1.
  destruct major as [|d major]; [done|]. destruct r as [|c r]; [done|].
  destruct (N.eqb_spec c 46) as [->|]; [|done].
  destruct (digits r) as [minor post] eqn:E2.
  destruct minor as [|d' minor]; [done|]. intros [= <-].
  apply digits_spec in E1 as [-> H1], E2 as [-> H2]. split.
  - exists (d :: major), (d' :: minor).
    split; [done|]. split; [discriminate|]. split; [discriminate|]. by split.
  - exists post. cbn. f_equal. by rewrite <- app_assoc.
Qed.

Lemma match_dotted_eq s :
  match_dotted s
  = match dotted_here s with
    | Some m => Some m
    | None => match s with [] => None | _ :: s' => match_dotted s' end
    end.
Proof. by destruct s. Qed.

Lemma match_dotted_spec s m :
  match_dotted s = Some m → dotted m ∧ ∃ pre post, s = pre ++ m ++ post.
Proof.
  induction s as [|c s IH]; rewrite match_dotted_eq.
  - destruct (dotted_here []) eqn:E; [|done]. intros [= ->].
    apply dotted_here_spec in E as [Hm [post ->]]. split; [done|].
    by exists [], post.
  - destruct (dotted_here (c :: s)) eqn:E.
    + intros [= ->]. apply dotted_here_spec in E as [Hm [post ->]].
      split; [done|]. by exists [], post.
    + intros [Hm (pre & post & ->)]%IH. split; [done|].
      by exists (c :: pre), post.
Qed.

Lemma map_versions_Ok lines found :
  map_versions lines = Ok found →
  Forall2 (λ line v, match_dotted line = Some v) lines found.
Proof.
  revert found. induction lines as [|line lines IH]; intros found; cbn.
  - intros [= <-]. constructor.
  - destruct (match_dotted line) as [v|] eqn:E; [|done].
    destruct (map_versions lines) as [vs|]; [|done]. intros [= <-].
    constructor; [done|]. by apply IH.
Qed.

Lemma map_versions_null lines line :
  line ∈ lines → match_dotted line = None →
  map_versions lines = Throw NullAccess.
Proof.
  intros Hin Hnone. induction lines as [|x lines IH]; [by inversion Hin|].
  cbn. destruct (match_dotted x) as [v|] eqn:E.
  - inversion Hin as [|? ? ? Hin']; subst; [congruence|].
    by rewrite (IH Hin').
  - done.
Qed.

Lemma insert_sorted_perm x sorted l :
  insert_sorted semver_parse semver_coerce semver_compare x sorted = Ok l →
  l ≡ₚ x :: sorted.
Proof.
  revert l. induction sorted as [|y rest IH]; intros l; cbn.
  - by intros [= <-].
  - destruct (compareVersions _ _ _ x y) as [c|]; [|done].
    destruct (c <=? 0)%Z.
    + by intros [= <-].
    + destruct (insert_sorted _ _ _ x rest) as [rest'|]; [|done].
      intros [= <-]. rewrite (IH _ eq_refl). apply Permutation_swap.
Qed.

Lemma sort_versions_perm versions l :
  sort_versions semver_parse semver_coerce semver_compare versions = Ok l →
  l ≡ₚ versions.
Proof.
  revert l. induction versions as [|x rest IH]; intros l; cbn.
  - by intros [= <-].
  - destruct (sort_versions _ _ _ rest) as [sorted|]; [|done].
    intros H%insert_sorted_perm. by rewrite H, (IH _ eq_refl).
Qed.

(** X9.  A version that [fetchSdkVersionByType] returns is never made up:
    [xcodebuild -showsdks] ran cleanly, and the version is a run of digits,
    a dot and a run of digits that stands in a line of its output which,
    trimmed, starts with the SDK type, a space and a digit. *)
Theorem sdk_version_is_a_dotted_number_of_an_sdk_line sdkType v :
  fetchSdkVersionByType child_process_spawnSync semver_parse semver_coerce
    semver_compare sdkType = Ok v →
  ∃ r line,
    child_process_spawnSync (lit "xcodebuild") [lit "-showsdks"] = Ok r
    ∧ error r = None ∧ status r = Some 0%Z
    ∧ line ∈ split_lines (stdout r)
    ∧ (∃ c rest, trim line = sdkType ++ [32%N] ++ c :: rest ∧ is_digit c = true)
    ∧ (∃ pre post, line = pre ++ v ++ post)
    ∧ (∃ major minor,
         v = major ++ [46%N] ++ minor
         ∧ major ≠ [] ∧ minor ≠ []
         ∧ Forall (λ c, is_digit c = true) major
         ∧ Forall (λ c, is_digit c = true) minor).
Proof.
  unfold fetchSdkVersionByType.
  destruct (spawnSync _ _ _) as [out|] eqn:Hout; [|done].
  apply spawnSync_Ok in Hout as (r & Hrun & Herr & Hst & <-).
  destruct (map_versions _) as [found|] eqn:Hmap; [|done].
  destruct (sort_versions _ _ _ found) as [versions|] eqn:Hsort; [|done].
  destruct versions as [|[|c0 v0] versions]; try done. intros [= <-].
  apply sort_versions_perm in Hsort. apply map_versions_Ok in Hmap.
  assert (Hin : c0 :: v0 ∈ found).
  { rewrite <- Hsort. apply list_elem_of_here. }
  apply list_elem_of_lookup in Hin as [i Hi].
  destruct (Forall2_lookup_r _ _ _ _ _ Hmap Hi) as (line & Hline & Hmatch).
  apply list_elem_of_lookup_2 in Hline.
  apply list_elem_of_filter in Hline as [Hsdk Hline].
  apply match_dotted_spec in Hmatch as [Hdot Hocc].
  exists r, line. repeat split; try done.
  unfold is_sdk_line in Hsdk.
  destruct (strip_prefix _ (trim line)) as [[|c rest]|] eqn:E; try done.
  apply strip_prefix_Some in E. exists c, rest. split; [|done].
  by rewrite E, <- app_assoc.
Qed.

(** X11.  How [fetchSdkVersionByType] fails once [xcodebuild -showsdks] ran
    cleanly.  With no line that names the SDK type it throws the
    [CordovaError] that quotes the output.  With such a line that holds no
    dotted number it throws the engine's [TypeError] for the index into
    [null], whatever the other lines hold. *)
Theorem sdk_version_failures sdkType r :
  child_process_spawnSync (lit "xcodebuild") [lit "-showsdks"] = Ok r →
  error r = None →
  status r = Some 0%Z →
  (sdk_lines sdkType (stdout r) = [] →
   fetchSdkVersionByType child_process_spawnSync semver_parse semver_coerce
     semver_compare sdkType
   = Throw
       (CordovaError
          (lit "Could not determine " ++ sdkType
           ++ lit " version from output:" ++ [10%N] ++ stdout r)))
  ∧ (∀ line,
       line ∈ split_lines (stdout r) →
       is_sdk_line sdkType line = true →
       match_dotted line = None →
       fetchSdkVersionByType child_process_spawnSync semver_parse
         semver_coerce semver_compare sdkType
       = Throw NullAccess).
Proof.
  intros Hrun Herr Hst.
  assert (Hout : spawnSync child_process_spawnSync (lit "xcodebuild") [lit "-showsdks"]
                 = Ok (stdout r)) by (apply spawnSync_Ok; by exists r).
  unfold fetchSdkVersionByType. rewrite Hout. split.
  - intros ->. done.
  - intros line Hin Hsdk Hnone.
    rewrite (map_versions_null _ line); [done| |done].
    apply list_elem_of_filter. by split.
Qed.

Section Lowest.

(** The versions at hand can be made [semver] versions, and
    [semver.compare] is consistent: it orders them. *)
Variable found : list jsstring.
Hypothesis coerced : Forall (coercible semver_parse semver_coerce) found.
Hypothesis compare_trans :
  ∀ a b c, (semver_compare a b ≤ 0)%Z → (semver_compare b c ≤ 0)%Z →
           (semver_compare a c ≤ 0)%Z.
Hypothesis compare_swap :
  ∀ a b, (0 ≤ semver_compare a b)%Z → (semver_compare b a ≤ 0)%Z.

Local Abbreviation ok := (coercible semver_parse semver_coerce).
Local Abbreviation no_greater :=
  (Versions.no_greater semver_parse semver_coerce semver_compare).

Lemma coerce_ok v :
  ok v → ∃ sv, coerceToSemverIfInvalid semver_parse semver_coerce v = Ok sv.
Proof.
  unfold coerceToSemverIfInvalid. intros [[sv ->]|[sv Hc]]; [by exists sv|].
  destruct (semver_parse v) as [sv'|]; [by exists sv'|].
  rewrite Hc. by exists sv.
Qed.

Lemma compareVersions_ok a b :
  ok a → ok b →
  ∃ sa sb,
    coerceToSemverIfInvalid semver_parse semver_coerce a = Ok sa
    ∧ coerceToSemverIfInvalid semver_parse semver_coerce b = Ok sb
    ∧ compareVersions semver_parse semver_coerce semver_compare a b
      = Ok (semver_compare sa sb).
Proof.
  intros [sa Ha]%coerce_ok [sb Hb]%coerce_ok. exists sa, sb.
  unfold compareVersions. by rewrite Ha, Hb.
Qed.

Lemma no_greater_trans a b c :
  ok a → ok b → ok c → no_greater a b → no_greater b c → no_greater a c.
Proof.
  intros Ha Hb Hc (x & Hx & Hx0) (y & Hy & Hy0).
  destruct (compareVersions_ok a b Ha Hb) as (sa & sb & Ea & Eb & Eab).
  destruct (compareVersions_ok b c Hb Hc) as (sb' & sc & Eb' & Ec & Ebc).
  destruct (compareVersions_ok a c Ha Hc) as (sa' & sc' & Ea' & Ec' & Eac).
  assert (sb' = sb) as -> by congruence.
  assert (sa' = sa) as -> by congruence.
  assert (sc' = sc) as -> by congruence.
  exists (semver_compare sa sc). split; [done|].
  apply (compare_trans _ sb); congruence.
Qed.

Lemma insert_sorted_returns x sorted :
  ok x → Forall ok sorted →
  ∃ l, insert_sorted semver_parse semver_coerce semver_compare x sorted = Ok l.
Proof.
  intros Hx Hs. induction Hs as [|y rest Hy Hrest IH]; cbn; [by eexists|].
  destruct (compareVersions_ok x y Hx Hy) as (sx & sy & _ & _ & ->).
  destruct (_ <=? 0)%Z; [by eexists|].
  destruct IH as [rest' ->]. by eexists.
Qed.

Lemma insert_sorted_lowest x y rest l :
  ok x → Forall ok (y :: rest) →
  (∀ z, z ∈ y :: rest → no_greater y z) →
  insert_sorted semver_parse semver_coerce semver_compare x (y :: rest) = Ok l →
  ∃ h t, l = h :: t ∧ ∀ z, z ∈ l → no_greater h z.
Proof.
  intros Hx Hall Hmin Hins. assert (Hperm := insert_sorted_perm _ _ _ Hins).
  assert (Hy : ok y) by (by inversion Hall).
  assert (Hok : ∀ z, z ∈ l → ok z).
  { intros z Hz. rewrite Hperm in Hz. rewrite Forall_forall in Hall.
    inversion Hz; subst; [done|]. by apply Hall. }
  cbn in Hins.
  destruct (compareVersions_ok x y Hx Hy) as (sx & sy & Ex & Ey & Exy).
  destruct (compareVersions_ok y x Hy Hx) as (sy' & sx' & Ey' & Ex' & Eyx).
  assert (sy' = sy) as -> by congruence.
  assert (sx' = sx) as -> by congruence.
  destruct (compareVersions_ok x x Hx Hx) as (s1 & s2 & E1 & E2 & Exx).
  assert (s1 = sx) as -> by congruence.
  assert (s2 = sx) as -> by congruence.
  assert (Hxx : no_greater x x).
  { exists (semver_compare sx sx). split; [done|].
    destruct (Z.le_gt_cases (semver_compare sx sx) 0) as [|Hgt]; [done|].
    apply compare_swap. lia. }
  rewrite Exy in Hins. destruct (Z.leb_spec (semver_compare sx sy) 0) as [Hlt|Hge].
  - injection Hins as <-. exists x, (y :: rest). split; [done|].
    intros z Hz. inversion Hz as [|? ? ? Hz']; subst; [done|].
    apply (no_greater_trans x y z); try done.
    + apply Hok. by apply list_elem_of_further.
    + exists (semver_compare sx sy). split; [done|lia].
    + by apply Hmin.
  - destruct (insert_sorted _ _ _ x rest) as [rest'|] eqn:E; [|done].
    injection Hins as <-. exists y, rest'. split; [done|].
    intros z Hz. rewrite Hperm in Hz.
    inversion Hz as [|? ? ? Hz']; subst; [|by apply Hmin].
    exists (semver_compare sy sx). split; [done|]. apply compare_swap. lia.
Qed.

Lemma sort_versions_lowest versions :
  Forall ok versions → versions ≠ [] →
  ∃ h t, sort_versions semver_parse semver_coerce semver_compare versions
         = Ok (h :: t)
         ∧ ∀ z, z ∈ versions → no_greater h z.
Proof.
  induction 1 as [|x rest Hx Hrest IH]; [done|]. intros _. cbn.
  destruct rest as [|y rest].
  - cbn. exists x, []. split; [done|]. intros z Hz.
    apply list_elem_of_singleton in Hz as ->.
    destruct (compareVersions_ok x x Hx Hx) as (s1 & s2 & E1 & E2 & Exx).
    assert (s2 = s1) as -> by congruence.
    exists (semver_compare s1 s1). split; [done|].
    destruct (Z.le_gt_cases (semver_compare s1 s1) 0) as [|Hgt]; [done|].
    apply compare_swap. lia.
  - destruct IH as (h & t & Hsort & Hmin); [done|].
    rewrite Hsort. assert (Hperm := sort_versions_perm _ _ Hsort).
    destruct (insert_sorted_returns x (h :: t) Hx) as [l Hl].
    { rewrite Forall_forall in Hrest |- *. intros z Hz. apply Hrest.
      by rewrite <- Hperm. }
    destruct (insert_sorted_lowest x h t l Hx) as (h' & t' & -> & Hmin');
      [| |done|].
    { rewrite Forall_forall in Hrest |- *. intros z Hz. apply Hrest.
      by rewrite <- Hperm. }
    { intros z Hz. apply Hmin. by rewrite <- Hperm. }
    rewrite Hl. exists h', t'. split; [done|]. intros z Hz. apply Hmin'.
    rewrite (insert_sorted_perm _ _ _ Hl).
    inversion Hz as [|? ? ? Hz']; subst; [apply list_elem_of_here|].
    apply list_elem_of_further. by rewrite Hperm.
Qed.

(** X10.  Of several SDK versions [fetchSdkVersionByType] returns the
    lowest.  When [xcodebuild -showsdks] ran cleanly, its SDK lines hold the
    dotted numbers [found], at least one, every one of them a version for
    [semver], and [semver.compare] is an order, the function returns one of
    [found] that [compareVersions] finds no greater than any of them. *)
Theorem sdk_version_is_the_lowest_found sdkType r :
  child_process_spawnSync (lit "xcodebuild") [lit "-showsdks"] = Ok r →
  error r = None →
  status r = Some 0%Z →
  map_versions (sdk_lines sdkType (stdout r)) = Ok found →
  found ≠ [] →
  ∃ v,
    fetchSdkVersionByType child_process_spawnSync semver_parse semver_coerce
      semver_compare sdkType = Ok v
    ∧ v ∈ found
    ∧ ∀ u, u ∈ found → no_greater v u.
Proof.
  intros Hrun Herr Hst Hmap Hne.
  assert (Hout : spawnSync child_process_spawnSync (lit "xcodebuild") [lit "-showsdks"]
                 = Ok (stdout r)) by (apply spawnSync_Ok; by exists r).
  destruct (sort_versions_lowest found coerced Hne) as (h & t & Hsort & Hmin).
  assert (Hin : h ∈ found).
  { rewrite <- (sort_versions_perm _ _ Hsort). apply list_elem_of_here. }
  exists h. split; [|by split].
  unfold fetchSdkVersionByType. rewrite Hout, Hmap, Hsort.
  apply map_versions_Ok in Hmap.
  apply list_elem_of_lookup in Hin as [i Hi].
  destruct (Forall2_lookup_r _ _ _ _ _ Hmap Hi) as (line & _ & Hmatch).
  apply match_dotted_spec in Hmatch as [(major & minor & -> & Hmaj & _) _].
  by destruct major.
Qed.

End Lowest.

End VersionsProperties.

Section VersionsWitnesses.

Import Versions.
Local Open Scope list_scope.

Lemma demo_compare_trans (a b c : N * N) :
  (demo_compare a b ≤ 0)%Z → (demo_compare b c ≤ 0)%Z →
  (demo_compare a c ≤ 0)%Z.
Proof.
  destruct a as [a1 a2], b as [b1 b2], c as [c1 c2]. unfold demo_compare. cbn.
  destruct (N.compare_spec a1 b1), (N.compare_spec b1 c1),
    (N.compare_spec a2 b2), (N.compare_spec b2 c2),
    (N.compare_spec a1 c1), (N.compare_spec a2 c2); lia.
Qed.

Lemma demo_compare_swap (a b : N * N) :
  (0 ≤ demo_compare a b)%Z → (demo_compare b a ≤ 0)%Z.
Proof.
  destruct a as [a1 a2], b as [b1 b2]. unfold demo_compare. cbn.
  destruct (N.compare_spec a1 b1), (N.compare_spec b1 a1),
    (N.compare_spec a2 b2), (N.compare_spec b2 a2); lia.
Qed.

Lemma xcode_version_is_rest_of_first_Xcode_line_witness :
  get_apple_xcode_version demo_spawnSync = Resolved (lit "16.4").
Proof.
  refine (proj1
            (xcode_version_is_rest_of_first_Xcode_line demo_spawnSync
               (mkSpawned None (Some 0%Z) demo_xcode []) eq_refl eq_refl eq_refl)
            [] (lit "16.4") ([10%N] ++ lit "Build version 16F6" ++ [10%N])
            eq_refl _ _ _).
  - intros i Hi. cbn in Hi. lia.
  - repeat constructor.
  - right. by eexists _, _.
Defined.

Lemma tool_version_needs_known_tool_and_clean_run_witness :
  (∃ arg r,
     (lit "pod", arg) ∈ [(lit "xcodebuild", lit "-version");
                          (lit "ios-deploy", lit "--version");
                          (lit "pod", lit "--version")]
     ∧ demo_spawnSync (lit "pod") [arg] = Ok r
     ∧ error r = None ∧ status r = Some 0%Z
     ∧ (lit "pod" ≠ lit "xcodebuild" → lit "1.16.2" = stdout r))
  ∧ get_tool_version demo_spawnSync (lit "gcc")
    = Rejected
        (CordovaError
           (lit "gcc"
            ++ lit " is not valid tool name. Valid names are: 'xcodebuild', 'ios-deploy', and 'pod'")).
Proof.
  split.
  - apply (proj1 (tool_version_needs_known_tool_and_clean_run demo_spawnSync (lit "pod"))).
    reflexivity.
  - apply (proj2 (tool_version_needs_known_tool_and_clean_run demo_spawnSync (lit "gcc"))).
    apply (bool_decide_unpack _). vm_compute. exact I.
Defined.

Lemma sdk_version_is_a_dotted_number_of_an_sdk_line_witness :
  ∃ r line,
    demo_spawnSync (lit "xcodebuild") [lit "-showsdks"] = Ok r
    ∧ error r = None ∧ status r = Some 0%Z
    ∧ line ∈ split_lines (stdout r)
    ∧ (∃ c rest, trim line = lit "iOS" ++ [32%N] ++ c :: rest ∧ is_digit c = true)
    ∧ (∃ pre post, line = pre ++ lit "17.5" ++ post)
    ∧ (∃ major minor,
         lit "17.5" = major ++ [46%N] ++ minor
         ∧ major ≠ [] ∧ minor ≠ []
         ∧ Forall (λ c, is_digit c = true) major
         ∧ Forall (λ c, is_digit c = true) minor).
Proof.
  apply (sdk_version_is_a_dotted_number_of_an_sdk_line demo_spawnSync
           demo_parse demo_coerce demo_compare (lit "iOS") (lit "17.5")).
  vm_compute. reflexivity.
Defined.

Lemma sdk_version_is_the_lowest_found_witness :
  ∃ v,
    fetchSdkVersionByType demo_spawnSync demo_parse demo_coerce demo_compare
      (lit "iOS") = Ok v
    ∧ v ∈ [lit "26.2"; lit "17.5"]
    ∧ ∀ u, u ∈ [lit "26.2"; lit "17.5"] →
        no_greater demo_parse demo_coerce demo_compare v u.
Proof.
  apply (sdk_version_is_the_lowest_found demo_spawnSync demo_parse demo_coerce
           demo_compare [lit "26.2"; lit "17.5"])
    with (r := mkSpawned None (Some 0%Z) demo_sdks []).
  - repeat (apply List.Forall_cons; [right; vm_compute; by eexists|]).
    apply List.Forall_nil.
  - apply demo_compare_trans.
  - apply demo_compare_swap.
  - reflexivity.
  - reflexivity.
  - reflexivity.
  - vm_compute. reflexivity.
  - discriminate.
Defined.

Lemma sdk_version_failures_witness :
  fetchSdkVersionByType demo_spawnSync demo_parse demo_coerce demo_compare
    (lit "tvOS")
  = Throw
      (CordovaError
         (lit "Could not determine " ++ lit "tvOS"
          ++ lit " version from output:" ++ [10%N] ++ demo_sdks))
  ∧ fetchSdkVersionByType odd_spawnSync demo_parse demo_coerce demo_compare
      (lit "iOS")
    = Throw NullAccess.
Proof.
  split.
  - apply (proj1 (sdk_version_failures demo_spawnSync demo_parse demo_coerce
                    demo_compare (lit "tvOS")
                    (mkSpawned None (Some 0%Z) demo_sdks [])
                    eq_refl eq_refl eq_refl)).
    vm_compute. reflexivity.
  - apply (proj2 (sdk_version_failures odd_spawnSync demo_parse demo_coerce
                    demo_compare (lit "iOS")
                    (mkSpawned None (Some 0%Z) (lit "iOS 26 -sdk iphoneos26") [])
                    eq_refl eq_refl eq_refl) (lit "iOS 26 -sdk iphoneos26")).
    + vm_compute. apply list_elem_of_here.
    + vm_compute. reflexivity.
    + vm_compute. reflexivity.
Defined.

(** The machine of the tests of [versions.spec.js]: one iOS SDK, one macOS
    SDK. *)
Example ios_and_macos_sdk_versions :
  let out :=
    [10%N] ++ lit "DriverKit SDKs:" ++ [10%N]
    ++ [9%N] ++ lit "DriverKit 25.2                  -sdk driverkit25.2" ++ [10%N]
    ++ [10%N] ++ lit "iOS SDKs:" ++ [10%N]
    ++ [9%N] ++ lit "iOS 26.2                        -sdk iphoneos26.2" ++ [10%N]
    ++ [10%N] ++ lit "iOS Simulator SDKs:" ++ [10%N]
    ++ [9%N] ++ lit "Simulator - iOS 26.2            -sdk iphonesimulator26.2" ++ [10%N]
    ++ [10%N] ++ lit "macOS SDKs:" ++ [10%N]
    ++ [9%N] ++ lit "macOS 15.7                      -sdk macosx15.7" ++ [10%N]
    ++ [10%N] ++ lit "visionOS SDKs:" ++ [10%N]
    ++ [9%N] ++ lit "visionOS 26.2                   -sdk xros26.2" ++ [10%N]
    ++ [10%N] ++ lit "visionOS Simulator SDKs:" ++ [10%N]
    ++ [9%N] ++ lit "Simulator - visionOS 26.2       -sdk xrsimulator26.2" ++ [10%N] in
  let spawn := λ _ _, Ok (mkSpawned None (Some 0%Z) out []) in
  get_apple_ios_version spawn demo_parse demo_coerce demo_compare
  = Resolved (lit "26.2")
  ∧ get_apple_osx_version spawn demo_parse demo_coerce demo_compare
    = Resolved (lit "15.7").
Proof. split; vm_compute; reflexivity. Qed.

End VersionsWitnesses.

(** * Properties of [NSDictionary (CordovaPreferences)] *)

Section PreferencesProperties.

Import CordovaPreferences.

Variable object : Type.
Variable lowercaseString : string → string.
Variable asNSString : object → option string.
Variable isNSNumber : object → bool.
Variable isEqual : object → bool → bool.

Lemma setting_lookup (self : dictionary object) value key key' :
  lowercaseString key' = lowercaseString key →
  cordovaSettingForKey lowercaseString
    (setCordovaSetting lowercaseString self value key) key' = Some value.
Proof.
  unfold cordovaSettingForKey, setCordovaSetting. intros ->.
  apply lookup_insert_eq.
Qed.

(** X12.  A setting that [setCordovaSetting:forKey:] stored is found by
    [cordovaSettingForKey:] under every key that is the same in lower case,
    whatever was stored there before; under the other keys the dictionary
    answers as before. *)
Theorem setting_round_trip_ignores_case
    (self : dictionary object) (value : object) (key key' : string) :
  (lowercaseString key' = lowercaseString key →
   cordovaSettingForKey lowercaseString
     (setCordovaSetting lowercaseString self value key) key' = Some value)
  ∧ (lowercaseString key' ≠ lowercaseString key →
     cordovaSettingForKey lowercaseString
       (setCordovaSetting lowercaseString self value key) key'
     = cordovaSettingForKey lowercaseString self key').
Proof.
  split; [apply setting_lookup|].
  unfold cordovaSettingForKey, setCordovaSetting.
  intros Hne. by apply lookup_insert_ne.
Qed.

(** X13.  A setting stored as a string is read as a boolean without regard
    to case, of the key and of the string: [true] and [1] give [YES],
    [false] and [0] give [NO], and any other string gives the default;
    nothing is logged.  Only a key with no setting is logged, and gives the
    default. *)
Theorem bool_setting_of_a_string
    (self : dictionary object) (value : object) (s : string)
    (key key' : string) (defaultValue : bool) :
  asNSString value = Some s →
  lowercaseString key' = lowercaseString key →
  cordovaBoolSettingForKey lowercaseString asNSString isNSNumber isEqual
    (setCordovaSetting lowercaseString self value key) key' defaultValue
  = (if bool_decide (lowercaseString s ∈ ["true"; "1"]) then true
     else if bool_decide (lowercaseString s ∈ ["false"; "0"]) then false
     else defaultValue, [])
  ∧ (cordovaSettingForKey lowercaseString self key' = None →
     cordovaBoolSettingForKey lowercaseString asNSString isNSNumber isEqual
       self key' defaultValue
     = (defaultValue, [NotDefined key' defaultValue])).
Proof.
  intros Hs Hkey. split.
  - unfold cordovaBoolSettingForKey.
    rewrite (setting_lookup self value key key' Hkey), Hs. cbn zeta.
    unfold isEqualToString.
    destruct (decide (lowercaseString s = "true")) as [->|H1]; [done|].
    destruct (decide (lowercaseString s = "1")) as [->|H2]; [done|].
    destruct (decide (lowercaseString s = "false")) as [->|H3]; [done|].
    destruct (decide (lowercaseString s = "0")) as [->|H4]; [done|].
    rewrite !bool_decide_eq_false_2; try done.
    + intros Hin. apply elem_of_cons in Hin as [|Hin]; [done|].
      by apply list_elem_of_singleton in Hin.
    + intros Hin. apply elem_of_cons in Hin as [|Hin]; [done|].
      by apply list_elem_of_singleton in Hin.
  - unfold cordovaBoolSettingForKey. by intros ->.
Qed.

End PreferencesProperties.

Lemma setting_round_trip_ignores_case_witness :
  CordovaPreferences.cordovaSettingForKey CordovaPreferences.demo_lowercaseString
    (CordovaPreferences.setCordovaSetting CordovaPreferences.demo_lowercaseString
       ∅ (CordovaPreferences.DString "YES") "AllowInlineMediaPlayback")
    "allowinlinemediaplayback"
  = Some (CordovaPreferences.DString "YES")
  ∧ CordovaPreferences.cordovaSettingForKey CordovaPreferences.demo_lowercaseString
      (CordovaPreferences.setCordovaSetting CordovaPreferences.demo_lowercaseString
         ∅ (CordovaPreferences.DString "YES") "AllowInlineMediaPlayback")
      "Fullscreen"
    = CordovaPreferences.cordovaSettingForKey CordovaPreferences.demo_lowercaseString
        ∅ "Fullscreen".
Proof.
  split.
  - apply (proj1 (setting_round_trip_ignores_case CordovaPreferences.demo_object
                    CordovaPreferences.demo_lowercaseString ∅
                    (CordovaPreferences.DString "YES")
                    "AllowInlineMediaPlayback" "allowinlinemediaplayback")).
    reflexivity.
  - apply (proj2 (setting_round_trip_ignores_case CordovaPreferences.demo_object
                    CordovaPreferences.demo_lowercaseString ∅
                    (CordovaPreferences.DString "YES")
                    "AllowInlineMediaPlayback" "Fullscreen")).
    vm_compute. discriminate.
Defined.

Lemma bool_setting_of_a_string_witness :
  CordovaPreferences.cordovaBoolSettingForKey
    CordovaPreferences.demo_lowercaseString CordovaPreferences.demo_asNSString
    CordovaPreferences.demo_isNSNumber CordovaPreferences.demo_isEqual
    (CordovaPreferences.setCordovaSetting CordovaPreferences.demo_lowercaseString
       ∅ (CordovaPreferences.DString "TRUE") "Fullscreen")
    "FULLSCREEN" false
  = (true, []).
Proof.
  apply (proj1 (bool_setting_of_a_string CordovaPreferences.demo_object
                  CordovaPreferences.demo_lowercaseString
                  CordovaPreferences.demo_asNSString
                  CordovaPreferences.demo_isNSNumber
                  CordovaPreferences.demo_isEqual
                  ∅ (CordovaPreferences.DString "TRUE") "TRUE"
                  "Fullscreen" "FULLSCREEN" false eq_refl eq_refl)).
Defined.
